(** * BI Assistant chat sessions: persistence and transcript controller

    A shallow embedding of the chat-session logic of the BI Assistant page
    (component [BIAssistant] and its child [ChatHistory]): the session
    store ([saveChatSessions], [loadChatSessions], [saveCurrentSession]),
    the event handlers ([handleNewChat], [handleSelectSession],
    [handleDeleteSession], [handleSendMessage], [handleRenameSession],
    [handleSaveEdit], [handleKeyPress]) and the simulated response.

    React state is a record that every handler maps to the next record;
    readings of the clock ([Date.now()], [new Date()]) and of
    [Math.random()] are arguments of the handler that takes them. *)

From Stdlib Require Import ZArith NArith List Bool Lia String Ascii.
Import ListNotations.

Open Scope Z_scope.

(** ** JavaScript strings *)

(** A JavaScript string is a sequence of UTF-16 code units. *)
Definition jsstring := list N.

(** The code units of an ASCII literal. *)
Definition js (s : string) : jsstring :=
  List.map N_of_ascii (list_ascii_of_string s).

(** [a === b] on strings. *)
Fixpoint jsstring_eqb (a b : jsstring) : bool :=
  match a, b with
  | [], [] => true
  | x :: a', y :: b' => (x =? y)%N && jsstring_eqb a' b'
  | _, _ => false
  end.

(** Truthiness of a string: every string but the empty one. *)
Definition truthy_string (s : jsstring) : bool :=
  match s with [] => false | _ :: _ => true end.

(** White space and line terminators, the code units [String.prototype.trim]
    strips: TAB, LF, VT, FF, CR, SP, NBSP, U+1680, U+2000..U+200A, U+2028,
    U+2029, U+202F, U+205F, U+3000 and U+FEFF. *)
Definition is_white_space (c : N) : bool :=
  ((9 <=? c) && (c <=? 13) || (c =? 32) || (c =? 160) || (c =? 5760)
   || (8192 <=? c) && (c <=? 8202) || (c =? 8232) || (c =? 8233)
   || (c =? 8239) || (c =? 8287) || (c =? 12288) || (c =? 65279))%N.

Fixpoint trimStart (s : jsstring) : jsstring :=
  match s with
  | c :: rest => if is_white_space c then trimStart rest else s
  | [] => []
  end.

Definition trimEnd (s : jsstring) : jsstring := rev (trimStart (rev s)).

Definition trim (s : jsstring) : jsstring := trimEnd (trimStart s).

(** Decimal digits, most significant first, of a natural number: the result
    of [Number.prototype.toString] on a non-negative integer below 10^21. *)
Fixpoint digits_fuel (fuel : nat) (n : Z) (acc : jsstring) : jsstring :=
  match fuel with
  | O => acc
  | S fuel' =>
      let acc' := (48 + Z.to_N (n mod 10))%N :: acc in
      if n / 10 =? 0 then acc' else digits_fuel fuel' (n / 10) acc'
  end.

Definition Number_toString (n : Z) : jsstring :=
  if n <? 0 then 45%N :: digits_fuel 22 (- n) []
  else digits_fuel 22 n [].

(** ** JavaScript values *)

(** A [Date] holds a time value, an integral number of milliseconds since
    the epoch, or is an Invalid Date ([None]). *)
Definition Date := option Z.

(** The values that go through the storage boundary.  Numbers are the
    integers; an absent property and a property holding [undefined] are
    both the absence of the key. *)
#[local] Unset Elimination Schemes.
Inductive jsval : Type :=
| VNull
| VBool (b : bool)
| VNum (n : Z)
| VStr (s : jsstring)
| VDate (d : Date)
| VArr (elems : list jsval)
| VObj (props : list (jsstring * jsval)).
#[local] Set Elimination Schemes.

(** Property lookup [o[k]] among the own properties of an object;
    [None] is [undefined]. *)
Fixpoint lookup (k : jsstring) (props : list (jsstring * jsval)) : option jsval :=
  match props with
  | [] => None
  | (k', v) :: rest => if jsstring_eqb k k' then Some v else lookup k rest
  end.

(** Writing a property in an object literal: an existing key keeps its
    place and takes the new value, a new key goes last. *)
Fixpoint set_prop (k : jsstring) (v : jsval) (props : list (jsstring * jsval))
  : list (jsstring * jsval) :=
  match props with
  | [] => [(k, v)]
  | (k', v') :: rest =>
      if jsstring_eqb k k' then (k, v) :: rest else (k', v') :: set_prop k v rest
  end.

(** ** Dates and their ISO-8601 form *)

Module DateTime.

Definition msPerDay : Z := 86400000.
Definition maxTime : Z := 8640000000000000.

(** [TimeClip]. *)
Definition TimeClip (t : Z) : Date :=
if Z.abs t <=? maxTime then Some t else None.

(** Day of a 400-year era to (year of era counted from March, month, day). *)
Definition civil_of_doe (doe : Z) : Z * Z * Z :=
let yoe := (doe - doe / 1460 + doe / 36524 - doe / 146096) / 365 in
let doy := doe - (365 * yoe + yoe / 4 - yoe / 100) in
let mp := (5 * doy + 2) / 153 in
let d := doy - (153 * mp + 2) / 5 + 1 in
let m := if mp <? 10 then mp + 3 else mp - 9 in
(yoe, m, d).

Definition doe_of_civil (yoe m d : Z) : Z :=
let mp := if 2 <? m then m - 3 else m + 9 in
let doy := (153 * mp + 2) / 5 + d - 1 in
yoe * 365 + yoe / 4 - yoe / 100 + doy.

(** Day number since the epoch to (year, month, day) in the proleptic
  Gregorian calendar: [YearFromTime], [MonthFromTime], [DateFromTime]. *)
Definition civil_from_days (z : Z) : Z * Z * Z :=
let z' := z + 719468 in
let era := z' / 146097 in
let doe := z' mod 146097 in
let '(yoe, m, d) := civil_of_doe doe in
(yoe + era * 400 + (if m <=? 2 then 1 else 0), m, d).

(** [MakeDay]. *)
Definition days_from_civil (y m d : Z) : Z :=
let y' := y - (if m <=? 2 then 1 else 0) in
let era := y' / 400 in
let yoe := y' mod 400 in
era * 146097 + doe_of_civil yoe m d - 719468.

Definition is_leap (y : Z) : bool :=
(y mod 4 =? 0) && (negb (y mod 100 =? 0) || (y mod 400 =? 0)).

Definition days_in_month (y m : Z) : Z :=
if m =? 2 then (if is_leap y then 29 else 28)
else if (m =? 4) || (m =? 6) || (m =? 9) || (m =? 11) then 30
else 31.

(** [w] decimal digits of [n], zero padded. *)
Fixpoint pad (w : nat) (n : Z) : jsstring :=
match w with
| O => []
| S w' => pad w' (n / 10) ++ [(48 + Z.to_N (n mod 10))%N]
end.

Definition is_digit (c : N) : bool := ((48 <=? c) && (c <=? 57))%N.

(** Reads exactly [w] decimal digits off the front of [s]. *)
Fixpoint read_digits (w : nat) (acc : Z) (s : jsstring) : option (Z * jsstring) :=
match w with
| O => Some (acc, s)
| S w' =>
    match s with
    | c :: rest =>
        if is_digit c then read_digits w' (10 * acc + Z.of_N (c - 48)) rest
        else None
    | [] => None
    end
end.

Definition expect (c : N) (s : jsstring) : option jsstring :=
match s with
| c' :: rest => if (c =? c')%N then Some rest else None
| [] => None
end.

(** [Date.prototype.toISOString] of a valid time value:
  [YYYY-MM-DDTHH:mm:ss.sssZ], the year as [+YYYYYY] or [-YYYYYY] when it
  is outside 0..9999. *)
Definition toISOString (t : Z) : jsstring :=
let day := t / msPerDay in
let tod := t mod msPerDay in
let '(y, m, d) := civil_from_days day in
let year :=
  if (0 <=? y) && (y <=? 9999) then pad 4 y
  else (if y <? 0 then 45%N else 43%N) :: pad 6 (Z.abs y) in
year ++ [45%N] ++ pad 2 m ++ [45%N] ++ pad 2 d ++ [84%N]
     ++ pad 2 (tod / 3600000) ++ [58%N] ++ pad 2 (tod / 60000 mod 60)
     ++ [58%N] ++ pad 2 (tod / 1000 mod 60) ++ [46%N] ++ pad 3 (tod mod 1000)
     ++ [90%N].

Definition read_year (s : jsstring) : option (Z * jsstring) :=
match s with
| [] => None
| c :: rest =>
    if (c =? 43)%N then read_digits 6 0 rest
    else if (c =? 45)%N then
      match read_digits 6 0 rest with
      | Some (y, rest') => if y =? 0 then None else Some (- y, rest')
      | None => None
      end
    else read_digits 4 0 s
end.

(** [Date.parse] on the complete UTC form of the date-time string format.
  The outer [None] means that the string is not of that form; the inner
  value is the parsed date, Invalid when a field is out of range. *)
Definition parse_iso (s : jsstring) : option Date :=
match read_year s with
| None => None
| Some (y, s1) =>
match expect 45 s1 with None => None | Some s2 =>
match read_digits 2 0 s2 with None => None | Some (m, s3) =>
match expect 45 s3 with None => None | Some s4 =>
match read_digits 2 0 s4 with None => None | Some (d, s5) =>
match expect 84 s5 with None => None | Some s6 =>
match read_digits 2 0 s6 with None => None | Some (h, s7) =>
match expect 58 s7 with None => None | Some s8 =>
match read_digits 2 0 s8 with None => None | Some (mi, s9) =>
match expect 58 s9 with None => None | Some s10 =>
match read_digits 2 0 s10 with None => None | Some (sec, s11) =>
match expect 46 s11 with None => None | Some s12 =>
match read_digits 3 0 s12 with None => None | Some (ms, s13) =>
match expect 90 s13 with
| Some [] =>
    Some
      (if (1 <=? m) && (m <=? 12) && (1 <=? d) && (d <=? days_in_month y m)
          && ((h <=? 23) || (h =? 24) && (mi =? 0) && (sec =? 0) && (ms =? 0))
          && (mi <=? 59) && (sec <=? 59)
       then TimeClip (days_from_civil y m d * msPerDay
                      + h * 3600000 + mi * 60000 + sec * 1000 + ms)
       else None)
| _ => None
end end end end end end end end end end end end end end.

(** The days of one era, checked one by one: the calendar date of a day
  is a date of the calendar, and it leads back to the day. *)
Definition check_doe (doe : Z) : bool :=
let '(yoe, m, d) := civil_of_doe doe in
(0 <=? yoe) && (yoe <? 400) && (1 <=? m) && (m <=? 12) && (1 <=? d)
&& (d <=? days_in_month (yoe + (if m <=? 2 then 1 else 0)) m)
&& (doe_of_civil yoe m d =? doe).

(** [f] holds on the [n] integers from [z] on. *)
Fixpoint all_from (n : nat) (z : Z) (f : Z -> bool) : bool :=
match n with
| O => true
| S n' => f z && all_from n' (z + 1) f
end.

End DateTime.

(** ** Exceptions *)

Inductive exn : Type := SyntaxError | TypeError | RangeError.

(** A computation that returns a value or throws. *)
Inductive result (A : Type) : Type :=
| Ok (a : A)
| Throw (e : exn).
Arguments Ok {A} a.
Arguments Throw {A} e.

Definition bind {A B : Type} (r : result A) (f : A -> result B) : result B :=
  match r with
  | Ok a => f a
  | Throw e => Throw e
  end.

Notation "x <- r ;; k" := (bind r (fun x => k))
  (at level 61, r at next level, right associativity).

(** [try { body } catch (e) { handler }]. *)
Definition try_catch {A : Type} (body : result A) (handler : exn -> result A) : result A :=
  match body with
  | Ok a => Ok a
  | Throw e => handler e
  end.

(** [Array.prototype.map] with a callback that may throw. *)
Fixpoint mapM {A B : Type} (f : A -> result B) (l : list A) : result (list B) :=
  match l with
  | [] => Ok []
  | x :: rest => y <- f x ;; ys <- mapM f rest ;; Ok (y :: ys)
  end.

(** ** Data model *)

Inductive MessageType : Type := user | bot.

Module Message.
(** [interface Message]. *)
Record t : Type := mk {
  id : jsstring;
  type : MessageType;
  content : jsstring;
  timestamp : Date;
  chartSpec : option jsval;
  tableData : option jsval
}.
End Message.

Module ChatSession.
(** [interface ChatSession]. *)
Record t : Type := mk {
  id : jsstring;
  title : jsstring;
  timestamp : Date;
  messageCount : Z;
  messages : list Message.t
}.
End ChatSession.

(** [messages.length]. *)
Definition length_of {A : Type} (l : list A) : Z := Z.of_nat (List.length l).

Definition MessageType_toJS (ty : MessageType) : jsval :=
  match ty with
  | user => VStr (js "user")
  | bot => VStr (js "bot")
  end.

Definition optional_prop (k : string) (v : option jsval) : list (jsstring * jsval) :=
  match v with
  | Some x => [(js k, x)]
  | None => []
  end.

(** The object a [Message] is at run time. *)
Definition Message_toJS (m : Message.t) : jsval :=
  VObj ([ (js "id", VStr (Message.id m));
          (js "type", MessageType_toJS (Message.type m));
          (js "content", VStr (Message.content m));
          (js "timestamp", VDate (Message.timestamp m)) ]
        ++ optional_prop "chartSpec" (Message.chartSpec m)
        ++ optional_prop "tableData" (Message.tableData m)).

(** The object a [ChatSession] is at run time. *)
Definition ChatSession_toJS (s : ChatSession.t) : jsval :=
  VObj [ (js "id", VStr (ChatSession.id s));
         (js "title", VStr (ChatSession.title s));
         (js "timestamp", VDate (ChatSession.timestamp s));
         (js "messageCount", VNum (ChatSession.messageCount s));
         (js "messages", VArr (List.map Message_toJS (ChatSession.messages s))) ].

(** Reading a run-time value at the declared type: [None] when the value
    does not have the shape of the interface. *)
Definition asMessageType (v : jsval) : option MessageType :=
  match v with
  | VStr s => if jsstring_eqb s (js "user") then Some user
              else if jsstring_eqb s (js "bot") then Some bot else None
  | _ => None
  end.

Definition asMessage (v : jsval) : option Message.t :=
  match v with
  | VObj props =>
      match lookup (js "id") props, lookup (js "type") props,
            lookup (js "content") props, lookup (js "timestamp") props with
      | Some (VStr i), Some ty, Some (VStr c), Some (VDate d) =>
          match asMessageType ty with
          | Some ty' =>
              Some (Message.mk i ty' c d (lookup (js "chartSpec") props)
                               (lookup (js "tableData") props))
          | None => None
          end
      | _, _, _, _ => None
      end
  | _ => None
  end.

(** All elements read at a type, or nothing. *)
Fixpoint traverse {A B : Type} (f : A -> option B) (l : list A) : option (list B) :=
  match l with
  | [] => Some []
  | x :: rest =>
      match f x, traverse f rest with
      | Some y, Some ys => Some (y :: ys)
      | _, _ => None
      end
  end.

Definition asChatSession (v : jsval) : option ChatSession.t :=
  match v with
  | VObj props =>
      match lookup (js "id") props, lookup (js "title") props,
            lookup (js "timestamp") props, lookup (js "messageCount") props,
            lookup (js "messages") props with
      | Some (VStr i), Some (VStr ti), Some (VDate d), Some (VNum n), Some (VArr ms) =>
          match traverse asMessage ms with
          | Some ms' => Some (ChatSession.mk i ti d n ms')
          | None => None
          end
      | _, _, _, _, _ => None
      end
  | _ => None
  end.

Definition asChatSessions (l : list jsval) : option (list ChatSession.t) :=
  traverse asChatSession l.

(** ** The durable slot and JSON *)

(** The text held under the key ['bi-assistant-sessions']: either the JSON
    text of a value, written [JsonOf v] and standing for what
    [JSON.stringify] prints for [v] and [JSON.parse] reads back as [v], or
    any other text, which [JSON.parse] rejects. *)
Inductive stored_text : Type :=
| NotJson (s : jsstring)
| JsonOf (v : jsval).

(** [localStorage.getItem('bi-assistant-sessions')]; [None] is [null]. *)
Definition Storage := option stored_text.

Definition truthy_text (t : stored_text) : bool :=
  match t with
  | NotJson s => truthy_string s
  | JsonOf _ => true
  end.

Definition JSON_parse (t : stored_text) : result jsval :=
  match t with
  | NotJson _ => Throw SyntaxError
  | JsonOf v => Ok v
  end.

(** [Date.prototype.toISOString]: a RangeError on an Invalid Date. *)
Definition Date_toISOString (d : Date) : result jsstring :=
  match d with
  | Some t => Ok (DateTime.toISOString t)
  | None => Throw RangeError
  end.

(** [Date.prototype.toJSON]: [null] for an Invalid Date. *)
Definition Date_toJSON (d : Date) : result jsval :=
  match d with
  | Some _ => s <- Date_toISOString d ;; Ok (VStr s)
  | None => Ok VNull
  end.

(** The replacer [saveChatSessions] gives to [JSON.stringify]:
    [key === 'timestamp' && value instanceof Date ? value.toISOString() : value]. *)
Definition replacer (key : jsstring) (value : jsval) : result jsval :=
  match value with
  | VDate d =>
      if jsstring_eqb key (js "timestamp")
      then s <- Date_toISOString d ;; Ok (VStr s)
      else Ok value
  | _ => Ok value
  end.

(** [JSON.stringify]'s walk over a value, as the JSON value that is
    printed.  At every property the value's own [toJSON] is called first
    and the replacer second; what the replacer returns is then walked, and
    since this replacer returns every value that is not a Date as it is,
    the walk goes on in the value itself. *)
Fixpoint SerializeJSONProperty (key : jsstring) (v : jsval) {struct v} : result jsval :=
  match v with
  | VDate d => v1 <- Date_toJSON d ;; replacer key v1
  | VArr elems =>
      _ <- replacer key v ;;
      elems' <- (fix walk (i : Z) (l : list jsval) {struct l} : result (list jsval) :=
                   match l with
                   | [] => Ok []
                   | x :: rest =>
                       x' <- SerializeJSONProperty (Number_toString i) x ;;
                       rest' <- walk (i + 1) rest ;;
                       Ok (x' :: rest')
                   end) 0 elems ;;
      Ok (VArr elems')
  | VObj props =>
      _ <- replacer key v ;;
      props' <- (fix walk (l : list (jsstring * jsval)) {struct l}
                   : result (list (jsstring * jsval)) :=
                   match l with
                   | [] => Ok []
                   | (k, x) :: rest =>
                       x' <- SerializeJSONProperty k x ;;
                       rest' <- walk rest ;;
                       Ok ((k, x') :: rest')
                   end) props ;;
      Ok (VObj props')
  | _ => replacer key v
  end.

Definition JSON_stringify (v : jsval) : result stored_text :=
  v' <- SerializeJSONProperty [] v ;; Ok (JsonOf v').

(** [saveChatSessions]: one [setItem] with the serialized list.  Were the
    serialization to throw, the slot would keep its content. *)
Definition saveChatSessions (sessions : list ChatSession.t) (slot : Storage) : Storage :=
  match JSON_stringify (VArr (List.map ChatSession_toJS sessions)) with
  | Ok text => Some text
  | Throw _ => slot
  end.

(** The JSON value printed for a Date. *)
Definition Date_json (d : Date) : jsval :=
  match d with
  | Some t => VStr (DateTime.toISOString t)
  | None => VNull
  end.

(** The JSON value printed for a message and for a session. *)
Definition Message_json (m : Message.t) : jsval :=
  VObj ([ (js "id", VStr (Message.id m));
          (js "type", MessageType_toJS (Message.type m));
          (js "content", VStr (Message.content m));
          (js "timestamp", Date_json (Message.timestamp m)) ]
        ++ optional_prop "chartSpec" (Message.chartSpec m)
        ++ optional_prop "tableData" (Message.tableData m)).

Definition ChatSession_json (s : ChatSession.t) : jsval :=
  VObj [ (js "id", VStr (ChatSession.id s));
         (js "title", VStr (ChatSession.title s));
         (js "timestamp", Date_json (ChatSession.timestamp s));
         (js "messageCount", VNum (ChatSession.messageCount s));
         (js "messages", VArr (List.map Message_json (ChatSession.messages s))) ].

(** [v.timestamp] and [v.messages]: a TypeError on [null], [undefined]
    ([None]) on a value that has no such property. *)
Definition get_named (k : string) (v : jsval) : result (option jsval) :=
  match v with
  | VNull => Throw TypeError
  | VObj props => Ok (lookup (js k) props)
  | _ => Ok None
  end.

(** The own enumerable properties an object spread [{...v}] copies. *)
Fixpoint index_props {A : Type} (f : A -> jsval) (i : Z) (l : list A)
  : list (jsstring * jsval) :=
  match l with
  | [] => []
  | x :: rest => (Number_toString i, f x) :: index_props f (i + 1) rest
  end.

Definition spread (v : jsval) : list (jsstring * jsval) :=
  match v with
  | VObj props => props
  | VArr elems => index_props (fun x => x) 0 elems
  | VStr s => index_props (fun c => VStr [c]) 0 s
  | _ => []
  end.

(** [v.map(f)]: only an array has a callable [map]. *)
Definition call_map (f : jsval -> result jsval) (v : jsval) : result (list jsval) :=
  match v with
  | VArr elems => mapM f elems
  | _ => Throw TypeError
  end.

(** Whether [ToPrimitive] throws on a value read from JSON text.  No
    property of such a value is callable.  On an object the inherited
    [valueOf] returns the object itself and an own [valueOf] is skipped,
    so the conversion rests on [toString]: the inherited one returns a
    string, an own one is not callable and the conversion ends in a
    TypeError.  On an array the inherited [toString] joins the elements,
    converting each one that is not [null] to a string in the same way. *)
Fixpoint ToPrimitive_throws (v : jsval) : bool :=
  match v with
  | VObj props =>
      match lookup (js "toString") props with
      | Some _ => true
      | None => false
      end
  | VArr elems =>
      (fix any (l : list jsval) {struct l} : bool :=
         match l with
         | [] => false
         | x :: rest => ToPrimitive_throws x || any rest
         end) elems
  | _ => false
  end.

Section Store.

(** What the [Date] constructor makes of a string that is not in the
    complete ISO form, and of the string an array or an object is
    converted to: left to the implementation. *)
Variable legacy_date : jsval -> Date.

(** [new Date(value)], [None] being [undefined]: an array or an object
    goes through [ToPrimitive] first, which may throw. *)
Definition Date_new (value : option jsval) : result Date :=
  match value with
  | None => Ok None
  | Some VNull => Ok (DateTime.TimeClip 0)
  | Some (VBool b) => Ok (DateTime.TimeClip (if b then 1 else 0))
  | Some (VNum n) => Ok (DateTime.TimeClip n)
  | Some (VDate d) => Ok d
  | Some (VStr s) =>
      match DateTime.parse_iso s with
      | Some d => Ok d
      | None => Ok (legacy_date (VStr s))
      end
  | Some v => if ToPrimitive_throws v then Throw TypeError else Ok (legacy_date v)
  end.

(** [(msg: any) => ({ ...msg, timestamp: new Date(msg.timestamp) })]. *)
Definition revive_message (msg : jsval) : result jsval :=
  ts <- get_named "timestamp" msg ;;
  d <- Date_new ts ;;
  Ok (VObj (set_prop (js "timestamp") (VDate d) (spread msg))).

(** [(session: any) => ({ ...session, timestamp: new Date(session.timestamp),
    messages: session.messages?.map(...) || [] })]. *)
Definition revive_session (session : jsval) : result jsval :=
  ts <- get_named "timestamp" session ;;
  d <- Date_new ts ;;
  ms <- get_named "messages" session ;;
  ms' <- match ms with
         | None | Some VNull => Ok (VArr [])
         | Some m => l <- call_map revive_message m ;; Ok (VArr l)
         end ;;
  Ok (VObj (set_prop (js "messages") ms'
              (set_prop (js "timestamp") (VDate d) (spread session)))).

(** The [try] block of [loadChatSessions]: [Some l] when it runs into
    its [return], [None] when it falls out of the [if]. *)
Definition loadChatSessions_try (slot : Storage) : result (option (list jsval)) :=
  match slot with
  | Some saved =>
      if truthy_text saved then
        parsed <- JSON_parse saved ;;
        l <- call_map revive_session parsed ;;
        Ok (Some l)
      else Ok None
  | None => Ok None
  end.

(** [loadChatSessions]: the [catch] clause logs the error and goes on
    to the final [return []]. *)
Definition loadChatSessions (slot : Storage) : result (list jsval) :=
  returned <- try_catch (loadChatSessions_try slot) (fun _ => Ok None) ;;
  match returned with
  | Some l => Ok l
  | None => Ok []
  end.

End Store.

(** ** Component state *)

(** The state of [BIAssistant] (transcript, input, typing flag, active id,
    session list), the state of [ChatHistory] (title being edited), the
    durable slot and the number of response timers that are set and have
    not fired. *)
Record State : Type := mkState {
  messages : list Message.t;
  inputMessage : jsstring;
  isTyping : bool;
  currentSessionId : jsstring;
  chatSessions : list ChatSession.t;
  editingSessionId : option jsstring;
  editTitle : jsstring;
  localStorage : Storage;
  pendingResponses : nat
}.

Definition setMessages (v : list Message.t) (st : State) : State :=
  mkState v (inputMessage st) (isTyping st) (currentSessionId st) (chatSessions st)
          (editingSessionId st) (editTitle st) (localStorage st) (pendingResponses st).

Definition setInputMessage (v : jsstring) (st : State) : State :=
  mkState (messages st) v (isTyping st) (currentSessionId st) (chatSessions st)
          (editingSessionId st) (editTitle st) (localStorage st) (pendingResponses st).

Definition setIsTyping (v : bool) (st : State) : State :=
  mkState (messages st) (inputMessage st) v (currentSessionId st) (chatSessions st)
          (editingSessionId st) (editTitle st) (localStorage st) (pendingResponses st).

Definition setCurrentSessionId (v : jsstring) (st : State) : State :=
  mkState (messages st) (inputMessage st) (isTyping st) v (chatSessions st)
          (editingSessionId st) (editTitle st) (localStorage st) (pendingResponses st).

Definition setChatSessions (v : list ChatSession.t) (st : State) : State :=
  mkState (messages st) (inputMessage st) (isTyping st) (currentSessionId st) v
          (editingSessionId st) (editTitle st) (localStorage st) (pendingResponses st).

Definition setEditingSessionId (v : option jsstring) (st : State) : State :=
  mkState (messages st) (inputMessage st) (isTyping st) (currentSessionId st)
          (chatSessions st) v (editTitle st) (localStorage st) (pendingResponses st).

Definition setEditTitle (v : jsstring) (st : State) : State :=
  mkState (messages st) (inputMessage st) (isTyping st) (currentSessionId st)
          (chatSessions st) (editingSessionId st) v (localStorage st) (pendingResponses st).

Definition setLocalStorage (v : Storage) (st : State) : State :=
  mkState (messages st) (inputMessage st) (isTyping st) (currentSessionId st)
          (chatSessions st) (editingSessionId st) (editTitle st) v (pendingResponses st).

Definition setPendingResponses (v : nat) (st : State) : State :=
  mkState (messages st) (inputMessage st) (isTyping st) (currentSessionId st)
          (chatSessions st) (editingSessionId st) (editTitle st) (localStorage st) v.

(** [saveChatSessions(sessions)] as a step of the state. *)
Definition persist (sessions : list ChatSession.t) (st : State) : State :=
  setLocalStorage (saveChatSessions sessions (localStorage st)) st.

(** ** Session store: the active session *)

(** [{ ...session, messages, messageCount: messages.length }]. *)
Definition with_messages (ms : list Message.t) (session : ChatSession.t) : ChatSession.t :=
  ChatSession.mk (ChatSession.id session) (ChatSession.title session)
                 (ChatSession.timestamp session) (length_of ms) ms.

(** [{ ...session, title: newTitle }]. *)
Definition with_title (newTitle : jsstring) (session : ChatSession.t) : ChatSession.t :=
  ChatSession.mk (ChatSession.id session) newTitle
                 (ChatSession.timestamp session) (ChatSession.messageCount session)
                 (ChatSession.messages session).

Definition saveCurrentSession (st : State) : State :=
  if truthy_string (currentSessionId st) && (0 <? length_of (messages st)) then
    let updated :=
      List.map (fun session =>
                  if jsstring_eqb (ChatSession.id session) (currentSessionId st)
                  then with_messages (messages st) session
                  else session)
               (chatSessions st) in
    setChatSessions updated (persist updated st)
  else st.

(** ** Handlers of [BIAssistant] *)

Definition newChatGreeting : jsstring :=
  js "Hello! I'm your Business Intelligence assistant. What insights can I help you discover today?".

Definition handleNewChat (t_msg t_id t_session : Z) (st : State) : State :=
  let initialMessage :=
    Message.mk (js "1") bot newChatGreeting (Some t_msg) None None in
  let newSession :=
    ChatSession.mk (Number_toString t_id) (js "New BI Chat") (Some t_session) 1
                   [initialMessage] in
  let updated := newSession :: chatSessions st in
  setMessages [initialMessage]
    (setCurrentSessionId (ChatSession.id newSession)
       (setChatSessions updated (persist updated st))).

Definition handleSelectSession (sessionId : jsstring) (st : State) : State :=
  let st1 := setCurrentSessionId sessionId st in
  match List.find (fun s => jsstring_eqb (ChatSession.id s) sessionId) (chatSessions st) with
  | Some selectedSession => setMessages (ChatSession.messages selectedSession) st1
  | None => st1
  end.

Definition deleteGreeting : jsstring :=
  js "Hello! I'm your Business Intelligence assistant. What can I help you analyze?".

(** [prev.filter(s => s.id !== sessionId)]. *)
Definition without (sessionId : jsstring) (l : list ChatSession.t) : list ChatSession.t :=
  List.filter (fun s => negb (jsstring_eqb (ChatSession.id s) sessionId)) l.

(** The session [handleDeleteSession] makes when none is left. *)
Definition replacementSession (t_id t_session t_msg : Z) : ChatSession.t :=
  ChatSession.mk (Number_toString t_id) (js "BI Assistant Chat") (Some t_session) 1
    [Message.mk (js "1") bot deleteGreeting (Some t_msg) None None].

(** The updater runs on the current list.  With [updated] not empty the
    first branch is taken when the deleted id is the active one and no
    branch otherwise; with [updated] empty the second branch is taken. *)
Definition handleDeleteSession (t_id t_session t_msg : Z) (sessionId : jsstring)
    (st : State) : State :=
  let updated := without sessionId (chatSessions st) in
  let st1 := persist updated st in
  match updated with
  | first :: _ =>
      if jsstring_eqb (currentSessionId st) sessionId then
        setChatSessions updated
          (setMessages (ChatSession.messages first)
             (setCurrentSessionId (ChatSession.id first) st1))
      else setChatSessions updated st1
  | [] =>
      let newSession := replacementSession t_id t_session t_msg in
      setChatSessions [newSession]
        (persist [newSession]
           (setMessages (ChatSession.messages newSession)
              (setCurrentSessionId (ChatSession.id newSession) st1)))
  end.

Definition handleRenameSession (sessionId newTitle : jsstring) (st : State) : State :=
  let updated :=
    List.map (fun session =>
                if jsstring_eqb (ChatSession.id session) sessionId
                then with_title newTitle session
                else session)
             (chatSessions st) in
  setChatSessions updated (persist updated st).

(** ** The simulated response *)

Definition prop (k : string) (v : jsval) : jsstring * jsval := (js k, v).

Definition str (s : string) : jsval := VStr (js s).

Definition salesPoint (month : string) (sales profit : Z) : jsval :=
  VObj [ prop "month" (str month); prop "sales" (VNum sales);
         prop "profit" (VNum profit) ].

Definition chartResponseSpec : jsval :=
  VObj
    [ prop "$schema" (str "https://vega.github.io/schema/vega-lite/v5.json");
      prop "description" (str "Sales trends visualization");
      prop "data"
        (VObj [ prop "values"
                  (VArr [ salesPoint "Jan" 28000 12000;
                          salesPoint "Feb" 35000 15000;
                          salesPoint "Mar" 42000 18000;
                          salesPoint "Apr" 38000 16500;
                          salesPoint "May" 45000 20000;
                          salesPoint "Jun" 52000 23000 ]) ]);
      prop "mark"
        (VObj [ prop "type" (str "line"); prop "point" (VBool true);
                prop "tooltip" (VBool true) ]);
      prop "encoding"
        (VObj [ prop "x" (VObj [ prop "field" (str "month"); prop "type" (str "ordinal");
                                 prop "title" (str "Month") ]);
                prop "y" (VObj [ prop "field" (str "sales");
                                 prop "type" (str "quantitative");
                                 prop "title" (str "Sales ($)") ]);
                prop "color" (VObj [ prop "value" (str "hsl(var(--primary))") ]) ]);
      prop "width" (VNum 600);
      prop "height" (VNum 300) ].

Definition tableResponseData : jsval :=
  VObj
    [ prop "headers"
        (VArr [ str "Product"; str "Revenue"; str "Units Sold"; str "Growth" ]);
      prop "rows"
        (VArr [ VArr [ str "Product A"; str "$125,000"; str "2,450"; str "+15%" ];
                VArr [ str "Product B"; str "$98,000"; str "1,820"; str "+8%" ];
                VArr [ str "Product C"; str "$87,500"; str "1,650"; str "+22%" ];
                VArr [ str "Product D"; str "$76,200"; str "1,420"; str "+5%" ];
                VArr [ str "Product E"; str "$65,800"; str "1,230"; str "+18%" ] ]) ].

(** A line of the template literal, ended by a line feed. *)
Definition line (s : string) : jsstring := js s ++ [10%N].

(** A line that starts with the bullet U+2022. *)
Definition bullet (s : string) : jsstring := 8226%N :: line s.

Definition textResponseContent : jsstring :=
  line "Based on the analysis of your data:"
  ++ line ""
  ++ line "**Key Insights:**"
  ++ bullet " Revenue has grown by 18% compared to the previous quarter"
  ++ bullet " Customer acquisition costs decreased by 12%"
  ++ bullet " Product A shows the highest ROI at 35%"
  ++ bullet " Regional performance varies significantly, with the West region leading at 42% growth"
  ++ line ""
  ++ line "**Recommendations:**"
  ++ line "1. Increase marketing budget for Product A due to high ROI"
  ++ line "2. Focus on customer retention strategies in underperforming regions"
  ++ line "3. Optimize pricing strategy for Product C to improve margins"
  ++ line "4. Consider expanding distribution channels in the West region"
  ++ line ""
  ++ js "Would you like me to create a detailed visualization or drill down into any specific metric?".

(** The message the timer callback builds.  [responseType] is the value of
    [Math.floor(Math.random() * 3)], [t_id] the reading of [Date.now()] and
    [t_msg] the one of [new Date()]. *)
Definition botResponse (responseType t_id t_msg : Z) : Message.t :=
  if responseType =? 0 then
    Message.mk (Number_toString (t_id + 1)) bot
      (js "Here's a visualization of the sales trends over the last quarter:")
      (Some t_msg) (Some chartResponseSpec) None
  else if responseType =? 1 then
    Message.mk (Number_toString (t_id + 1)) bot
      (js "Here's a breakdown of the top performing products:")
      (Some t_msg) None (Some tableResponseData)
  else
    Message.mk (Number_toString (t_id + 1)) bot textResponseContent
      (Some t_msg) None None.

(** The callback given to [setTimeout(..., 2000)]. *)
Definition responseCallback (responseType t_id t_msg : Z) (st : State) : State :=
  setPendingResponses (Nat.pred (pendingResponses st))
    (setIsTyping false
       (setMessages (messages st ++ [botResponse responseType t_id t_msg]) st)).

Definition handleSendMessage (t_id t_msg : Z) (st : State) : State :=
  if negb (truthy_string (trim (inputMessage st))) then st
  else
    let userMessage :=
      Message.mk (Number_toString t_id) user (trim (inputMessage st)) (Some t_msg)
                 None None in
    setPendingResponses (S (pendingResponses st))
      (setIsTyping true
         (setInputMessage []
            (setMessages (messages st ++ [userMessage]) st))).

Definition handleKeyPress (key : jsstring) (shiftKey : bool) (t_id t_msg : Z)
    (st : State) : State :=
  if jsstring_eqb key (js "Enter") && negb shiftKey
  then handleSendMessage t_id t_msg st
  else st.

(** ** Handlers of [ChatHistory] *)

Definition handleStartEdit (session : ChatSession.t) (st : State) : State :=
  setEditTitle (ChatSession.title session)
    (setEditingSessionId (Some (ChatSession.id session)) st).

(** [onRenameSession] is [handleRenameSession]. *)
Definition handleSaveEdit (sessionId : jsstring) (st : State) : State :=
  let st1 :=
    if truthy_string (trim (editTitle st))
    then handleRenameSession sessionId (trim (editTitle st)) st
    else st in
  setEditingSessionId None st1.

Definition handleCancelEdit (st : State) : State := setEditingSessionId None st.

(** The rename operation as the user performs it: the title typed into the
    edit field, then saved with the check button or the Enter key. *)
Definition renameSession (sessionId newTitle : jsstring) (st : State) : State :=
  handleSaveEdit sessionId (setEditTitle newTitle st).

(** ** Rendering and effects *)

Definition Date_eqb (a b : Date) : bool :=
  match a, b with
  | Some x, Some y => x =? y
  | None, None => true
  | _, _ => false
  end.

Fixpoint jsval_eqb (a b : jsval) {struct a} : bool :=
  match a, b with
  | VNull, VNull => true
  | VBool x, VBool y => Bool.eqb x y
  | VNum x, VNum y => x =? y
  | VStr x, VStr y => jsstring_eqb x y
  | VDate x, VDate y => Date_eqb x y
  | VArr xs, VArr ys =>
      (fix all2 (l1 l2 : list jsval) {struct l1} : bool :=
         match l1, l2 with
         | [], [] => true
         | u :: l1', v :: l2' => jsval_eqb u v && all2 l1' l2'
         | _, _ => false
         end) xs ys
  | VObj xs, VObj ys =>
      (fix all2 (l1 l2 : list (jsstring * jsval)) {struct l1} : bool :=
         match l1, l2 with
         | [], [] => true
         | (k, u) :: l1', (k', v) :: l2' =>
             jsstring_eqb k k' && jsval_eqb u v && all2 l1' l2'
         | _, _ => false
         end) xs ys
  | _, _ => false
  end.

Definition option_eqb {A : Type} (eqb : A -> A -> bool) (a b : option A) : bool :=
  match a, b with
  | Some x, Some y => eqb x y
  | None, None => true
  | _, _ => false
  end.

Definition MessageType_eqb (a b : MessageType) : bool :=
  match a, b with
  | user, user | bot, bot => true
  | _, _ => false
  end.

Definition Message_eqb (a b : Message.t) : bool :=
  jsstring_eqb (Message.id a) (Message.id b)
  && MessageType_eqb (Message.type a) (Message.type b)
  && jsstring_eqb (Message.content a) (Message.content b)
  && Date_eqb (Message.timestamp a) (Message.timestamp b)
  && option_eqb jsval_eqb (Message.chartSpec a) (Message.chartSpec b)
  && option_eqb jsval_eqb (Message.tableData a) (Message.tableData b).

Fixpoint list_eqb {A : Type} (eqb : A -> A -> bool) (l1 l2 : list A) : bool :=
  match l1, l2 with
  | [], [] => true
  | x :: l1', y :: l2' => eqb x y && list_eqb eqb l1' l2'
  | _, _ => false
  end.

(** Whether a dependency of [useEffect(..., [messages, currentSessionId])]
    differs between two renders.  React compares with [Object.is]; the
    transcript is compared by its content here, so storing an equal
    transcript under the same active id counts as no change. *)
Definition deps_changed (prev st : State) : bool :=
  negb (list_eqb Message_eqb (messages prev) (messages st))
  || negb (jsstring_eqb (currentSessionId prev) (currentSessionId st)).

(** The effect that keeps the active session in step with the transcript. *)
Definition saveEffect (st : State) : State :=
  if truthy_string (currentSessionId st) && (0 <? length_of (messages st))
  then saveCurrentSession st
  else st.

(** The render that follows a handler, with the effects it triggers;
    [prev] is the state of the render before. *)
Definition afterRender (prev st : State) : State :=
  if deps_changed prev st then saveEffect st else st.

(** The list of sessions after a render: as the handler left it, or with
    the transcript written into the sessions that carry the active id. *)
Definition synced (st : State) : list ChatSession.t :=
  List.map (fun session =>
              if jsstring_eqb (ChatSession.id session) (currentSessionId st)
              then with_messages (messages st) session
              else session)
           (chatSessions st).

(** ** Mounting *)

Definition initialGreeting : jsstring :=
  js "Hello! I'm your Business Intelligence assistant. I can help you visualize data, analyze trends, and generate insights. Ask me anything about your data!".

(** The [useState] defaults, over a given content of the slot. *)
Definition initialState (slot : Storage) : State :=
  mkState [] [] false [] [] None [] slot 0.

Section Mount.

Variable legacy_date : jsval -> Date.

(** The effect [useEffect(..., [])].  The loaded list is used at the
    type [ChatSession[]]; [None] when the stored objects do not have that
    shape, a case on which this model is silent. *)
Definition mountEffect (t_session t_msg : Z) (st : State) : option State :=
  match loadChatSessions legacy_date (localStorage st) with
  | Throw _ => None
  | Ok savedSessions =>
      if 0 <? length_of savedSessions then
        match asChatSessions savedSessions with
        | Some (first :: rest) =>
            Some (setMessages (ChatSession.messages first)
                    (setCurrentSessionId (ChatSession.id first)
                       (setChatSessions (first :: rest) st)))
        | _ => None
        end
      else
        let initialSession :=
          ChatSession.mk (js "1") (js "BI Assistant Chat") (Some t_session) 1
            [Message.mk (js "1") bot initialGreeting (Some t_msg) None None] in
        Some (persist [initialSession]
                (setMessages (ChatSession.messages initialSession)
                   (setCurrentSessionId (ChatSession.id initialSession)
                      (setChatSessions [initialSession] st))))
  end.

(** The page load: first render, mount effect, second render. *)
Definition mount (t_session t_msg : Z) (slot : Storage) : option State :=
  match mountEffect t_session t_msg (initialState slot) with
  | Some st => Some (afterRender (initialState slot) st)
  | None => None
  end.

End Mount.

(** ** User interface events *)

(** What can happen to the mounted page: a click or a key press on a
    control that the page renders, and the response timer going off.
    Session rows are numbered from the top of the list. *)
Inductive event : Type :=
| NewChatClick (t_msg t_id t_session : Z)
| SessionRowClick (row : nat)
| EditButtonClick (row : nat)
| DeleteButtonClick (row : nat) (t_id t_session t_msg : Z)
| EditTitleChange (text : jsstring)
| EditTitleKeyDown (key : jsstring)
| EditSaveClick
| EditCancelClick
| InputChange (text : jsstring)
| InputKeyDown (key : jsstring) (shiftKey : bool) (t_id t_msg : Z)
| SendClick (t_id t_msg : Z)
| ResponseTimer (responseType t_id t_msg : Z).

(** [!editingSessionId]. *)
Definition not_editing (st : State) : bool :=
  match editingSessionId st with
  | Some s => negb (truthy_string s)
  | None => true
  end.

(** [editingSessionId === session.id]. *)
Definition is_editing (session : ChatSession.t) (st : State) : bool :=
  match editingSessionId st with
  | Some s => jsstring_eqb s (ChatSession.id session)
  | None => false
  end.

(** The id of the row whose title field is shown, when there is such a row. *)
Definition edited_row_id (st : State) : option jsstring :=
  match editingSessionId st with
  | Some s =>
      if List.existsb (fun session => jsstring_eqb s (ChatSession.id session))
                      (chatSessions st)
      then Some s else None
  | None => None
  end.

(** [disabled={isTyping}] of the text area. *)
Definition textarea_disabled (st : State) : bool := isTyping st.

(** [disabled={!inputMessage.trim() || isTyping}] of the send button. *)
Definition send_disabled (st : State) : bool :=
  negb (truthy_string (trim (inputMessage st))) || isTyping st.

(** The handler an event runs; a control that is disabled or not rendered
    runs nothing. *)
Definition handle (ev : event) (st : State) : State :=
  match ev with
  | NewChatClick t_msg t_id t_session => handleNewChat t_msg t_id t_session st
  | SessionRowClick row =>
      match List.nth_error (chatSessions st) row with
      | Some session =>
          if not_editing st then handleSelectSession (ChatSession.id session) st else st
      | None => st
      end
  | EditButtonClick row =>
      match List.nth_error (chatSessions st) row with
      | Some session =>
          if is_editing session st then st else handleStartEdit session st
      | None => st
      end
  | DeleteButtonClick row t_id t_session t_msg =>
      match List.nth_error (chatSessions st) row with
      | Some session =>
          if is_editing session st then st
          else handleDeleteSession t_id t_session t_msg (ChatSession.id session) st
      | None => st
      end
  | EditTitleChange text =>
      match edited_row_id st with
      | Some _ => setEditTitle text st
      | None => st
      end
  | EditTitleKeyDown key =>
      match edited_row_id st with
      | Some sessionId =>
          let st1 :=
            if jsstring_eqb key (js "Enter") then handleSaveEdit sessionId st else st in
          if jsstring_eqb key (js "Escape") then setEditingSessionId None st1 else st1
      | None => st
      end
  | EditSaveClick =>
      match edited_row_id st with
      | Some sessionId => handleSaveEdit sessionId st
      | None => st
      end
  | EditCancelClick =>
      match edited_row_id st with
      | Some _ => handleCancelEdit st
      | None => st
      end
  | InputChange text =>
      if textarea_disabled st then st else setInputMessage text st
  | InputKeyDown key shiftKey t_id t_msg =>
      if textarea_disabled st then st else handleKeyPress key shiftKey t_id t_msg st
  | SendClick t_id t_msg =>
      if send_disabled st then st else handleSendMessage t_id t_msg st
  | ResponseTimer responseType t_id t_msg =>
      match pendingResponses st with
      | O => st
      | S _ => responseCallback responseType t_id t_msg st
      end
  end.

(** An event, then the render it causes. *)
Definition step (ev : event) (st : State) : State :=
  afterRender st (handle ev st).

(** ** Well-formed data *)

Definition valid_time (t : Z) : bool := Z.abs t <=? DateTime.maxTime.

Definition valid_Date (d : Date) : bool :=
  match d with
  | Some t => valid_time t
  | None => false
  end.

(** A value that JSON represents as it is: no Date inside. *)
Fixpoint json_clean (v : jsval) : bool :=
  match v with
  | VDate _ => false
  | VArr elems =>
      (fix all (l : list jsval) : bool :=
         match l with
         | [] => true
         | x :: rest => json_clean x && all rest
         end) elems
  | VObj props =>
      (fix all (l : list (jsstring * jsval)) : bool :=
         match l with
         | [] => true
         | (_, x) :: rest => json_clean x && all rest
         end) props
  | _ => true
  end.

Definition clean_payload (p : option jsval) : bool :=
  match p with
  | Some v => json_clean v
  | None => true
  end.

(** A message as the interface declares it: a valid Date as its timestamp,
    JSON data as its optional payloads. *)
Definition valid_message (m : Message.t) : bool :=
  valid_Date (Message.timestamp m)
  && clean_payload (Message.chartSpec m)
  && clean_payload (Message.tableData m).

Definition valid_session (s : ChatSession.t) : bool :=
  valid_Date (ChatSession.timestamp s)
  && List.forallb valid_message (ChatSession.messages s).

Definition valid_sessions (l : list ChatSession.t) : bool :=
  List.forallb valid_session l.

(** [messageCount] agrees with the transcript. *)
Definition count_ok (s : ChatSession.t) : Prop :=
  ChatSession.messageCount s = length_of (ChatSession.messages s).

(** The clock readings an event carries are time values, and the drawn
    response type is 0, 1 or 2. *)
Definition event_ok (ev : event) : Prop :=
  match ev with
  | NewChatClick t_msg t_id t_session =>
      valid_time t_msg = true /\ valid_time t_id = true /\ valid_time t_session = true
  | DeleteButtonClick _ t_id t_session t_msg =>
      valid_time t_id = true /\ valid_time t_session = true /\ valid_time t_msg = true
  | InputKeyDown _ _ t_id t_msg | SendClick t_id t_msg =>
      valid_time t_id = true /\ valid_time t_msg = true
  | ResponseTimer responseType t_id t_msg =>
      0 <= responseType < 3 /\ valid_time t_id = true /\ valid_time t_msg = true
  | _ => True
  end.

Section Reachable.

Variable legacy_date : jsval -> Date.

(** The states of the page: a first visit with an empty slot, any event,
    and a reload of the page from what the slot holds.  The saving effect
    may run once more in any state, which covers the renders where React
    sees a new array that [deps_changed] takes as unchanged. *)
Inductive reachable : State -> Prop :=
| reach_first_visit (t_session t_msg : Z) (st : State) :
    valid_time t_session = true -> valid_time t_msg = true ->
    mount legacy_date t_session t_msg None = Some st ->
    reachable st
| reach_step (ev : event) (st : State) :
    reachable st -> event_ok ev -> reachable (step ev st)
| reach_effect (st : State) :
    reachable st -> reachable (saveEffect st)
| reach_reload (t_session t_msg : Z) (st st' : State) :
    reachable st ->
    valid_time t_session = true -> valid_time t_msg = true ->
    mount legacy_date t_session t_msg (localStorage st) = Some st' ->
    reachable st'.

End Reachable.

(** ** Operations *)

(** The operations of the controller: a handler and the render after it. *)
Definition newChat (t_msg t_id t_session : Z) (st : State) : State :=
  afterRender st (handleNewChat t_msg t_id t_session st).

Definition selectSession (sessionId : jsstring) (st : State) : State :=
  afterRender st (handleSelectSession sessionId st).

Definition deleteSession (t_id t_session t_msg : Z) (sessionId : jsstring)
    (st : State) : State :=
  afterRender st (handleDeleteSession t_id t_session t_msg sessionId st).

Definition sendMessage (t_id t_msg : Z) (st : State) : State :=
  afterRender st (handleSendMessage t_id t_msg st).

Definition receiveResponse (responseType t_id t_msg : Z) (st : State) : State :=
  afterRender st (responseCallback responseType t_id t_msg st).

(** The shape of a message: text alone, a chart, a table. *)
Definition content_only (m : Message.t) : bool :=
  match Message.chartSpec m, Message.tableData m with
  | None, None => true
  | _, _ => false
  end.

Definition has_chart (m : Message.t) : bool :=
  match Message.chartSpec m with Some _ => true | None => false end.

Definition has_table (m : Message.t) : bool :=
  match Message.tableData m with Some _ => true | None => false end.

Definition count_true (l : list bool) : nat :=
  List.length (List.filter (fun b => b) l).

(** Whether the slot holds the JSON text of an array. *)
Definition holds_array (slot : Storage) : bool :=
  match slot with
  | Some (JsonOf (VArr _)) => true
  | _ => false
  end.

(** The stored messages that cannot be revived: [null], whose [timestamp]
    cannot be read, and an object whose [timestamp] the Date constructor
    cannot convert. *)
Definition unrevivable_message (msg : jsval) : bool :=
  match msg with
  | VNull => true
  | VObj props =>
      match lookup (js "timestamp") props with
      | Some ts => ToPrimitive_throws ts
      | None => false
      end
  | _ => false
  end.

(** The stored sessions that cannot be revived: [null]; an object whose
    [timestamp] the Date constructor cannot convert; an object whose
    [messages] is there and is neither [null] nor an array, or is an array
    with a message that cannot be revived. *)
Definition unrevivable_session (session : jsval) : bool :=
  match session with
  | VNull => true
  | VObj props =>
      match lookup (js "timestamp") props with
      | Some ts => ToPrimitive_throws ts
      | None => false
      end
      || match lookup (js "messages") props with
         | None | Some VNull => false
         | Some (VArr msgs) => List.existsb unrevivable_message msgs
         | Some _ => true
         end
  | _ => false
  end.

(** ** Sample runs *)

Module Sample.

Definition legacy_date : jsval -> Date := fun _ => None.

(** First visit on 2024-11-01. *)
Definition visited : State :=
  Eval vm_compute in
    match mount legacy_date 1730500000000 1730500000001 None with
    | Some st => st
    | None => initialState None
    end.

Definition typed : State :=
  Eval vm_compute in step (InputChange (js " show me sales ")) visited.

Definition sent : State :=
  Eval vm_compute in step (SendClick 1730500000100 1730500000101) typed.

Definition answered : State :=
  Eval vm_compute in step (ResponseTimer 1 1730500002100 1730500002101) sent.

(** Two sessions, the new one active. *)
Definition two_sessions : State :=
  Eval vm_compute in
    step (NewChatClick 1730500003000 1730500003001 1730500003002) answered.

(** A request in flight with text in the input field: a state that no
    sequence of events leads to. *)
Definition typing_with_text : State :=
  Eval vm_compute in setInputMessage (js "again") sent.

End Sample.

(** ** The invariant of the page *)

(** What holds of every state the page goes through: the sessions and the
    transcript are well formed, every [messageCount] agrees with its
    transcript, the input field is empty while a response is awaited, and
    the slot holds the JSON text of the session list. *)
Record invariant (st : State) : Prop := mkInvariant {
  inv_sessions : valid_sessions (chatSessions st) = true;
  inv_messages : List.forallb valid_message (messages st) = true;
  inv_count : Forall count_ok (chatSessions st);
  inv_input : isTyping st = true -> inputMessage st = [];
  inv_slot :
    localStorage st = Some (JsonOf (VArr (List.map ChatSession_json (chatSessions st))))
}.

(** ** Further state of the page *)

(** No white space at either end of a string. *)
Definition no_space_at_ends (s : jsstring) : Prop :=
  (forall c r, s = c :: r -> is_white_space c = false)
  /\ (forall c r, rev s = c :: r -> is_white_space c = false).

(** The payloads the page itself gives to a message: none for what the
    user typed, and for a response none, the chart or the table. *)
Definition own_payloads (m : Message.t) : Prop :=
  (Message.chartSpec m = None /\ Message.tableData m = None)
  \/ (Message.type m = bot
      /\ Message.chartSpec m = Some chartResponseSpec /\ Message.tableData m = None)
  \/ (Message.type m = bot
      /\ Message.chartSpec m = None /\ Message.tableData m = Some tableResponseData).

(** What holds of a state before the render that follows a handler;
    [prev] is the state the handler started from. *)
Record settled_but_for_render (prev st : State) : Prop := mkSettledButForRender {
  pre_ids : forall s, In s (chatSessions st) -> ChatSession.id s <> [];
  pre_titles :
    forall s, In s (chatSessions st) ->
      ChatSession.title s <> [] /\ no_space_at_ends (ChatSession.title s);
  pre_transcripts : forall s, In s (chatSessions st) -> ChatSession.messages s <> [];
  pre_transcript : messages st <> [];
  pre_active : exists s, In s (chatSessions st) /\ ChatSession.id s = currentSessionId st;
  pre_same_id :
    forall s1 s2, In s1 (chatSessions st) -> In s2 (chatSessions st) ->
      ChatSession.id s1 = ChatSession.id s2 ->
      ChatSession.id s1 <> currentSessionId st ->
      ChatSession.messages s1 = ChatSession.messages s2;
  pre_sync :
    messages st = messages prev -> currentSessionId st = currentSessionId prev ->
    forall s, In s (chatSessions st) -> ChatSession.id s = currentSessionId st ->
      ChatSession.messages s = messages st;
  pre_pending : pendingResponses st = if isTyping st then 1%nat else 0%nat;
  pre_payloads : forall m, In m (messages st) -> own_payloads m;
  pre_stored_payloads :
    forall s m, In s (chatSessions st) -> In m (ChatSession.messages s) -> own_payloads m
}.

(** What holds of every state the page goes through, besides [invariant]:
    every session has an id, a trimmed title and a greeting at least; the
    active id names a session of the list; the sessions of one id, and the
    sessions of the active id and the screen, hold the same transcript; at
    most one response is awaited; every payload is one the page made. *)
Record settled (st : State) : Prop := mkSettled {
  set_ids : forall s, In s (chatSessions st) -> ChatSession.id s <> [];
  set_titles :
    forall s, In s (chatSessions st) ->
      ChatSession.title s <> [] /\ no_space_at_ends (ChatSession.title s);
  set_transcripts : forall s, In s (chatSessions st) -> ChatSession.messages s <> [];
  set_transcript : messages st <> [];
  set_active : exists s, In s (chatSessions st) /\ ChatSession.id s = currentSessionId st;
  set_same_id :
    forall s1 s2, In s1 (chatSessions st) -> In s2 (chatSessions st) ->
      ChatSession.id s1 = ChatSession.id s2 ->
      ChatSession.messages s1 = ChatSession.messages s2;
  set_sync :
    forall s, In s (chatSessions st) -> ChatSession.id s = currentSessionId st ->
      ChatSession.messages s = messages st;
  set_pending : pendingResponses st = if isTyping st then 1%nat else 0%nat;
  set_payloads : forall m, In m (messages st) -> own_payloads m;
  set_stored_payloads :
    forall s m, In s (chatSessions st) -> In m (ChatSession.messages s) -> own_payloads m
}.

(** ** Rendering a message *)

(** The children of the element [renderMessageContent] returns: the text,
    the chart card, the table card, and a falsy payload that [&&] leaves
    in the place of a card. *)
Inductive node : Type :=
| TextNode (content : jsstring)
| ChartNode (spec : jsval)
| TableNode (headers : list jsval) (rows : list (list jsval))
| ValueNode (v : jsval).

(** Truthiness of a value. *)
Definition truthy_value (v : jsval) : bool :=
  match v with
  | VNull => false
  | VBool b => b
  | VNum n => negb (n =? 0)
  | VStr s => truthy_string s
  | _ => true
  end.

(** The elements of [v] for [v.map(...)]: a TypeError unless [v] is an
    array. *)
Definition elements_of (v : option jsval) : result (list jsval) :=
  match v with
  | Some (VArr elems) => Ok elems
  | _ => Throw TypeError
  end.

(** The table card: [tableData.headers.map(...)], then
    [tableData.rows.map(row => row.map(...))]. *)
Definition renderTable (tableData : jsval) : result node :=
  headers <- get_named "headers" tableData ;;
  ths <- elements_of headers ;;
  rows <- get_named "rows" tableData ;;
  trs <- elements_of rows ;;
  tds <- mapM (fun row => elements_of (Some row)) trs ;;
  Ok (TableNode ths tds).

Definition renderMessageContent (message : Message.t) : result (list node) :=
  let chart :=
    match Message.chartSpec message with
    | Some spec => if truthy_value spec then [ChartNode spec] else [ValueNode spec]
    | None => []
    end in
  table <- match Message.tableData message with
           | Some data =>
               if truthy_value data then t <- renderTable data ;; Ok [t]
               else Ok [ValueNode data]
           | None => Ok []
           end ;;
  Ok (TextNode (Message.content message) :: chart ++ table).

(** The cells of the table of the canned response. *)
Definition tableResponseHeaders : list jsval :=
  [ str "Product"; str "Revenue"; str "Units Sold"; str "Growth" ].

Definition tableResponseRows : list (list jsval) :=
  [ [ str "Product A"; str "$125,000"; str "2,450"; str "+15%" ];
    [ str "Product B"; str "$98,000"; str "1,820"; str "+8%" ];
    [ str "Product C"; str "$87,500"; str "1,650"; str "+22%" ];
    [ str "Product D"; str "$76,200"; str "1,420"; str "+5%" ];
    [ str "Product E"; str "$65,800"; str "1,230"; str "+18%" ] ].

(** ** The data source of the page *)

Module Datasources.

(** An entry of [datasourcesConfig.datasources]. *)
Record Attribute : Type := mkAttribute {
  attr_name : jsstring;
  attr_type : jsstring;
  attr_description : jsstring
}.

Record Datasource : Type := mkDatasource {
  id : jsstring;
  name : jsstring;
  definition : jsstring;
  luid : jsstring;
  attributes : list Attribute
}.

Section Config.

(** The list of the configuration file [@/config/datasources.json]. *)
Variable datasources : list Datasource.

(** [useState(datasourcesConfig.datasources[0].id)]: a TypeError when the
    list is empty. *)
Definition initialSelection : result jsstring :=
  match datasources with
  | first :: _ => Ok (id first)
  | [] => Throw TypeError
  end.

(** [datasources.find(ds => ds.id === selectedDatasource) || datasources[0]];
    [None] is [undefined]. *)
Definition currentDatasource (selectedDatasource : jsstring) : option Datasource :=
  match List.find (fun ds => jsstring_eqb (id ds) selectedDatasource) datasources with
  | Some ds => Some ds
  | None => List.hd_error datasources
  end.

(** The selections the page goes through: the initial one, then the
    values of the items of the select, one per data source. *)
Inductive selection : jsstring -> Prop :=
| selection_initial (v : jsstring) : initialSelection = Ok v -> selection v
| selection_change (v : jsstring) (ds : Datasource) :
    selection v -> In ds datasources -> selection (id ds).

End Config.

End Datasources.

(** ** The header *)

Module Header.

(** An entry of a dropdown. *)
Record SubItem : Type := mkSubItem {
  item_name : jsstring;
  item_link : jsstring;
  item_description : option jsstring
}.

Record MenuItem : Type := mkMenuItem {
  name : jsstring;
  link : option jsstring;
  items : option (list SubItem)
}.

Definition menuItems : list MenuItem :=
  [ mkMenuItem (js "RAG System") None
      (Some [ mkSubItem (js "RAG Upload") (js "/rag-upload")
                (Some (js "Upload PDF documents for indexing"));
              mkSubItem (js "RAG Configuration") (js "/rag-configuration")
                (Some (js "Configure indexing and search settings"));
              mkSubItem (js "RAG Search") (js "/rag-search")
                (Some (js "Search through indexed documents")) ]);
    mkMenuItem (js "Knowledge Discovery") (Some (js "/knowledge-discovery")) None;
    mkMenuItem (js "BI Assistant") (Some (js "/bi-assistant")) None;
    mkMenuItem (js "Company") None
      (Some [ mkSubItem (js "About") (js "#") None;
              mkSubItem (js "Contact") (js "#") None ]) ].

Record HeaderState : Type := mkHeaderState {
  isMenuOpen : bool;
  activeDropdown : option jsstring
}.

Definition initialHeader : HeaderState := mkHeaderState false None.

(** [activeDropdown === name]. *)
Definition is_active (name : jsstring) (st : HeaderState) : bool :=
  match activeDropdown st with
  | Some a => jsstring_eqb a name
  | None => false
  end.

Definition toggleDropdown (name : jsstring) (st : HeaderState) : HeaderState :=
  mkHeaderState (isMenuOpen st) (if is_active name st then None else Some name).

(** [setIsMenuOpen(!isMenuOpen)]. *)
Definition toggleMenu (st : HeaderState) : HeaderState :=
  mkHeaderState (negb (isMenuOpen st)) (activeDropdown st).

(** The dropdown panels a navigation shows: one for each menu that has
    items and whose name is the active one. *)
Definition panels (st : HeaderState) : list MenuItem :=
  List.filter (fun menu =>
                 match items menu with
                 | Some _ => is_active (name menu) st
                 | None => false
                 end)
              menuItems.

(** The states of the header: a click on the button of a menu that has
    items, in the desktop navigation or, when the mobile menu is open, in
    the mobile one; a click on the mobile menu button. *)
Inductive reachable : HeaderState -> Prop :=
| reach_initial : reachable initialHeader
| reach_dropdown (menu : MenuItem) (st : HeaderState) :
    reachable st -> In menu menuItems -> items menu <> None ->
    reachable (toggleDropdown (name menu) st)
| reach_menu (st : HeaderState) : reachable st -> reachable (toggleMenu st).

End Header.

(** The session the mount effect makes when nothing is loaded. *)
Definition initialSession (t_session t_msg : Z) : ChatSession.t :=
  ChatSession.mk (js "1") (js "BI Assistant Chat") (Some t_session) 1
    [Message.mk (js "1") bot initialGreeting (Some t_msg) None None].

(** The state the mount effect leaves when nothing is loaded. *)
Definition startedState (t_session t_msg : Z) (slot : Storage) : State :=
  persist [initialSession t_session t_msg]
    (setMessages (ChatSession.messages (initialSession t_session t_msg))
       (setCurrentSessionId (ChatSession.id (initialSession t_session t_msg))
          (setChatSessions [initialSession t_session t_msg] (initialState slot)))).

(** The state the mount effect leaves when [first :: rest] is loaded. *)
Definition loadedState (first : ChatSession.t) (rest : list ChatSession.t)
    (slot : Storage) : State :=
  setMessages (ChatSession.messages first)
    (setCurrentSessionId (ChatSession.id first)
       (setChatSessions (first :: rest) (initialState slot))).

(** ** More of the sample run *)

Module SampleMore.

(** The session of the first visit, with the exchange in it. *)
Definition oldest : ChatSession.t :=
  Eval vm_compute in
    List.last (chatSessions Sample.two_sessions) (replacementSession 0 0 0).

(** The session of the new chat. *)
Definition newest : ChatSession.t :=
  Eval vm_compute in
    List.hd (replacementSession 0 0 0) (chatSessions Sample.two_sessions).

(** The response with the chart. *)
Definition answer : Message.t :=
  Eval vm_compute in
    List.last (messages Sample.answered) (botResponse 0 0 0).

(** A question put in the new chat, the response awaited. *)
Definition asked : State :=
  Eval vm_compute in
    step (SendClick 1730500004100 1730500004101)
      (step (InputChange (js "and the margins?")) Sample.two_sessions).

(** New Chat clicked twice within one millisecond, then a question put in
    the chat on the screen: two sessions carry the same id. *)
Definition twins : State :=
  Eval vm_compute in
    step (SendClick 1730500005100 1730500005101)
      (step (InputChange (js "sales by region"))
         (step (NewChatClick 1730500005000 1730500005000 1730500005001)
            (step (NewChatClick 1730500005000 1730500005000 1730500005000)
               Sample.answered))).

Definition twin_new : ChatSession.t :=
  Eval vm_compute in List.nth 0 (chatSessions twins) (replacementSession 0 0 0).

Definition twin_old : ChatSession.t :=
  Eval vm_compute in List.nth 1 (chatSessions twins) (replacementSession 0 0 0).

(** What a reload reads from the slot. *)
Definition loaded : list jsval :=
  Eval vm_compute in
    match loadChatSessions Sample.legacy_date (localStorage Sample.two_sessions) with
    | Ok l => l
    | Throw _ => []
    end.

(** A configuration of two data sources. *)
Definition datasources : list Datasources.Datasource :=
  [ Datasources.mkDatasource (js "sales") (js "Sales") (js "Orders by region")
      (js "luid-1")
      [Datasources.mkAttribute (js "Region") (js "string") (js "Sales region")];
    Datasources.mkDatasource (js "hr") (js "People") (js "Headcount by team")
      (js "luid-2") [] ].

(** The last menu of the header. *)
Definition company : Header.MenuItem :=
  Eval vm_compute in
    List.last Header.menuItems (Header.mkMenuItem [] None None).

End SampleMore.

(** * Properties *)

(** ** Strings *)

Lemma jsstring_eqb_eq (a b : jsstring) : jsstring_eqb a b = true <-> a = b.
Proof.
  revert b. induction a as [|x a IH]; intros [|y b]; simpl; split; intro H;
    try reflexivity; try discriminate.
  - apply andb_true_iff in H as [Hx Hr]. apply N.eqb_eq in Hx.
    apply IH in Hr. now subst.
  - injection H as -> ->. rewrite N.eqb_refl. simpl. now apply IH.
Qed.

Lemma jsstring_eqb_refl (a : jsstring) : jsstring_eqb a a = true.
Proof. now apply jsstring_eqb_eq. Qed.

Lemma jsstring_eqb_neq (a b : jsstring) : jsstring_eqb a b = false <-> a <> b.
Proof.
  destruct (jsstring_eqb a b) eqn:E; split; intro H; try discriminate; try reflexivity.
  - apply jsstring_eqb_eq in E. contradiction.
  - intro Hab. apply jsstring_eqb_eq in Hab. congruence.
Qed.

Lemma truthy_string_false (s : jsstring) : truthy_string s = false <-> s = [].
Proof. destruct s; simpl; split; congruence. Qed.

Lemma truthy_string_true (s : jsstring) : truthy_string s = true <-> s <> [].
Proof. destruct s; simpl; split; congruence. Qed.

Lemma trimStart_empty (s : jsstring) :
  trimStart s = [] <-> List.forallb is_white_space s = true.
Proof.
  induction s as [|c s IH]; simpl.
  - tauto.
  - destruct (is_white_space c); simpl.
    + exact IH.
    + split; discriminate.
Qed.

Lemma trimStart_white (s : jsstring) :
  List.forallb is_white_space (trimStart s) = List.forallb is_white_space s.
Proof.
  induction s as [|c s IH]; simpl; [reflexivity|].
  destruct (is_white_space c) eqn:E; simpl; [exact IH|].
  now rewrite E.
Qed.

(** The trimmed form is empty exactly for the empty string and the strings
    of white space. *)
Lemma trim_empty (s : jsstring) :
  trim s = [] <-> List.forallb is_white_space s = true.
Proof.
  unfold trim, trimEnd. split; intro H.
  - assert (Hr : trimStart (rev (trimStart s)) = []).
    { rewrite <- (rev_involutive (trimStart (rev (trimStart s)))), H. reflexivity. }
    apply trimStart_empty in Hr.
    rewrite forallb_forall in Hr.
    rewrite <- trimStart_white. apply forallb_forall.
    intros x Hx. apply Hr. now apply in_rev in Hx.
  - apply trimStart_empty in H. rewrite H. reflexivity.
Qed.

(** ** Equality tests *)

Section jsval_induction.

Variable P : jsval -> Prop.
Hypothesis HNull : P VNull.
Hypothesis HBool : forall b, P (VBool b).
Hypothesis HNum : forall n, P (VNum n).
Hypothesis HStr : forall s, P (VStr s).
Hypothesis HDate : forall d, P (VDate d).
Hypothesis HArr : forall elems, Forall P elems -> P (VArr elems).
Hypothesis HObj : forall props, Forall (fun kv => P (snd kv)) props -> P (VObj props).

Lemma jsval_ind : forall v : jsval, P v.
Proof.
  exact
    (fix rec (v : jsval) : P v :=
       match v with
       | VNull => HNull
       | VBool b => HBool b
       | VNum n => HNum n
       | VStr s => HStr s
       | VDate d => HDate d
       | VArr elems =>
           HArr elems
             ((fix all (l : list jsval) : Forall P l :=
                 match l with
                 | [] => Forall_nil P
                 | x :: rest => Forall_cons x (rec x) (all rest)
                 end) elems)
       | VObj props =>
           HObj props
             ((fix all (l : list (jsstring * jsval))
                 : Forall (fun kv => P (snd kv)) l :=
                 match l with
                 | [] => Forall_nil _
                 | kv :: rest => Forall_cons kv (rec (snd kv)) (all rest)
                 end) props)
       end).
Qed.

End jsval_induction.

Lemma Date_eqb_refl (d : Date) : Date_eqb d d = true.
Proof. destruct d; simpl; [apply Z.eqb_refl | reflexivity]. Qed.

Lemma jsval_eqb_refl (v : jsval) : jsval_eqb v v = true.
Proof.
  induction v as [| b | n | s | d | elems IH | props IH] using jsval_ind; simpl.
  - reflexivity.
  - now destruct b.
  - apply Z.eqb_refl.
  - apply jsstring_eqb_refl.
  - apply Date_eqb_refl.
  - induction IH as [|x l Hx _ IHl]; [reflexivity|].
    rewrite Hx. exact IHl.
  - induction IH as [|[k x] l Hx _ IHl]; [reflexivity|].
    simpl in Hx. rewrite jsstring_eqb_refl, Hx. exact IHl.
Qed.

Lemma Message_eqb_refl (m : Message.t) : Message_eqb m m = true.
Proof.
  unfold Message_eqb.
  rewrite !jsstring_eqb_refl, Date_eqb_refl.
  destruct (Message.type m), (Message.chartSpec m), (Message.tableData m); simpl;
    rewrite ?jsval_eqb_refl; reflexivity.
Qed.

Lemma list_eqb_refl {A : Type} (eqb : A -> A -> bool) (l : list A) :
  (forall x, eqb x x = true) -> list_eqb eqb l l = true.
Proof.
  intro H. induction l as [|x l IH]; simpl; [reflexivity|].
  now rewrite H, IH.
Qed.

Lemma list_eqb_length {A : Type} (eqb : A -> A -> bool) (l1 l2 : list A) :
  list_eqb eqb l1 l2 = true -> List.length l1 = List.length l2.
Proof.
  revert l2. induction l1 as [|x l1 IH]; intros [|y l2]; simpl; try discriminate.
  - reflexivity.
  - intro H. apply andb_true_iff in H as [_ H]. f_equal. now apply IH.
Qed.

(** ** Rendering *)

Lemma saveCurrentSession_frame (st : State) :
  messages (saveCurrentSession st) = messages st
  /\ currentSessionId (saveCurrentSession st) = currentSessionId st
  /\ inputMessage (saveCurrentSession st) = inputMessage st
  /\ isTyping (saveCurrentSession st) = isTyping st
  /\ pendingResponses (saveCurrentSession st) = pendingResponses st.
Proof.
  unfold saveCurrentSession.
  destruct (truthy_string (currentSessionId st) && (0 <? length_of (messages st)));
    repeat split; reflexivity.
Qed.

(** The render after a handler leaves the transcript, the active id, the
    input and the typing flag as the handler set them. *)
Lemma afterRender_frame (prev st : State) :
  messages (afterRender prev st) = messages st
  /\ currentSessionId (afterRender prev st) = currentSessionId st
  /\ inputMessage (afterRender prev st) = inputMessage st
  /\ isTyping (afterRender prev st) = isTyping st
  /\ pendingResponses (afterRender prev st) = pendingResponses st.
Proof.
  unfold afterRender, saveEffect.
  destruct (deps_changed prev st); [|repeat split; reflexivity].
  destruct (truthy_string (currentSessionId st) && (0 <? length_of (messages st)));
    [apply saveCurrentSession_frame | repeat split; reflexivity].
Qed.

Lemma deps_unchanged (prev st : State) :
  messages st = messages prev -> currentSessionId st = currentSessionId prev ->
  deps_changed prev st = false.
Proof.
  intros Hm Hc. unfold deps_changed. rewrite Hm, Hc.
  rewrite (list_eqb_refl Message_eqb), jsstring_eqb_refl; [reflexivity|].
  apply Message_eqb_refl.
Qed.

(** No effect runs when neither dependency changed. *)
Lemma afterRender_unchanged (prev st : State) :
  messages st = messages prev -> currentSessionId st = currentSessionId prev ->
  afterRender prev st = st.
Proof.
  intros Hm Hc. unfold afterRender. now rewrite deps_unchanged.
Qed.

Lemma deps_changed_append (prev st : State) (m : Message.t) :
  messages st = messages prev ++ [m] -> deps_changed prev st = true.
Proof.
  intro Hm. unfold deps_changed.
  destruct (list_eqb Message_eqb (messages prev) (messages st)) eqn:E; [|reflexivity].
  apply list_eqb_length in E. rewrite Hm, length_app in E. simpl in E. lia.
Qed.

(** ** Selecting a session *)

Lemma handleSelectSession_unknown (sessionId : jsstring) (st : State) :
  List.find (fun s => jsstring_eqb (ChatSession.id s) sessionId) (chatSessions st) = None ->
  handleSelectSession sessionId st = setCurrentSessionId sessionId st.
Proof. intro H. unfold handleSelectSession. now rewrite H. Qed.

(** For an id that names no session the transcript and the session list
    stay as they are, and the active id becomes that id. *)
Lemma selectSession_unknown (sessionId : jsstring) (st : State) :
  List.find (fun s => jsstring_eqb (ChatSession.id s) sessionId) (chatSessions st) = None ->
  messages (selectSession sessionId st) = messages st
  /\ currentSessionId (selectSession sessionId st) = sessionId.
Proof.
  intro H. unfold selectSession.
  destruct (afterRender_frame st (handleSelectSession sessionId st)) as (Hm & Hc & _).
  rewrite Hm, Hc, (handleSelectSession_unknown _ _ H). split; reflexivity.
Qed.


(** ** Renaming a session *)

Lemma handleSaveEdit_empty (sessionId : jsstring) (st : State) :
  trim (editTitle st) = [] ->
  handleSaveEdit sessionId st = setEditingSessionId None st.
Proof. intro H. unfold handleSaveEdit. now rewrite H. Qed.

(** C2.  For every state, session id and new title: when the trimmed
    title is empty (the title is empty or white space only) the rename
    leaves the session list, hence every title, and the slot as they are;
    when it is not empty, the sessions with that id get the trimmed title
    and the other sessions stay as they are. *)
Theorem renameSession_title (sessionId newTitle : jsstring) (st : State) :
  (trim newTitle = [] ->
     chatSessions (renameSession sessionId newTitle st) = chatSessions st
     /\ localStorage (renameSession sessionId newTitle st) = localStorage st
     /\ afterRender st (renameSession sessionId newTitle st)
        = renameSession sessionId newTitle st)
  /\ (trim newTitle <> [] ->
      chatSessions (renameSession sessionId newTitle st)
      = List.map (fun session =>
                    if jsstring_eqb (ChatSession.id session) sessionId
                    then with_title (trim newTitle) session
                    else session)
                 (chatSessions st)).
Proof.
  unfold renameSession. split; intro H.
  - rewrite handleSaveEdit_empty by exact H.
    repeat split. now apply afterRender_unchanged.
  - unfold handleSaveEdit. cbn [editTitle setEditTitle].
    apply truthy_string_true in H. rewrite H. reflexivity.
Qed.

Lemma renameSession_title_witness :
  chatSessions (renameSession (js "1") (js "  ") Sample.two_sessions)
  = chatSessions Sample.two_sessions
  /\ localStorage (renameSession (js "1") (js "  ") Sample.two_sessions)
     = localStorage Sample.two_sessions
  /\ afterRender Sample.two_sessions
       (renameSession (js "1") (js "  ") Sample.two_sessions)
     = renameSession (js "1") (js "  ") Sample.two_sessions.
Proof.
  apply (proj1 (renameSession_title (js "1") (js "  ") Sample.two_sessions)).
  vm_compute. reflexivity.
Defined.

(** The handler on its own takes any title: the guard is the one of
    [handleSaveEdit]. *)
Lemma handleRenameSession_sets_title (sessionId newTitle : jsstring) (st : State) :
  chatSessions (handleRenameSession sessionId newTitle st)
  = List.map (fun session =>
                if jsstring_eqb (ChatSession.id session) sessionId
                then with_title newTitle session
                else session)
             (chatSessions st).
Proof. reflexivity. Qed.

Lemma afterRender_sessions (prev st : State) :
  chatSessions (afterRender prev st) = chatSessions st
  \/ chatSessions (afterRender prev st) = synced st.
Proof.
  unfold afterRender, saveEffect, saveCurrentSession.
  destruct (deps_changed prev st); [|now left].
  destruct (truthy_string (currentSessionId st) && (0 <? length_of (messages st)));
    [now right | now left].
Qed.

Lemma afterRender_effect (prev st : State) :
  deps_changed prev st = true -> currentSessionId st <> [] -> messages st <> [] ->
  chatSessions (afterRender prev st) = synced st.
Proof.
  intros Hd Hc Hm. unfold afterRender, saveEffect, saveCurrentSession. rewrite Hd.
  apply truthy_string_true in Hc. rewrite Hc.
  assert (Hl : (0 <? length_of (messages st)) = true).
  { apply Z.ltb_lt. unfold length_of. destruct (messages st); [congruence|simpl; lia]. }
  rewrite Hl. reflexivity.
Qed.

Lemma synced_ids (st : State) :
  List.map ChatSession.id (synced st) = List.map ChatSession.id (chatSessions st).
Proof.
  unfold synced. rewrite map_map. apply map_ext. intro s.
  now destruct (jsstring_eqb (ChatSession.id s) (currentSessionId st)).
Qed.

Lemma synced_active (st : State) (s : ChatSession.t) :
  In s (synced st) -> ChatSession.id s = currentSessionId st ->
  ChatSession.messages s = messages st
  /\ ChatSession.messageCount s = length_of (messages st).
Proof.
  unfold synced. intros Hin Hid. apply in_map_iff in Hin as (s0 & Hs & _).
  destruct (jsstring_eqb (ChatSession.id s0) (currentSessionId st)) eqn:E.
  - subst s. split; reflexivity.
  - subst s. apply jsstring_eqb_neq in E. contradiction.
Qed.

(** ** Deleting a session *)

(** C5.  When the deleted id is the active one: if sessions remain, the
    first of them is made active, its messages become the transcript and
    it heads the list; if none remains, a fresh session that holds one
    assistant greeting is the whole list and is active. *)
Theorem deleteSession_active (t_id t_session t_msg : Z) (sessionId : jsstring)
    (st : State) :
  currentSessionId st = sessionId ->
  (forall first rest, without sessionId (chatSessions st) = first :: rest ->
     chatSessions (handleDeleteSession t_id t_session t_msg sessionId st) = first :: rest
     /\ currentSessionId (deleteSession t_id t_session t_msg sessionId st)
        = ChatSession.id first
     /\ messages (deleteSession t_id t_session t_msg sessionId st)
        = ChatSession.messages first
     /\ List.map ChatSession.id
          (chatSessions (deleteSession t_id t_session t_msg sessionId st))
        = List.map ChatSession.id (first :: rest)
     /\ option_map ChatSession.messages
          (List.hd_error (chatSessions (deleteSession t_id t_session t_msg sessionId st)))
        = Some (ChatSession.messages first))
  /\ (without sessionId (chatSessions st) = [] ->
      chatSessions (deleteSession t_id t_session t_msg sessionId st)
      = [replacementSession t_id t_session t_msg]
      /\ currentSessionId (deleteSession t_id t_session t_msg sessionId st)
         = ChatSession.id (replacementSession t_id t_session t_msg)
      /\ messages (deleteSession t_id t_session t_msg sessionId st)
         = ChatSession.messages (replacementSession t_id t_session t_msg)
      /\ List.map Message.type
           (ChatSession.messages (replacementSession t_id t_session t_msg))
         = [bot]).
Proof.
  intros Hcur. unfold deleteSession.
  set (h := handleDeleteSession t_id t_session t_msg sessionId st).
  destruct (afterRender_frame st h) as (Hm & Hc & _).
  pose proof (afterRender_sessions st h) as Hs.
  rewrite Hm, Hc. clear Hm Hc.
  subst h. unfold handleDeleteSession in *.
  split.
  - intros first rest Hf. rewrite Hf in *.
    rewrite Hcur, jsstring_eqb_refl in *. repeat split.
    + destruct Hs as [Hs | Hs]; rewrite Hs; [reflexivity|].
      rewrite synced_ids. reflexivity.
    + destruct Hs as [Hs | Hs]; rewrite Hs; [reflexivity|].
      unfold synced.
      cbn [chatSessions setChatSessions currentSessionId setCurrentSessionId persist
           setLocalStorage setMessages messages List.map List.hd_error option_map].
      rewrite jsstring_eqb_refl. reflexivity.
  - intros Hf. rewrite Hf in *. repeat split.
    destruct Hs as [Hs | Hs]; rewrite Hs; [reflexivity|].
    unfold synced.
    cbn [chatSessions setChatSessions currentSessionId setCurrentSessionId persist
         setLocalStorage setMessages messages List.map].
    rewrite jsstring_eqb_refl. reflexivity.
Qed.

Lemma deleteSession_active_witness :
  chatSessions (deleteSession 7 8 9 (js "1") Sample.visited)
  = [replacementSession 7 8 9]
  /\ currentSessionId (deleteSession 7 8 9 (js "1") Sample.visited)
     = ChatSession.id (replacementSession 7 8 9)
  /\ messages (deleteSession 7 8 9 (js "1") Sample.visited)
     = ChatSession.messages (replacementSession 7 8 9)
  /\ List.map Message.type (ChatSession.messages (replacementSession 7 8 9)) = [bot].
Proof.
  apply (deleteSession_active 7 8 9 (js "1") Sample.visited).
  - vm_compute. reflexivity.
  - vm_compute. reflexivity.
Defined.

(** C10.  When the deleted id is not the active one and sessions remain,
    the active id and the transcript stay as they are and the list is the
    former list without the sessions of that id, the others in their order
    and with their content. *)
Theorem deleteSession_inactive (t_id t_session t_msg : Z) (sessionId : jsstring)
    (st : State) :
  currentSessionId st <> sessionId ->
  without sessionId (chatSessions st) <> [] ->
  currentSessionId (deleteSession t_id t_session t_msg sessionId st)
  = currentSessionId st
  /\ messages (deleteSession t_id t_session t_msg sessionId st) = messages st
  /\ chatSessions (deleteSession t_id t_session t_msg sessionId st)
     = List.filter (fun s => negb (jsstring_eqb (ChatSession.id s) sessionId))
                   (chatSessions st).
Proof.
  intros Hcur Hrem. unfold deleteSession.
  assert (Hh : handleDeleteSession t_id t_session t_msg sessionId st
               = setChatSessions (without sessionId (chatSessions st))
                   (persist (without sessionId (chatSessions st)) st)).
  { unfold handleDeleteSession.
    destruct (without sessionId (chatSessions st)) as [|first rest]; [congruence|].
    apply jsstring_eqb_neq in Hcur. now rewrite Hcur. }
  rewrite Hh, afterRender_unchanged by reflexivity.
  repeat split.
Qed.

Lemma deleteSession_inactive_witness :
  currentSessionId (deleteSession 7 8 9 (js "1") Sample.two_sessions)
  = currentSessionId Sample.two_sessions
  /\ messages (deleteSession 7 8 9 (js "1") Sample.two_sessions)
     = messages Sample.two_sessions
  /\ chatSessions (deleteSession 7 8 9 (js "1") Sample.two_sessions)
     = List.filter (fun s => negb (jsstring_eqb (ChatSession.id s) (js "1")))
                   (chatSessions Sample.two_sessions).
Proof.
  apply (deleteSession_inactive 7 8 9 (js "1") Sample.two_sessions).
  - vm_compute. discriminate.
  - vm_compute. discriminate.
Defined.

(** ** Sending a message *)

(** C7.  Whatever the drawn response type and the clock, the message the
    simulated response builds is an assistant message of exactly one of the
    three shapes: text alone, chart, table; and that message is the one the
    timer callback appends. *)
Theorem botResponse_one_shape (responseType t_id t_msg : Z) (st : State) :
  Message.type (botResponse responseType t_id t_msg) = bot
  /\ count_true [ content_only (botResponse responseType t_id t_msg);
                  has_chart (botResponse responseType t_id t_msg);
                  has_table (botResponse responseType t_id t_msg) ] = 1%nat
  /\ (has_chart (botResponse responseType t_id t_msg) = true <-> responseType = 0)
  /\ (has_table (botResponse responseType t_id t_msg) = true <-> responseType = 1)
  /\ messages (receiveResponse responseType t_id t_msg st)
     = messages st ++ [botResponse responseType t_id t_msg].
Proof.
  assert (Hlast : messages (receiveResponse responseType t_id t_msg st)
                  = messages st ++ [botResponse responseType t_id t_msg]).
  { unfold receiveResponse.
    destruct (afterRender_frame st (responseCallback responseType t_id t_msg st))
      as (Hm & _).
    rewrite Hm. reflexivity. }
  unfold botResponse in *.
  destruct (responseType =? 0) eqn:E0; [|destruct (responseType =? 1) eqn:E1].
  - apply Z.eqb_eq in E0. subst. repeat split; try discriminate; try reflexivity.
    exact Hlast.
  - apply Z.eqb_eq in E1. subst. repeat split; try discriminate; try reflexivity.
    exact Hlast.
  - apply Z.eqb_neq in E0, E1. repeat split; try discriminate; try reflexivity;
      try contradiction; try exact Hlast.
Qed.

(** C6.  With an input whose trimmed form is not empty, sending appends
    one user message, which carries the trimmed text, to the transcript at
    once and sets one timer; when the timer goes off one assistant message
    is appended: the transcript is two messages longer. *)
Theorem sendMessage_appends_two (t_id t_msg responseType t_id' t_msg' : Z) (st : State) :
  trim (inputMessage st) <> [] ->
  messages (sendMessage t_id t_msg st)
  = messages st
    ++ [Message.mk (Number_toString t_id) user (trim (inputMessage st)) (Some t_msg)
                   None None]
  /\ isTyping (sendMessage t_id t_msg st) = true
  /\ pendingResponses (sendMessage t_id t_msg st) = S (pendingResponses st)
  /\ messages (receiveResponse responseType t_id' t_msg' (sendMessage t_id t_msg st))
     = messages (sendMessage t_id t_msg st) ++ [botResponse responseType t_id' t_msg']
  /\ isTyping (receiveResponse responseType t_id' t_msg' (sendMessage t_id t_msg st))
     = false
  /\ pendingResponses
       (receiveResponse responseType t_id' t_msg' (sendMessage t_id t_msg st))
     = pendingResponses st
  /\ List.length
       (messages (receiveResponse responseType t_id' t_msg' (sendMessage t_id t_msg st)))
     = (List.length (messages st) + 2)%nat.
Proof.
  intro Hne. apply truthy_string_true in Hne.
  assert (Hh : handleSendMessage t_id t_msg st
               = setPendingResponses (S (pendingResponses st))
                   (setIsTyping true
                      (setInputMessage []
                         (setMessages
                            (messages st
                             ++ [Message.mk (Number_toString t_id) user
                                   (trim (inputMessage st)) (Some t_msg) None None])
                            st)))).
  { unfold handleSendMessage. now rewrite Hne. }
  unfold receiveResponse, sendMessage.
  set (st1 := afterRender st (handleSendMessage t_id t_msg st)).
  destruct (afterRender_frame st (handleSendMessage t_id t_msg st))
    as (Hm1 & _ & _ & Ht1 & Hp1).
  destruct (afterRender_frame st1 (responseCallback responseType t_id' t_msg' st1))
    as (Hm2 & _ & _ & Ht2 & Hp2).
  fold st1 in Hm1, Ht1, Hp1.
  rewrite Hm2, Ht2, Hp2, Hm1, Ht1, Hp1, Hh.
  cbn [messages isTyping pendingResponses setMessages setIsTyping setInputMessage
       setPendingResponses responseCallback Nat.pred].
  rewrite Hm1, Hp1, Hh.
  cbn [messages isTyping pendingResponses setMessages setIsTyping setInputMessage
       setPendingResponses responseCallback Nat.pred].
  repeat split. rewrite !length_app. simpl. lia.
Qed.

Lemma sendMessage_appends_two_witness :
  List.length
    (messages (receiveResponse 0 1730500002100 1730500002101
                 (sendMessage 1730500000100 1730500000101 Sample.typed)))
  = (List.length (messages Sample.typed) + 2)%nat.
Proof.
  apply (sendMessage_appends_two 1730500000100 1730500000101 0 1730500002100
           1730500002101 Sample.typed).
  vm_compute. discriminate.
Defined.

(** ** ISO-8601 round trip *)

Module DateTimeFacts.
Import DateTime.

Lemma all_from_spec (n : nat) (f : Z -> bool) :
forall z k, all_from n z f = true -> z <= k < z + Z.of_nat n -> f k = true.
Proof.
induction n as [|n IH]; intros z k H Hk.
- simpl in Hk. lia.
- simpl in H. apply andb_true_iff in H as [H0 H1].
  destruct (Z.eq_dec k z) as [-> | Hne]; [exact H0|].
  apply (IH (z + 1)); [exact H1 | lia].
Qed.

Lemma check_doe_all : all_from (Z.to_nat 146097) 0 check_doe = true.
Proof. vm_compute. reflexivity. Qed.

Lemma check_doe_ok (doe : Z) : 0 <= doe < 146097 -> check_doe doe = true.
Proof.
intro H. apply (all_from_spec _ _ 0 doe check_doe_all).
rewrite Z2Nat.id; lia.
Qed.

Lemma is_leap_era (y k : Z) : is_leap (y + k * 400) = is_leap y.
Proof.
unfold is_leap.
replace ((y + k * 400) mod 4) with (y mod 4)
  by (replace (k * 400) with ((k * 100) * 4) by lia; now rewrite Z.mod_add).
replace ((y + k * 400) mod 100) with (y mod 100)
  by (replace (k * 400) with ((k * 4) * 100) by lia; now rewrite Z.mod_add).
now rewrite Z.mod_add.
Qed.

Lemma days_in_month_era (y k m : Z) :
days_in_month (y + k * 400) m = days_in_month y m.
Proof. unfold days_in_month. now rewrite is_leap_era. Qed.

(** The calendar date of a day number is a date of the calendar and
  [days_from_civil] leads back to the day number. *)
Lemma civil_from_days_spec (z : Z) :
forall y m d, civil_from_days z = (y, m, d) ->
days_from_civil y m d = z
/\ 1 <= m <= 12 /\ 1 <= d <= days_in_month y m
/\ 400 * ((z + 719468) / 146097) <= y <= 400 * ((z + 719468) / 146097) + 400.
Proof.
intros y m d. unfold civil_from_days.
set (z' := z + 719468). set (era := z' / 146097). set (doe := z' mod 146097).
assert (Hdoe : 0 <= doe < 146097) by (apply Z.mod_pos_bound; lia).
pose proof (check_doe_ok doe Hdoe) as Hc. unfold check_doe in Hc.
destruct (civil_of_doe doe) as [[yoe m0] d0].
intro H. injection H as <- <- <-.
repeat (apply andb_true_iff in Hc; destruct Hc as [Hc ?]).
repeat match goal with
       | H : (_ <=? _) = true |- _ => apply Z.leb_le in H
       | H : (_ <? _) = true |- _ => apply Z.ltb_lt in H
       | H : (_ =? _) = true |- _ => apply Z.eqb_eq in H
       end.
assert (Hz : z' = 146097 * era + doe) by (apply Z.div_mod; lia).
repeat split; try lia.
- unfold days_from_civil.
  replace (m0 <=? 2) with (m0 <=? 2) by reflexivity.
  replace (yoe + era * 400 + (if m0 <=? 2 then 1 else 0) - (if m0 <=? 2 then 1 else 0))
    with (yoe + era * 400) by lia.
  rewrite Z.div_add, Z.mod_add by lia.
  rewrite Z.div_small, Z.mod_small by lia.
  lia.
- replace (yoe + era * 400 + (if m0 <=? 2 then 1 else 0))
    with ((yoe + (if m0 <=? 2 then 1 else 0)) + era * 400) by lia.
  rewrite days_in_month_era. lia.
- destruct (m0 <=? 2); lia.
- destruct (m0 <=? 2); lia.
Qed.

Lemma is_digit_of (n : Z) : is_digit (48 + Z.to_N (n mod 10)) = true.
Proof.
pose proof (Z.mod_pos_bound n 10 ltac:(lia)).
unfold is_digit. apply andb_true_iff. split; apply N.leb_le; lia.
Qed.

Lemma digit_value (n : Z) : Z.of_N (48 + Z.to_N (n mod 10) - 48) = n mod 10.
Proof.
pose proof (Z.mod_pos_bound n 10 ltac:(lia)). lia.
Qed.

Lemma read_digits_more (w : nat) (acc : Z) (s : jsstring) :
read_digits (S w) acc s
= match read_digits w acc s with
  | Some (a, c :: r) =>
      if is_digit c then Some (10 * a + Z.of_N (c - 48), r) else None
  | _ => None
  end.
Proof.
revert acc s. induction w as [|w IH]; intros acc s.
- destruct s as [|c r]; [reflexivity|]. simpl. now destruct (is_digit c).
- destruct s as [|c r]; [reflexivity|].
  change (read_digits (S (S w)) acc (c :: r))
    with (if is_digit c then read_digits (S w) (10 * acc + Z.of_N (c - 48)) r
          else None).
  change (read_digits (S w) acc (c :: r))
    with (if is_digit c then read_digits w (10 * acc + Z.of_N (c - 48)) r else None).
  destruct (is_digit c); [apply IH | reflexivity].
Qed.

(** Reading back the [w] digits that [pad] wrote. *)
Lemma read_digits_pad (w : nat) :
forall n acc rest, 0 <= n < 10 ^ Z.of_nat w ->
read_digits w acc (pad w n ++ rest) = Some (acc * 10 ^ Z.of_nat w + n, rest).
Proof.
induction w as [|w IH]; intros n acc rest Hn.
- simpl in *. f_equal. f_equal. lia.
- rewrite read_digits_more.
  change (pad (S w) n) with (pad w (n / 10) ++ [(48 + Z.to_N (n mod 10))%N]).
  rewrite <- app_assoc. cbn [app].
  rewrite Nat2Z.inj_succ, Z.pow_succ_r in Hn by lia.
  rewrite IH by (split; [apply Z.div_pos; lia | apply Z.div_lt_upper_bound; lia]).
  cbv beta iota.
  rewrite is_digit_of, digit_value.
  f_equal. f_equal.
  rewrite Nat2Z.inj_succ, Z.pow_succ_r by lia.
  pose proof (Z.div_mod n 10 ltac:(lia)). lia.
Qed.

Lemma pad_head (w : nat) (n : Z) (rest : jsstring) :
exists c s, pad (S w) n ++ rest = c :: s /\ (48 <= c <= 57)%N.
Proof.
revert n rest. induction w as [|w IH]; intros n rest.
- exists (48 + Z.to_N (n mod 10))%N, rest. split; [reflexivity|].
  pose proof (Z.mod_pos_bound n 10 ltac:(lia)). lia.
- change (pad (S (S w)) n) with (pad (S w) (n / 10) ++ [(48 + Z.to_N (n mod 10))%N]).
  rewrite <- app_assoc. apply IH.
Qed.

Lemma read_digits_pad0 (w : nat) (n : Z) (rest : jsstring) :
0 <= n < 10 ^ Z.of_nat w ->
read_digits w 0 (pad w n ++ rest) = Some (n, rest).
Proof. intro H. rewrite read_digits_pad by exact H. f_equal. Qed.

Lemma read_year_pad4 (y : Z) (rest : jsstring) :
0 <= y <= 9999 -> read_year (pad 4 y ++ rest) = Some (y, rest).
Proof.
intro Hy. destruct (pad_head 3 y rest) as (c & s & Heq & Hc).
unfold read_year. rewrite Heq.
replace (c =? 43)%N with false by (symmetry; apply N.eqb_neq; lia).
replace (c =? 45)%N with false by (symmetry; apply N.eqb_neq; lia).
rewrite <- Heq. apply read_digits_pad0. change (10 ^ Z.of_nat 4) with 10000. lia.
Qed.

Lemma read_year_pad6 (y : Z) (rest : jsstring) :
Z.abs y < 1000000 -> y < 0 \/ 9999 < y ->
read_year ((if y <? 0 then 45%N else 43%N) :: pad 6 (Z.abs y) ++ rest)
= Some (y, rest).
Proof.
intros Hy Hout. unfold read_year.
assert (Hr : read_digits 6 0 (pad 6 (Z.abs y) ++ rest) = Some (Z.abs y, rest)).
{ apply read_digits_pad0. change (10 ^ Z.of_nat 6) with 1000000. lia. }
destruct (y <? 0) eqn:E.
- apply Z.ltb_lt in E. change (45 =? 43)%N with false. change (45 =? 45)%N with true.
  cbv beta iota. rewrite Hr.
  replace (Z.abs y =? 0) with false by (symmetry; apply Z.eqb_neq; lia).
  f_equal. f_equal. lia.
- apply Z.ltb_ge in E. change (43 =? 43)%N with true. cbv beta iota. rewrite Hr.
  f_equal. f_equal. lia.
Qed.

Ltac read_sep := cbn [app expect]; rewrite N.eqb_refl; cbv beta iota.

Ltac read_field w bound :=
rewrite (read_digits_pad0 w)
  by (change (10 ^ Z.of_nat w) with bound;
      first [ lia | Z.to_euclidean_division_equations; lia ]);
cbv beta iota.

(** [Date.parse(d.toISOString())] is the time value of [d], for every
  valid Date [d]. *)
Lemma parse_toISOString (t : Z) :
valid_time t = true -> parse_iso (toISOString t) = Some (Some t).
Proof.
unfold valid_time, maxTime. intro Hv. apply Z.leb_le in Hv.
unfold toISOString.
set (day := t / msPerDay). set (tod := t mod msPerDay).
assert (Htod : 0 <= tod < 86400000) by (apply Z.mod_pos_bound; reflexivity).
assert (Ht : t = 86400000 * day + tod) by (apply Z.div_mod; discriminate).
assert (Hday : -100000000 <= day <= 100000000) by lia.
destruct (civil_from_days day) as [[y m] d] eqn:Hc.
apply civil_from_days_spec in Hc as (Hback & Hm & Hd & Hy).
assert (Hera : -684 <= (day + 719468) / 146097 <= 690).
{ split; [apply Z.div_le_lower_bound | apply Z.div_le_upper_bound]; lia. }
assert (Hdim : days_in_month y m <= 31).
{ unfold days_in_month.
  destruct (m =? 2); [destruct (is_leap y); lia|].
  destruct ((m =? 4) || (m =? 6) || (m =? 9) || (m =? 11)); lia. }
assert (Hfin :
  (if (1 <=? m) && (m <=? 12) && (1 <=? d) && (d <=? days_in_month y m)
      && ((tod / 3600000 <=? 23)
          || (tod / 3600000 =? 24) && ((tod / 60000) mod 60 =? 0)
             && ((tod / 1000) mod 60 =? 0) && (tod mod 1000 =? 0))
      && ((tod / 60000) mod 60 <=? 59) && ((tod / 1000) mod 60 <=? 59)
   then TimeClip (days_from_civil y m d * msPerDay + tod / 3600000 * 3600000
                  + (tod / 60000) mod 60 * 60000 + (tod / 1000) mod 60 * 1000
                  + tod mod 1000)
   else None) = Some t).
{ replace (1 <=? m) with true by (symmetry; apply Z.leb_le; lia).
  replace (m <=? 12) with true by (symmetry; apply Z.leb_le; lia).
  replace (1 <=? d) with true by (symmetry; apply Z.leb_le; lia).
  replace (d <=? days_in_month y m) with true by (symmetry; apply Z.leb_le; lia).
  replace (tod / 3600000 <=? 23) with true
    by (symmetry; apply Z.leb_le; Z.to_euclidean_division_equations; lia).
  replace ((tod / 60000) mod 60 <=? 59) with true
    by (symmetry; apply Z.leb_le; Z.to_euclidean_division_equations; lia).
  replace ((tod / 1000) mod 60 <=? 59) with true
    by (symmetry; apply Z.leb_le; Z.to_euclidean_division_equations; lia).
  cbn [andb orb].
  replace (days_from_civil y m d * msPerDay + tod / 3600000 * 3600000
           + (tod / 60000) mod 60 * 60000 + (tod / 1000) mod 60 * 1000
           + tod mod 1000) with t
    by (rewrite Hback; unfold msPerDay; Z.to_euclidean_division_equations; lia).
  unfold TimeClip, maxTime.
  replace (Z.abs t <=? 8640000000000000) with true by (symmetry; apply Z.leb_le; lia).
  reflexivity. }
unfold parse_iso.
destruct ((0 <=? y) && (y <=? 9999)) eqn:Ey.
- apply andb_true_iff in Ey as [Ey1 Ey2]. apply Z.leb_le in Ey1, Ey2.
  rewrite read_year_pad4 by lia.
  read_sep. read_field 2%nat 100. read_sep. read_field 2%nat 100. read_sep.
  read_field 2%nat 100. read_sep. read_field 2%nat 100. read_sep.
  read_field 2%nat 100. read_sep. read_field 3%nat 1000. read_sep.
  f_equal. exact Hfin.
- apply andb_false_iff in Ey.
  assert (Hout : y < 0 \/ 9999 < y).
  { destruct Ey as [Ey | Ey]; [apply Z.leb_gt in Ey | apply Z.leb_gt in Ey]; lia. }
  cbn [app]. rewrite read_year_pad6 by lia.
  read_sep. read_field 2%nat 100. read_sep. read_field 2%nat 100. read_sep.
  read_field 2%nat 100. read_sep. read_field 2%nat 100. read_sep.
  read_field 2%nat 100. read_sep. read_field 3%nat 1000. read_sep.
  f_equal. exact Hfin.
Qed.

End DateTimeFacts.

(** ** Serialization *)

Lemma replacer_not_date (key : jsstring) (v : jsval) :
  (forall d, v <> VDate d) -> replacer key v = Ok v.
Proof. intro H. destruct v; try reflexivity. now destruct (H d). Qed.

Lemma Date_toJSON_json (d : Date) : Date_toJSON d = Ok (Date_json d).
Proof. now destruct d. Qed.

(** A Date is printed as its ISO string, or as [null] when it is invalid:
    [toJSON] has made it a string before the replacer sees it. *)
Lemma Serialize_Date (key : jsstring) (d : Date) :
  SerializeJSONProperty key (VDate d) = Ok (Date_json d).
Proof.
  cbn [SerializeJSONProperty]. rewrite Date_toJSON_json. now destruct d.
Qed.

Lemma Serialize_VArr (key : jsstring) (elems ys : list jsval) :
  Forall2 (fun x y => forall k, SerializeJSONProperty k x = Ok y) elems ys ->
  SerializeJSONProperty key (VArr elems) = Ok (VArr ys).
Proof.
  intro H. cbn [SerializeJSONProperty replacer bind].
  generalize 0 as i.
  induction H as [|x y l l' Hx _ IH]; intro i; [reflexivity|].
  rewrite Hx. cbn [bind].
  specialize (IH (i + 1)).
  match type of IH with
  | bind ?e _ = _ => destruct e as [r|e1] eqn:El; [|discriminate]
  end.
  cbn [bind] in IH |- *. injection IH as ->. reflexivity.
Qed.

Lemma Serialize_VObj (key : jsstring) (props ys : list (jsstring * jsval)) :
  Forall2 (fun kv kv' =>
             fst kv = fst kv'
             /\ forall k, SerializeJSONProperty k (snd kv) = Ok (snd kv')) props ys ->
  SerializeJSONProperty key (VObj props) = Ok (VObj ys).
Proof.
  intro H. cbn [SerializeJSONProperty replacer bind].
  induction H as [|[k x] [k' y] l l' [Hk Hx] _ IH]; [reflexivity|].
  cbn [snd fst] in Hk, Hx. subst k'. rewrite Hx. cbn [bind].
  match type of IH with
  | bind ?e _ = _ => destruct e as [r|e1] eqn:El; [|discriminate]
  end.
  cbn [bind] in IH |- *. injection IH as ->. reflexivity.
Qed.

(** JSON data is printed as it is. *)
Lemma Serialize_clean (v : jsval) :
  json_clean v = true -> forall key, SerializeJSONProperty key v = Ok v.
Proof.
  induction v as [| b | n | s | d | elems IH | props IH] using jsval_ind;
    intros Hc key; try reflexivity.
  - discriminate.
  - apply Serialize_VArr.
    induction IH as [|x l Hx _ IHl]; constructor.
    + intro k. apply Hx. cbn in Hc. now apply andb_true_iff in Hc.
    + apply IHl. cbn in Hc. now apply andb_true_iff in Hc.
  - apply Serialize_VObj.
    induction IH as [|[k x] l Hx _ IHl]; constructor.
    + split; [reflexivity|]. intro k'. apply Hx. cbn in Hc.
      now apply andb_true_iff in Hc.
    + apply IHl. cbn in Hc. now apply andb_true_iff in Hc.
Qed.

Lemma Serialize_payload (k : string) (p : option jsval) :
  clean_payload p = true ->
  Forall2 (fun kv kv' =>
             fst kv = fst kv'
             /\ forall k, SerializeJSONProperty k (snd kv) = Ok (snd kv'))
          (optional_prop k p) (optional_prop k p).
Proof.
  destruct p as [v|]; intro H; constructor; [|constructor].
  split; [reflexivity|]. intro k'. now apply Serialize_clean.
Qed.

Lemma Forall2_app_same {A B : Type} (R : A -> B -> Prop) l1 l2 l1' l2' :
  Forall2 R l1 l1' -> Forall2 R l2 l2' -> Forall2 R (l1 ++ l2) (l1' ++ l2').
Proof. intros H1 H2. induction H1; simpl; [exact H2 | now constructor]. Qed.

(** A message with JSON payloads is printed as [Message_json]. *)
Lemma Serialize_Message (m : Message.t) :
  clean_payload (Message.chartSpec m) = true ->
  clean_payload (Message.tableData m) = true ->
  forall key, SerializeJSONProperty key (Message_toJS m) = Ok (Message_json m).
Proof.
  intros Hc Ht key. unfold Message_toJS, Message_json. apply Serialize_VObj.
  apply Forall2_app_same; [|apply Forall2_app_same; now apply Serialize_payload].
  repeat constructor; cbn [snd]; intro k; try reflexivity.
  - now destruct (Message.type m).
  - apply Serialize_Date.
Qed.

Lemma Serialize_ChatSession (s : ChatSession.t) :
  valid_session s = true ->
  forall key, SerializeJSONProperty key (ChatSession_toJS s) = Ok (ChatSession_json s).
Proof.
  intros Hv key. unfold ChatSession_toJS, ChatSession_json. apply Serialize_VObj.
  repeat constructor; cbn [snd]; intro k; try reflexivity.
  - apply Serialize_Date.
  - apply Serialize_VArr.
    unfold valid_session in Hv. apply andb_true_iff in Hv as [_ Hv].
    induction (ChatSession.messages s) as [|m ms IH]; [constructor|].
    cbn in Hv. apply andb_true_iff in Hv as [Hm Hms].
    unfold valid_message in Hm.
    apply andb_true_iff in Hm as [Hm Htd]. apply andb_true_iff in Hm as [_ Hcs].
    constructor; [|now apply IH].
    intro k'. now apply Serialize_Message.
Qed.

(** What [saveChatSessions] leaves in the slot. *)
Lemma saveChatSessions_json (sessions : list ChatSession.t) (slot : Storage) :
  valid_sessions sessions = true ->
  saveChatSessions sessions slot
  = Some (JsonOf (VArr (List.map ChatSession_json sessions))).
Proof.
  intro Hv. unfold saveChatSessions, JSON_stringify.
  rewrite (Serialize_VArr [] _ (List.map ChatSession_json sessions)); [reflexivity|].
  unfold valid_sessions in Hv.
  induction sessions as [|s l IH]; [constructor|].
  cbn in Hv. apply andb_true_iff in Hv as [Hs Hl].
  constructor; [|now apply IH].
  intro k. now apply Serialize_ChatSession.
Qed.

(** ** Loading *)

Lemma asMessage_toJS (m : Message.t) : asMessage (Message_toJS m) = Some m.
Proof.
  destruct m as [i ty c d cs td]. destruct ty, cs, td; reflexivity.
Qed.

Lemma traverse_map {A B : Type} (f : B -> option A) (g : A -> B) (l : list A) :
  (forall x, f (g x) = Some x) -> traverse f (List.map g l) = Some l.
Proof.
  intro H. induction l as [|x l IH]; [reflexivity|].
  cbn [List.map traverse]. now rewrite H, IH.
Qed.

Lemma asChatSession_toJS (s : ChatSession.t) : asChatSession (ChatSession_toJS s) = Some s.
Proof.
  destruct s as [i ti d n ms].
  assert (H : traverse asMessage (List.map Message_toJS ms) = Some ms)
    by (apply traverse_map, asMessage_toJS).
  unfold asChatSession, ChatSession_toJS.
  cbn [ChatSession.id ChatSession.title ChatSession.timestamp ChatSession.messageCount
       ChatSession.messages].
  change (lookup (js "id") _) with (Some (VStr i)).
  change (lookup (js "title") _) with (Some (VStr ti)).
  change (lookup (js "timestamp") _) with (Some (VDate d)).
  change (lookup (js "messageCount") _) with (Some (VNum n)).
  change (lookup (js "messages") _) with (Some (VArr (List.map Message_toJS ms))).
  cbv beta iota. now rewrite H.
Qed.

(** The run-time objects of a session list read back at their type. *)
Lemma asChatSessions_toJS (l : list ChatSession.t) :
  asChatSessions (List.map ChatSession_toJS l) = Some l.
Proof. apply traverse_map, asChatSession_toJS. Qed.

Section Loading.

Variable legacy_date : jsval -> Date.

(** [new Date(d.toISOString())] is [d] again. *)
Lemma Date_new_json (d : Date) :
  valid_Date d = true -> Date_new legacy_date (Some (Date_json d)) = Ok d.
Proof.
  destruct d as [t|]; [|discriminate]. intro Hv.
  unfold Date_json, Date_new. now rewrite DateTimeFacts.parse_toISOString.
Qed.

Lemma revive_message_json (m : Message.t) :
  valid_Date (Message.timestamp m) = true ->
  revive_message legacy_date (Message_json m) = Ok (Message_toJS m).
Proof.
  destruct m as [i ty c d cs td]. intro Hv.
  cbn [Message.timestamp] in Hv.
  pose proof (Date_new_json d Hv) as Hd.
  unfold revive_message, Message_json, Message_toJS, get_named, spread.
  cbn [Message.id Message.type Message.content Message.timestamp Message.chartSpec
       Message.tableData].
  destruct ty, cs, td;
    cbv - [Date_new Date_json] in Hd |- *; rewrite Hd; reflexivity.
Qed.

Lemma mapM_revive_message (ms : list Message.t) :
  List.forallb valid_message ms = true ->
  mapM (revive_message legacy_date) (List.map Message_json ms)
  = Ok (List.map Message_toJS ms).
Proof.
  induction ms as [|m ms IH]; [reflexivity|]. intro Hv.
  cbn [List.forallb] in Hv. apply andb_true_iff in Hv as [Hm Hms].
  unfold valid_message in Hm.
  apply andb_true_iff in Hm as [Hm _]. apply andb_true_iff in Hm as [Hm _].
  cbn [List.map mapM]. rewrite revive_message_json by exact Hm.
  cbn [bind]. rewrite IH by exact Hms. reflexivity.
Qed.

Lemma revive_session_json (s : ChatSession.t) :
  valid_session s = true ->
  revive_session legacy_date (ChatSession_json s) = Ok (ChatSession_toJS s).
Proof.
  destruct s as [i ti d n ms]. unfold valid_session.
  cbn [ChatSession.timestamp ChatSession.messages].
  intro Hv. apply andb_true_iff in Hv as [Hd Hms].
  pose proof (Date_new_json d Hd) as Hdate.
  pose proof (mapM_revive_message ms Hms) as Hmap.
  unfold revive_session, ChatSession_json, ChatSession_toJS, get_named, spread.
  cbn [ChatSession.id ChatSession.title ChatSession.timestamp
       ChatSession.messageCount ChatSession.messages].
  change (lookup (js "timestamp") _) with (Some (Date_json d)).
  change (lookup (js "messages") _) with (Some (VArr (List.map Message_json ms))).
  cbn [bind]. rewrite Hdate. cbn [bind call_map]. rewrite Hmap. reflexivity.
Qed.

Lemma mapM_revive_session (l : list ChatSession.t) :
  valid_sessions l = true ->
  mapM (revive_session legacy_date) (List.map ChatSession_json l)
  = Ok (List.map ChatSession_toJS l).
Proof.
  unfold valid_sessions.
  induction l as [|s l IH]; [reflexivity|]. intro Hv.
  cbn [List.forallb] in Hv. apply andb_true_iff in Hv as [Hs Hl].
  cbn [List.map mapM]. rewrite revive_session_json by exact Hs.
  cbn [bind]. rewrite IH by exact Hl. reflexivity.
Qed.

(** Loading what [saveChatSessions] wrote gives the run-time objects of
    the saved sessions. *)
Lemma load_saved (sessions : list ChatSession.t) (slot : Storage) :
  valid_sessions sessions = true ->
  loadChatSessions legacy_date (saveChatSessions sessions slot)
  = Ok (List.map ChatSession_toJS sessions).
Proof.
  intro Hv. rewrite saveChatSessions_json by exact Hv.
  unfold loadChatSessions, loadChatSessions_try.
  cbn [truthy_text JSON_parse bind call_map].
  rewrite mapM_revive_session by exact Hv. reflexivity.
Qed.

(** C4.  For every list of sessions whose timestamps are valid Dates and
    whose optional payloads are JSON data, loading what [saveChatSessions]
    wrote returns, read at the type [ChatSession[]], the list that was
    saved: every field the same, timestamps to the millisecond. *)
Theorem load_save_roundtrip (sessions : list ChatSession.t) (slot : Storage) :
  valid_sessions sessions = true ->
  exists loaded,
    loadChatSessions legacy_date (saveChatSessions sessions slot) = Ok loaded
    /\ asChatSessions loaded = Some sessions.
Proof.
  intro Hv. exists (List.map ChatSession_toJS sessions). split.
  - now apply load_saved.
  - apply asChatSessions_toJS.
Qed.

End Loading.

Lemma load_save_roundtrip_witness :
  exists loaded,
    loadChatSessions Sample.legacy_date
      (saveChatSessions (chatSessions Sample.two_sessions) None) = Ok loaded
    /\ asChatSessions loaded = Some (chatSessions Sample.two_sessions).
Proof.
  apply (load_save_roundtrip Sample.legacy_date (chatSessions Sample.two_sessions) None).
  vm_compute. reflexivity.
Defined.

Lemma mapM_length {A B : Type} (f : A -> result B) (l : list A) (r : list B) :
  mapM f l = Ok r -> List.length r = List.length l.
Proof.
  revert r. induction l as [|x l IH]; intros r H.
  - injection H as <-. reflexivity.
  - cbn [mapM] in H. destruct (f x) as [y|e]; [|discriminate]. cbn [bind] in H.
    destruct (mapM f l) as [ys|e]; [|discriminate]. cbn [bind] in H.
    injection H as <-. cbn [List.length]. f_equal. now apply IH.
Qed.

Lemma mapM_throws {A B : Type} (f : A -> result B) (l : list A) (x : A) (e : exn) :
  In x l -> f x = Throw e -> exists e', mapM f l = Throw e'.
Proof.
  intros Hin Hx. induction l as [|y l IH]; [contradiction|].
  cbn [mapM]. destruct Hin as [-> | Hin].
  - rewrite Hx. now exists e.
  - destruct (f y) as [y'|e1]; [|now exists e1]. cbn [bind].
    destruct (IH Hin) as [e' He']. rewrite He'. now exists e'.
Qed.

Lemma lookup_set_prop (k : jsstring) (v : jsval) (props : list (jsstring * jsval)) :
  lookup k (set_prop k v props) = Some v.
Proof.
  induction props as [|[k' v'] rest IH]; cbn [set_prop lookup].
  - now rewrite jsstring_eqb_refl.
  - destruct (jsstring_eqb k k') eqn:E; cbn [lookup].
    + now rewrite jsstring_eqb_refl.
    + now rewrite E.
Qed.

Lemma lookup_set_prop_other (k k0 : jsstring) (v : jsval)
    (props : list (jsstring * jsval)) :
  k <> k0 -> lookup k (set_prop k0 v props) = lookup k props.
Proof.
  intro Hne. induction props as [|[k' v'] rest IH]; cbn [set_prop lookup].
  - replace (jsstring_eqb k k0) with false by (symmetry; now apply jsstring_eqb_neq).
    reflexivity.
  - destruct (jsstring_eqb k0 k') eqn:E; cbn [lookup].
    + apply jsstring_eqb_eq in E. subst k'.
      replace (jsstring_eqb k k0) with false by (symmetry; now apply jsstring_eqb_neq).
      reflexivity.
    + now rewrite IH.
Qed.

Lemma mapM_forall {A B : Type} (f : A -> result B) (P : B -> Prop) (l : list A) :
  (forall x y, f x = Ok y -> P y) ->
  forall r, mapM f l = Ok r -> Forall P r.
Proof.
  intro H. induction l as [|x l IH]; intros r Hr.
  - injection Hr as <-. constructor.
  - cbn [mapM] in Hr. destruct (f x) as [y|e] eqn:Ex; [|discriminate]. cbn [bind] in Hr.
    destruct (mapM f l) as [ys|e]; [|discriminate]. cbn [bind] in Hr.
    injection Hr as <-. constructor; [now apply (H x) | now apply IH].
Qed.

Lemma mapM_throws_existsb {A B : Type} (f : A -> result B) (bad : A -> bool)
    (l : list A) :
  (forall x, bad x = true -> exists e, f x = Throw e) ->
  List.existsb bad l = true -> exists e, mapM f l = Throw e.
Proof.
  intros Hbad H. apply existsb_exists in H as (x & Hin & Hx).
  destruct (Hbad x Hx) as [e He]. exact (mapM_throws f l x e Hin He).
Qed.

Lemma mapM_returns_existsb {A B : Type} (f : A -> result B) (bad : A -> bool)
    (l : list A) :
  (forall x, bad x = false -> exists y, f x = Ok y) ->
  List.existsb bad l = false -> exists r, mapM f l = Ok r.
Proof.
  intros Hgood. induction l as [|x l IH]; intro H; [now exists []|].
  cbn [List.existsb] in H. apply orb_false_iff in H as [Hx Hl].
  destruct (Hgood x Hx) as [y Hy]. destruct (IH Hl) as [r Hr].
  exists (y :: r). cbn [mapM]. now rewrite Hy, Hr.
Qed.

Section LoadingAnything.

Variable legacy_date : jsval -> Date.

(** The Date constructor throws on the values [ToPrimitive] throws on,
    and on no other. *)
Lemma Date_new_throws (ts : option jsval) :
  match ts with
  | Some v => if ToPrimitive_throws v
              then Date_new legacy_date ts = Throw TypeError
              else exists d, Date_new legacy_date ts = Ok d
  | None => Date_new legacy_date ts = Ok None
  end.
Proof.
  destruct ts as [v|]; [|reflexivity].
  destruct (ToPrimitive_throws v) eqn:E.
  - destruct v; try discriminate; cbn [Date_new]; now rewrite E.
  - destruct v; cbn [Date_new]; rewrite ?E; eauto.
    destruct (DateTime.parse_iso s); eauto.
Qed.

Lemma revive_message_throws (msg : jsval) :
  unrevivable_message msg = true -> exists e, revive_message legacy_date msg = Throw e.
Proof.
  unfold unrevivable_message, revive_message. destruct msg; try discriminate.
  - intros _. now exists TypeError.
  - cbn [get_named bind].
    destruct (lookup (js "timestamp") props) as [ts|]; [|discriminate].
    intro H. pose proof (Date_new_throws (Some ts)) as Hd. cbn beta iota in Hd.
    rewrite H in Hd. rewrite Hd. now exists TypeError.
Qed.

Lemma revive_message_returns (msg : jsval) :
  unrevivable_message msg = false -> exists y, revive_message legacy_date msg = Ok y.
Proof.
  unfold unrevivable_message, revive_message.
  destruct msg; try discriminate; cbn [get_named bind]; intro H;
    try (cbn [Date_new bind]; now eexists).
  destruct (lookup (js "timestamp") props) as [ts|]; [|cbn [Date_new bind]; now eexists].
  pose proof (Date_new_throws (Some ts)) as Hd. cbn beta iota in Hd.
  rewrite H in Hd. destruct Hd as [d Hd]. rewrite Hd. cbn [bind]. now eexists.
Qed.

Lemma revive_session_throws (session : jsval) :
  unrevivable_session session = true ->
  exists e, revive_session legacy_date session = Throw e.
Proof.
  unfold unrevivable_session, revive_session. destruct session; try discriminate.
  - intros _. now exists TypeError.
  - cbn [get_named bind]. intro H.
    pose proof (Date_new_throws (lookup (js "timestamp") props)) as Hd.
    destruct (lookup (js "timestamp") props) as [ts|].
    + destruct (ToPrimitive_throws ts); [rewrite Hd; now exists TypeError|].
      destruct Hd as [d Hd]. rewrite Hd. cbn [bind orb] in H |- *.
      destruct (lookup (js "messages") props) as [[| | | | | msgs |]|];
        try discriminate; try (now exists TypeError).
      cbn [call_map].
      destruct (mapM_throws_existsb (revive_message legacy_date) unrevivable_message
                  msgs revive_message_throws H) as [e He].
      rewrite He. now exists e.
    + rewrite Hd. cbn [bind orb] in H |- *.
      destruct (lookup (js "messages") props) as [[| | | | | msgs |]|];
        try discriminate; try (now exists TypeError).
      cbn [call_map].
      destruct (mapM_throws_existsb (revive_message legacy_date) unrevivable_message
                  msgs revive_message_throws H) as [e He].
      rewrite He. now exists e.
Qed.

Lemma revive_session_returns (session : jsval) :
  unrevivable_session session = false ->
  exists y, revive_session legacy_date session = Ok y.
Proof.
  unfold unrevivable_session, revive_session.
  destruct session; try discriminate; cbn [get_named bind]; intro H;
    try (cbn [Date_new bind]; now eexists).
  apply orb_false_iff in H as [Hts Hms].
  assert (Hd : exists d, Date_new legacy_date (lookup (js "timestamp") props) = Ok d).
  { pose proof (Date_new_throws (lookup (js "timestamp") props)) as Hd.
    destruct (lookup (js "timestamp") props) as [ts|]; [|now exists None].
    now rewrite Hts in Hd. }
  destruct Hd as [d Hd]. rewrite Hd. cbn [bind].
  destruct (lookup (js "messages") props) as [[| | | | | msgs |]|];
    try discriminate; try (cbn [bind]; now eexists).
  cbn [call_map].
  destruct (mapM_returns_existsb (revive_message legacy_date) unrevivable_message
              msgs revive_message_returns Hms) as [r Hr].
  rewrite Hr. cbn [bind]. now eexists.
Qed.

(** What a revived session is: an object with a Date as its [timestamp]
    and an array as its [messages]. *)
Lemma revive_session_object (session y : jsval) :
  revive_session legacy_date session = Ok y ->
  exists props d ms,
    y = VObj props
    /\ lookup (js "timestamp") props = Some (VDate d)
    /\ lookup (js "messages") props = Some (VArr ms).
Proof.
  unfold revive_session. intro Hy.
  destruct (get_named "timestamp" session) as [ts|e]; [|discriminate]. cbn [bind] in Hy.
  destruct (Date_new legacy_date ts) as [d|e]; [|discriminate]. cbn [bind] in Hy.
  destruct (get_named "messages" session) as [ms|e]; [|discriminate]. cbn [bind] in Hy.
  assert (Hms : exists l,
            bind match ms with
                 | None | Some VNull => Ok (VArr [])
                 | Some m => l0 <- call_map (revive_message legacy_date) m ;; Ok (VArr l0)
                 end
                 (fun ms' =>
                    Ok (VObj (set_prop (js "messages") ms'
                                (set_prop (js "timestamp") (VDate d) (spread session)))))
            = Ok (VObj (set_prop (js "messages") (VArr l)
                          (set_prop (js "timestamp") (VDate d) (spread session))))).
  { destruct ms as [m|]; [|now exists []].
    destruct m; try (now exists []);
      cbn [call_map bind] in Hy |- *; try discriminate.
    destruct (mapM (revive_message legacy_date) elems) as [l|e]; [|discriminate].
    now exists l. }
  destruct Hms as [l Hl]. rewrite Hl in Hy. injection Hy as <-.
  eexists _, d, l. split; [reflexivity|]. split; [|apply lookup_set_prop].
  rewrite lookup_set_prop_other by discriminate. apply lookup_set_prop.
Qed.

(** C9 (as the code has it).  Whatever the slot holds, [loadChatSessions]
    returns a list and does not throw.  The list is empty when the slot
    is absent or holds text that is not the JSON text of an array, and
    when it holds an array with an element that cannot be revived, a
    [null] element for one.  For any other array, whatever the shape of
    its elements, the list has one object per element of the array, each
    with a Date as its [timestamp] and an array as its [messages]: it is
    empty only when the array is. *)
Theorem loadChatSessions_never_throws (slot : Storage) :
  exists l,
    loadChatSessions legacy_date slot = Ok l
    /\ (holds_array slot = false -> l = [])
    /\ (forall elems, slot = Some (JsonOf (VArr elems)) ->
          (In VNull elems -> l = [])
          /\ (List.existsb unrevivable_session elems = true -> l = [])
          /\ (List.existsb unrevivable_session elems = false ->
              List.length l = List.length elems
              /\ Forall (fun y =>
                           exists props d ms,
                             y = VObj props
                             /\ lookup (js "timestamp") props = Some (VDate d)
                             /\ lookup (js "messages") props = Some (VArr ms)) l)).
Proof.
  unfold loadChatSessions, loadChatSessions_try.
  destruct slot as [[s | v] |].
  - exists []. split; [now destruct (truthy_text (NotJson s))|].
    split; [reflexivity | discriminate].
  - cbn [truthy_text JSON_parse bind].
    destruct v as [| b | n | s | d | elems | props];
      try (exists []; split; [reflexivity | split; [reflexivity | discriminate]]).
    cbn [call_map].
    destruct (mapM (revive_session legacy_date) elems) as [r | e] eqn:Hr.
    + exists r. split; [reflexivity|]. split; [discriminate|].
      intros elems' H. injection H as <-. split; [|split].
      * intro Hin.
        destruct (mapM_throws (revive_session legacy_date) elems VNull TypeError Hin
                    eq_refl) as [e' He'].
        congruence.
      * intro Hbad.
        destruct (mapM_throws_existsb (revive_session legacy_date) unrevivable_session
                    elems revive_session_throws Hbad) as [e' He'].
        congruence.
      * intros _. split; [now apply mapM_length in Hr|].
        revert r Hr. apply mapM_forall. exact revive_session_object.
    + exists []. split; [reflexivity|]. split; [discriminate|].
      intros elems' H. injection H as <-. split; [reflexivity|].
      split; [reflexivity|]. intro Hgood.
      destruct (mapM_returns_existsb (revive_session legacy_date) unrevivable_session
                  elems revive_session_returns Hgood) as [r' Hr'].
      congruence.
  - exists []. split; [reflexivity|]. split; [reflexivity | discriminate].
Qed.

End LoadingAnything.

Lemma loadChatSessions_never_throws_witness :
  (exists l,
     loadChatSessions Sample.legacy_date (Some (NotJson (js "{oops"))) = Ok l
     /\ l = [])
  /\ (exists l,
        loadChatSessions Sample.legacy_date
          (Some (JsonOf (VArr [VObj []; VObj [(js "messages", VNum 5)]]))) = Ok l
        /\ l = [])
  /\ (exists l,
        loadChatSessions Sample.legacy_date
          (Some (JsonOf (VArr [VObj []; VNum 5]))) = Ok l
        /\ List.length l = 2%nat).
Proof.
  split; [|split].
  - destruct (loadChatSessions_never_throws Sample.legacy_date
                (Some (NotJson (js "{oops")))) as (l & Hl & Hempty & _).
    exists l. split; [exact Hl | apply Hempty; reflexivity].
  - destruct (loadChatSessions_never_throws Sample.legacy_date
                (Some (JsonOf (VArr [VObj []; VObj [(js "messages", VNum 5)]]))))
      as (l & Hl & _ & Harr).
    exists l. split; [exact Hl|].
    destruct (Harr _ eq_refl) as (_ & Hbad & _). apply Hbad. reflexivity.
  - destruct (loadChatSessions_never_throws Sample.legacy_date
                (Some (JsonOf (VArr [VObj []; VNum 5])))) as (l & Hl & _ & Harr).
    exists l. split; [exact Hl|].
    destruct (Harr _ eq_refl) as (_ & _ & Hgood).
    destruct (Hgood eq_refl) as [Hlen _]. exact Hlen.
Defined.

(** C9 (counterexample).  The JSON text [[{}]] is not the text of a list of
    sessions, yet [loadChatSessions] returns a list of one object, with an
    Invalid Date as its timestamp and no message. *)
Lemma loadChatSessions_wrong_shape_not_empty :
  (forall sessions, [VObj []] <> List.map ChatSession_json sessions)
  /\ loadChatSessions Sample.legacy_date (Some (JsonOf (VArr [VObj []])))
     = Ok [VObj [(js "timestamp", VDate None); (js "messages", VArr [])]]
  /\ asChatSessions [VObj [(js "timestamp", VDate None); (js "messages", VArr [])]]
     = None.
Proof.
  split; [|split; reflexivity].
  intros [|s l]; discriminate.
Qed.

(** A stored session whose [timestamp] is the object [{"toString": 1}]:
    the Date constructor throws, and the list that is loaded is empty. *)
Lemma unconvertible_timestamp_loads_empty (legacy_date : jsval -> Date) :
  loadChatSessions legacy_date
    (Some (JsonOf (VArr [VObj [(js "timestamp", VObj [(js "toString", VNum 1)])]])))
  = Ok [].
Proof. reflexivity. Qed.

(** A stored session whose [messages] is a number: there is no [map] to
    call, and the list that is loaded is empty. *)
Lemma messages_without_map_loads_empty (legacy_date : jsval -> Date) :
  loadChatSessions legacy_date
    (Some (JsonOf (VArr [VObj [(js "messages", VNum 5)]])))
  = Ok [].
Proof. reflexivity. Qed.

(** An Invalid Date is written as [null] and read back as the epoch: the
    round trip needs valid Dates. *)
Lemma invalid_date_is_reloaded_as_epoch :
  let session := ChatSession.mk (js "1") (js "t") None 0 [] in
  loadChatSessions Sample.legacy_date (saveChatSessions [session] None)
  = Ok [ChatSession_toJS (ChatSession.mk (js "1") (js "t") (Some 0) 0 [])].
Proof. reflexivity. Qed.

(** ** The invariant *)

Lemma valid_with_messages (ms : list Message.t) (s : ChatSession.t) :
  valid_session s = true -> List.forallb valid_message ms = true ->
  valid_session (with_messages ms s) = true.
Proof.
  unfold valid_session. cbn [with_messages ChatSession.timestamp ChatSession.messages].
  intros Hs Hms. apply andb_true_iff in Hs as [Hd _]. now rewrite Hd, Hms.
Qed.

Lemma valid_synced (st : State) :
  valid_sessions (chatSessions st) = true ->
  List.forallb valid_message (messages st) = true ->
  valid_sessions (synced st) = true.
Proof.
  unfold valid_sessions, synced. intros Hs Hm.
  rewrite forallb_forall in *. intros s Hin.
  apply in_map_iff in Hin as (s0 & <- & Hin0).
  destruct (jsstring_eqb (ChatSession.id s0) (currentSessionId st));
    [apply valid_with_messages; [now apply Hs | now apply forallb_forall] | now apply Hs].
Qed.

Lemma count_ok_synced (st : State) :
  Forall count_ok (chatSessions st) -> Forall count_ok (synced st).
Proof.
  unfold synced. intro H. apply Forall_map.
  eapply Forall_impl; [|exact H]. intros s Hs.
  now destruct (jsstring_eqb (ChatSession.id s) (currentSessionId st)).
Qed.

Lemma saveCurrentSession_invariant (st : State) :
  invariant st -> invariant (saveCurrentSession st).
Proof.
  intros [Hs Hm Hc Hi Hl]. unfold saveCurrentSession.
  destruct (truthy_string (currentSessionId st) && (0 <? length_of (messages st)));
    [|now constructor].
  fold (synced st).
  pose proof (valid_synced st Hs Hm) as Hv.
  constructor; cbn [chatSessions messages isTyping inputMessage localStorage
                    setChatSessions persist setLocalStorage].
  - exact Hv.
  - exact Hm.
  - now apply count_ok_synced.
  - exact Hi.
  - now apply saveChatSessions_json.
Qed.

Lemma saveEffect_invariant (st : State) : invariant st -> invariant (saveEffect st).
Proof.
  intro H. unfold saveEffect.
  destruct (truthy_string (currentSessionId st) && (0 <? length_of (messages st)));
    [now apply saveCurrentSession_invariant | exact H].
Qed.

(** The render after a handler keeps the invariant. *)
Lemma afterRender_invariant (prev st : State) :
  invariant st -> invariant (afterRender prev st).
Proof.
  intro H. unfold afterRender.
  destruct (deps_changed prev st); [now apply saveEffect_invariant | exact H].
Qed.

(** Replacing the list by a well-formed one, persisted. *)
Lemma persisted_state (l : list ChatSession.t) (st : State) :
  List.forallb valid_message (messages st) = true ->
  (isTyping st = true -> inputMessage st = []) ->
  valid_sessions l = true -> Forall count_ok l ->
  invariant (setChatSessions l (persist l st)).
Proof.
  intros Hm Hi Hv Hcount.
  constructor; cbn [chatSessions messages isTyping inputMessage localStorage
                    setChatSessions persist setLocalStorage]; try assumption.
  now apply saveChatSessions_json.
Qed.

Lemma persisted_invariant (l : list ChatSession.t) (st : State) :
  invariant st -> valid_sessions l = true -> Forall count_ok l ->
  invariant (setChatSessions l (persist l st)).
Proof.
  intros [Hs Hm Hc Hi Hl] Hv Hcount.
  constructor; cbn [chatSessions messages isTyping inputMessage localStorage
                    setChatSessions persist setLocalStorage]; try assumption.
  now apply saveChatSessions_json.
Qed.

Lemma invariant_setMessages (ms : list Message.t) (st : State) :
  invariant st -> List.forallb valid_message ms = true -> invariant (setMessages ms st).
Proof. intros [Hs Hm Hc Hi Hl] Hv. now constructor. Qed.

Lemma invariant_setCurrentSessionId (sessionId : jsstring) (st : State) :
  invariant st -> invariant (setCurrentSessionId sessionId st).
Proof. intros [Hs Hm Hc Hi Hl]. now constructor. Qed.

Lemma invariant_setEditingSessionId (v : option jsstring) (st : State) :
  invariant st -> invariant (setEditingSessionId v st).
Proof. intros [Hs Hm Hc Hi Hl]. now constructor. Qed.

Lemma invariant_setEditTitle (v : jsstring) (st : State) :
  invariant st -> invariant (setEditTitle v st).
Proof. intros [Hs Hm Hc Hi Hl]. now constructor. Qed.

Lemma valid_session_messages (s : ChatSession.t) :
  valid_session s = true -> List.forallb valid_message (ChatSession.messages s) = true.
Proof. unfold valid_session. intro H. now apply andb_true_iff in H. Qed.

Lemma valid_sessions_in (l : list ChatSession.t) (s : ChatSession.t) :
  valid_sessions l = true -> In s l -> valid_session s = true.
Proof. unfold valid_sessions. rewrite forallb_forall. auto. Qed.

Lemma valid_without (sessionId : jsstring) (l : list ChatSession.t) :
  valid_sessions l = true -> valid_sessions (without sessionId l) = true.
Proof.
  unfold valid_sessions, without. rewrite !forallb_forall.
  intros H s Hin. apply filter_In in Hin as [Hin _]. now apply H.
Qed.

Lemma count_ok_without (sessionId : jsstring) (l : list ChatSession.t) :
  Forall count_ok l -> Forall count_ok (without sessionId l).
Proof.
  unfold without. rewrite !Forall_forall.
  intros H s Hin. apply filter_In in Hin as [Hin _]. now apply H.
Qed.

Lemma valid_message_plain (i : jsstring) (ty : MessageType) (c : jsstring) (t : Z) :
  valid_time t = true -> valid_message (Message.mk i ty c (Some t) None None) = true.
Proof. intro H. unfold valid_message. cbn. now rewrite H. Qed.

Lemma valid_botResponse (responseType t_id t_msg : Z) :
  valid_time t_msg = true -> valid_message (botResponse responseType t_id t_msg) = true.
Proof.
  intro H. unfold botResponse.
  destruct (responseType =? 0); [|destruct (responseType =? 1)];
    unfold valid_message;
    cbn [Message.timestamp Message.chartSpec Message.tableData valid_Date clean_payload];
    rewrite H; reflexivity.
Qed.

Lemma forallb_snoc {A : Type} (f : A -> bool) (l : list A) (x : A) :
  List.forallb f l = true -> f x = true -> List.forallb f (l ++ [x]) = true.
Proof. intros Hl Hx. rewrite forallb_app, Hl. cbn. now rewrite Hx. Qed.

Lemma handleNewChat_invariant (t_msg t_id t_session : Z) (st : State) :
  valid_time t_msg = true -> valid_time t_session = true ->
  invariant st -> invariant (handleNewChat t_msg t_id t_session st).
Proof.
  intros Hm Hs Hinv. unfold handleNewChat.
  assert (Hmsg : valid_message (Message.mk (js "1") bot newChatGreeting (Some t_msg)
                                           None None) = true)
    by now apply valid_message_plain.
  apply invariant_setMessages; [|cbn [List.forallb]; now rewrite Hmsg].
  apply invariant_setCurrentSessionId.
  apply persisted_invariant; [exact Hinv | |].
  - unfold valid_sessions. cbn [List.forallb]. apply andb_true_iff. split.
    + unfold valid_session.
      cbn [ChatSession.timestamp ChatSession.messages valid_Date List.forallb].
      now rewrite Hs, Hmsg.
    + apply Hinv.
  - constructor; [reflexivity | apply Hinv].
Qed.

Lemma handleSelectSession_invariant (sessionId : jsstring) (st : State) :
  invariant st -> invariant (handleSelectSession sessionId st).
Proof.
  intro Hinv. unfold handleSelectSession.
  destruct (List.find _ (chatSessions st)) as [s|] eqn:Hf.
  - apply find_some in Hf as [Hin _].
    apply invariant_setMessages; [now apply invariant_setCurrentSessionId|].
    apply valid_session_messages.
    apply (valid_sessions_in (chatSessions st)); [apply Hinv | exact Hin].
  - now apply invariant_setCurrentSessionId.
Qed.

Lemma replacementSession_valid (t_id t_session t_msg : Z) :
  valid_time t_session = true -> valid_time t_msg = true ->
  valid_session (replacementSession t_id t_session t_msg) = true.
Proof.
  intros Hs Hm. unfold valid_session, replacementSession.
  cbn [ChatSession.timestamp ChatSession.messages valid_Date List.forallb].
  rewrite Hs, valid_message_plain by exact Hm. reflexivity.
Qed.

Lemma handleDeleteSession_invariant (t_id t_session t_msg : Z) (sessionId : jsstring)
    (st : State) :
  valid_time t_session = true -> valid_time t_msg = true ->
  invariant st -> invariant (handleDeleteSession t_id t_session t_msg sessionId st).
Proof.
  intros Hs Hm Hinv. unfold handleDeleteSession.
  pose proof (valid_without sessionId _ (inv_sessions st Hinv)) as Hv.
  pose proof (count_ok_without sessionId _ (inv_count st Hinv)) as Hc.
  destruct (without sessionId (chatSessions st)) as [|first rest] eqn:Hw.
  - pose proof (replacementSession_valid t_id t_session t_msg Hs Hm) as Hr.
    apply persisted_state.
    + now apply valid_session_messages.
    + apply Hinv.
    + unfold valid_sessions. cbn [List.forallb]. now rewrite Hr.
    + constructor; [reflexivity | constructor].
  - assert (Hbase : invariant (setChatSessions (first :: rest)
                                 (persist (first :: rest) st)))
      by now apply persisted_invariant.
    destruct (jsstring_eqb (currentSessionId st) sessionId); [|exact Hbase].
    assert (Hfirst : List.forallb valid_message (ChatSession.messages first) = true).
    { apply valid_session_messages.
      apply (valid_sessions_in (first :: rest)); [exact Hv | now left]. }
    destruct Hbase as [H1 H2 H3 H4 H5]. now constructor.
Qed.

Lemma handleRenameSession_invariant (sessionId newTitle : jsstring) (st : State) :
  invariant st -> invariant (handleRenameSession sessionId newTitle st).
Proof.
  intro Hinv. unfold handleRenameSession.
  apply persisted_invariant; [exact Hinv | |].
  - pose proof (inv_sessions st Hinv) as Hv. unfold valid_sessions in *.
    rewrite forallb_forall in *. intros s Hin.
    apply in_map_iff in Hin as (s0 & <- & Hin0).
    destruct (jsstring_eqb (ChatSession.id s0) sessionId); [|now apply Hv].
    specialize (Hv s0 Hin0). exact Hv.
  - apply Forall_map. eapply Forall_impl; [|apply (inv_count st Hinv)].
    intros s Hs. now destruct (jsstring_eqb (ChatSession.id s) sessionId).
Qed.

Lemma handleSaveEdit_invariant (sessionId : jsstring) (st : State) :
  invariant st -> invariant (handleSaveEdit sessionId st).
Proof.
  intro Hinv. unfold handleSaveEdit. apply invariant_setEditingSessionId.
  destruct (truthy_string (trim (editTitle st)));
    [now apply handleRenameSession_invariant | exact Hinv].
Qed.

Lemma handleSendMessage_invariant (t_id t_msg : Z) (st : State) :
  valid_time t_msg = true ->
  invariant st -> invariant (handleSendMessage t_id t_msg st).
Proof.
  intros Hm Hinv. unfold handleSendMessage.
  destruct (negb (truthy_string (trim (inputMessage st)))); [exact Hinv|].
  destruct Hinv as [H1 H2 H3 H4 H5].
  constructor; cbn [chatSessions messages isTyping inputMessage localStorage
                    setPendingResponses setIsTyping setInputMessage setMessages];
    try assumption; [|reflexivity].
  apply forallb_snoc; [exact H2 | now apply valid_message_plain].
Qed.

Lemma responseCallback_invariant (responseType t_id t_msg : Z) (st : State) :
  valid_time t_msg = true ->
  invariant st -> invariant (responseCallback responseType t_id t_msg st).
Proof.
  intros Hm [H1 H2 H3 H4 H5]. unfold responseCallback.
  constructor; cbn [chatSessions messages isTyping inputMessage localStorage
                    setPendingResponses setIsTyping setInputMessage setMessages];
    try assumption; [|discriminate].
  apply forallb_snoc; [exact H2 | now apply valid_botResponse].
Qed.

(** Every event keeps the invariant. *)
Lemma handle_invariant (ev : event) (st : State) :
  event_ok ev -> invariant st -> invariant (handle ev st).
Proof.
  intros Hev Hinv. destruct ev; cbn [handle event_ok] in *.
  - apply handleNewChat_invariant; tauto.
  - destruct (List.nth_error (chatSessions st) row); [|exact Hinv].
    destruct (not_editing st); [now apply handleSelectSession_invariant | exact Hinv].
  - destruct (List.nth_error (chatSessions st) row) as [s|]; [|exact Hinv].
    destruct (is_editing s st); [exact Hinv|].
    unfold handleStartEdit.
    now apply invariant_setEditTitle, invariant_setEditingSessionId.
  - destruct (List.nth_error (chatSessions st) row) as [s|]; [|exact Hinv].
    destruct (is_editing s st); [exact Hinv|].
    apply handleDeleteSession_invariant; tauto.
  - destruct (edited_row_id st); [now apply invariant_setEditTitle | exact Hinv].
  - destruct (edited_row_id st) as [sessionId|]; [|exact Hinv].
    assert (H1 : invariant (if jsstring_eqb key (js "Enter")
                            then handleSaveEdit sessionId st else st))
      by (destruct (jsstring_eqb key (js "Enter"));
          [now apply handleSaveEdit_invariant | exact Hinv]).
    destruct (jsstring_eqb key (js "Escape"));
      [now apply invariant_setEditingSessionId | exact H1].
  - destruct (edited_row_id st); [now apply handleSaveEdit_invariant | exact Hinv].
  - destruct (edited_row_id st); [|exact Hinv].
    unfold handleCancelEdit. now apply invariant_setEditingSessionId.
  - unfold textarea_disabled. destruct (isTyping st) eqn:Ht; [exact Hinv|].
    destruct Hinv as [H1 H2 H3 H4 H5]. constructor; try assumption.
    cbn [isTyping setInputMessage]. congruence.
  - unfold textarea_disabled. destruct (isTyping st); [exact Hinv|].
    unfold handleKeyPress.
    destruct (jsstring_eqb key (js "Enter") && negb shiftKey);
      [apply handleSendMessage_invariant; tauto | exact Hinv].
  - destruct (send_disabled st); [exact Hinv|].
    apply handleSendMessage_invariant; tauto.
  - destruct (pendingResponses st); [exact Hinv|].
    apply responseCallback_invariant; tauto.
Qed.

Lemma step_invariant (ev : event) (st : State) :
  event_ok ev -> invariant st -> invariant (step ev st).
Proof.
  intros Hev Hinv. unfold step. now apply afterRender_invariant, handle_invariant.
Qed.

(** ** Reachable states *)

Section ReachableStates.

Variable legacy_date : jsval -> Date.

(** Mounting on an empty slot, or on a slot that holds a well-formed
    list, succeeds and gives a state with the invariant. *)
Lemma mount_invariant (t_session t_msg : Z) (slot : Storage)
    (sessions : list ChatSession.t) :
  valid_time t_session = true -> valid_time t_msg = true ->
  slot = None
  \/ (valid_sessions sessions = true /\ Forall count_ok sessions
      /\ slot = Some (JsonOf (VArr (List.map ChatSession_json sessions)))) ->
  exists st, mount legacy_date t_session t_msg slot = Some st /\ invariant st.
Proof.
  intros Hs Hm Hslot.
  assert (Hfresh :
    forall slot0,
      invariant
        (persist [ChatSession.mk (js "1") (js "BI Assistant Chat") (Some t_session) 1
                    [Message.mk (js "1") bot initialGreeting (Some t_msg) None None]]
           (setMessages
              [Message.mk (js "1") bot initialGreeting (Some t_msg) None None]
              (setCurrentSessionId (js "1")
                 (setChatSessions
                    [ChatSession.mk (js "1") (js "BI Assistant Chat") (Some t_session) 1
                       [Message.mk (js "1") bot initialGreeting (Some t_msg) None None]]
                    (initialState slot0)))))).
  { intro slot0.
    assert (Hmsg : valid_message
                     (Message.mk (js "1") bot initialGreeting (Some t_msg) None None)
                   = true) by now apply valid_message_plain.
    assert (Hv : valid_sessions
                   [ChatSession.mk (js "1") (js "BI Assistant Chat") (Some t_session) 1
                      [Message.mk (js "1") bot initialGreeting (Some t_msg) None None]]
                 = true).
    { unfold valid_sessions, valid_session.
      cbn [List.forallb ChatSession.timestamp ChatSession.messages valid_Date].
      now rewrite Hs, Hmsg. }
    constructor; cbn [chatSessions messages isTyping inputMessage localStorage persist
                      setLocalStorage setMessages setCurrentSessionId setChatSessions
                      initialState].
    - exact Hv.
    - cbn [List.forallb]. now rewrite Hmsg.
    - constructor; [reflexivity | constructor].
    - discriminate.
    - now apply saveChatSessions_json. }
  unfold mount.
  destruct Hslot as [-> | (Hv & Hc & ->)].
  - eexists. split; [reflexivity|]. apply afterRender_invariant, Hfresh.
  - unfold mountEffect. cbn [localStorage initialState].
    rewrite <- (saveChatSessions_json sessions None Hv).
    rewrite load_saved by exact Hv.
    rewrite asChatSessions_toJS.
    destruct sessions as [|first rest].
    + eexists. split; [reflexivity|]. apply afterRender_invariant, Hfresh.
    + replace (0 <? length_of (List.map ChatSession_toJS (first :: rest))) with true
        by (symmetry; apply Z.ltb_lt; unfold length_of; cbn [List.map List.length]; lia).
      eexists. split; [reflexivity|]. apply afterRender_invariant.
      constructor; cbn [chatSessions messages isTyping inputMessage localStorage
                        setMessages setCurrentSessionId setChatSessions initialState].
      * exact Hv.
      * apply valid_session_messages.
        apply (valid_sessions_in (first :: rest)); [exact Hv | now left].
      * exact Hc.
      * discriminate.
      * now apply saveChatSessions_json.
Qed.

(** Every state of the page has the invariant. *)
Lemma reachable_invariant (st : State) : reachable legacy_date st -> invariant st.
Proof.
  induction 1 as [t_session t_msg st Hs Hm Hmount
                 | ev st _ IH Hev
                 | st _ IH
                 | t_session t_msg st st' _ IH Hs Hm Hmount].
  - destruct (mount_invariant t_session t_msg None [] Hs Hm (or_introl eq_refl))
      as (st0 & H0 & Hinv).
    congruence.
  - now apply step_invariant.
  - now apply saveEffect_invariant.
  - destruct (mount_invariant t_session t_msg (localStorage st) (chatSessions st) Hs Hm)
      as (st0 & H0 & Hinv).
    { right. repeat split; apply IH. }
    congruence.
Qed.

(** The page can be reloaded in every state. *)
Lemma reload_succeeds (t_session t_msg : Z) (st : State) :
  reachable legacy_date st ->
  valid_time t_session = true -> valid_time t_msg = true ->
  exists st', mount legacy_date t_session t_msg (localStorage st) = Some st'
              /\ reachable legacy_date st'.
Proof.
  intros Hr Hs Hm. pose proof (reachable_invariant st Hr) as Hinv.
  destruct (mount_invariant t_session t_msg (localStorage st) (chatSessions st) Hs Hm)
    as (st0 & H0 & _).
  { right. repeat split; apply Hinv. }
  exists st0. split; [exact H0|]. now apply (reach_reload _ t_session t_msg st).
Qed.

(** C8.  In every state the page goes through (first visit, then any
    events and reloads, each followed by its render and the saving
    effect) every session of the list has a [messageCount] equal to the
    length of its [messages], and the slot holds that very list. *)
Theorem messageCount_is_transcript_length (st : State) :
  reachable legacy_date st ->
  Forall (fun s => ChatSession.messageCount s
                   = Z.of_nat (List.length (ChatSession.messages s)))
         (chatSessions st)
  /\ exists loaded,
       loadChatSessions legacy_date (localStorage st) = Ok loaded
       /\ asChatSessions loaded = Some (chatSessions st).
Proof.
  intro Hr. destruct (reachable_invariant st Hr) as [Hv _ Hc _ Hslot].
  split; [exact Hc|].
  exists (List.map ChatSession_toJS (chatSessions st)). split.
  - rewrite Hslot, <- (saveChatSessions_json _ None Hv). now apply load_saved.
  - apply asChatSessions_toJS.
Qed.

(** C3.  While a response is awaited the send button and the Enter key
    do nothing, and the text area takes no input: the state, with its
    transcript, its input and its pending timers, is the same after the
    event.  In every state the page goes through the input field is then
    empty, so that [handleSendMessage] itself returns at once. *)
Theorem send_while_awaiting_is_noop (st : State) :
  isTyping st = true ->
  (forall t_id t_msg, step (SendClick t_id t_msg) st = st)
  /\ (forall key shiftKey t_id t_msg, step (InputKeyDown key shiftKey t_id t_msg) st = st)
  /\ (forall text, step (InputChange text) st = st)
  /\ (reachable legacy_date st ->
      forall t_id t_msg key shiftKey,
        handleSendMessage t_id t_msg st = st
        /\ handleKeyPress key shiftKey t_id t_msg st = st
        /\ sendMessage t_id t_msg st = st).
Proof.
  intro Ht.
  assert (Hidle : afterRender st st = st) by now apply afterRender_unchanged.
  repeat split.
  - intros. unfold step, handle, send_disabled. rewrite Ht, orb_true_r. exact Hidle.
  - intros. unfold step, handle, textarea_disabled. rewrite Ht. exact Hidle.
  - intros. unfold step, handle, textarea_disabled. rewrite Ht. exact Hidle.
  - unfold handleSendMessage.
    rewrite (inv_input st (reachable_invariant st H) Ht). reflexivity.
  - unfold handleKeyPress, handleSendMessage.
    rewrite (inv_input st (reachable_invariant st H) Ht).
    now destruct (jsstring_eqb key (js "Enter") && negb shiftKey).
  - unfold sendMessage, handleSendMessage.
    rewrite (inv_input st (reachable_invariant st H) Ht). exact Hidle.
Qed.

End ReachableStates.

(** ** The sample run is a run of the page *)

Lemma visited_reachable : reachable Sample.legacy_date Sample.visited.
Proof.
  apply (reach_first_visit _ 1730500000000 1730500000001); vm_compute; reflexivity.
Qed.

Lemma typed_reachable : reachable Sample.legacy_date Sample.typed.
Proof.
  assert (E : step (InputChange (js " show me sales ")) Sample.visited = Sample.typed)
    by (vm_compute; reflexivity).
  rewrite <- E. apply reach_step; [apply visited_reachable | exact I].
Qed.

Lemma sent_reachable : reachable Sample.legacy_date Sample.sent.
Proof.
  assert (E : step (SendClick 1730500000100 1730500000101) Sample.typed = Sample.sent)
    by (vm_compute; reflexivity).
  rewrite <- E. apply reach_step; [apply typed_reachable|].
  split; vm_compute; reflexivity.
Qed.

Lemma answered_reachable : reachable Sample.legacy_date Sample.answered.
Proof.
  assert (E : step (ResponseTimer 1 1730500002100 1730500002101) Sample.sent
              = Sample.answered) by (vm_compute; reflexivity).
  rewrite <- E. apply reach_step; [apply sent_reachable|].
  repeat split; try lia; vm_compute; reflexivity.
Qed.

Lemma two_sessions_reachable : reachable Sample.legacy_date Sample.two_sessions.
Proof.
  assert (E : step (NewChatClick 1730500003000 1730500003001 1730500003002)
                Sample.answered = Sample.two_sessions) by (vm_compute; reflexivity).
  rewrite <- E. apply reach_step; [apply answered_reachable|].
  repeat split; vm_compute; reflexivity.
Qed.

Lemma messageCount_is_transcript_length_witness :
  Forall (fun s => ChatSession.messageCount s
                   = Z.of_nat (List.length (ChatSession.messages s)))
         (chatSessions Sample.two_sessions)
  /\ exists loaded,
       loadChatSessions Sample.legacy_date (localStorage Sample.two_sessions) = Ok loaded
       /\ asChatSessions loaded = Some (chatSessions Sample.two_sessions).
Proof.
  apply (messageCount_is_transcript_length Sample.legacy_date Sample.two_sessions).
  apply two_sessions_reachable.
Defined.

Lemma send_while_awaiting_is_noop_witness :
  isTyping Sample.sent = true
  /\ step (SendClick 1730500001000 1730500001001) Sample.sent = Sample.sent
  /\ handleSendMessage 1730500001000 1730500001001 Sample.sent = Sample.sent.
Proof.
  assert (Ht : isTyping Sample.sent = true) by (vm_compute; reflexivity).
  destruct (send_while_awaiting_is_noop Sample.legacy_date Sample.sent Ht)
    as (Hclick & _ & _ & Hreach).
  split; [exact Ht|]. split; [apply Hclick|].
  apply (Hreach sent_reachable 1730500001000 1730500001001 (js "Enter") false).
Defined.

(** Outside the states of the page the handler has no guard of its own:
    with the typing flag set and text in the input field, a state no event
    leads to, it appends and sets a timer. *)
Lemma handleSendMessage_has_no_typing_guard :
  isTyping Sample.typing_with_text = true
  /\ List.length (messages (handleSendMessage 5 6 Sample.typing_with_text))
     = S (List.length (messages Sample.typing_with_text))
  /\ pendingResponses (handleSendMessage 5 6 Sample.typing_with_text) = 2%nat.
Proof. vm_compute. repeat split; reflexivity. Qed.

(** * Further properties of the code *)

(** ** More on strings *)

Lemma trimStart_split (s : jsstring) :
  exists pre, s = pre ++ trimStart s /\ List.forallb is_white_space pre = true.
Proof.
  induction s as [|c s (pre & Hs & Hpre)].
  - now exists [].
  - cbn [trimStart]. destruct (is_white_space c) eqn:E.
    + exists (c :: pre). cbn [app List.forallb]. rewrite E, Hpre. split; [congruence | reflexivity].
    + now exists [].
Qed.

Lemma trimStart_head (s : jsstring) (c : N) (r : jsstring) :
  trimStart s = c :: r -> is_white_space c = false.
Proof.
  induction s as [|x s IH]; [discriminate|].
  cbn [trimStart]. destruct (is_white_space x) eqn:E; [exact IH|].
  intro H. injection H as -> _. exact E.
Qed.

Lemma trimStart_fixed (s : jsstring) :
  (forall c r, s = c :: r -> is_white_space c = false) -> trimStart s = s.
Proof.
  destruct s as [|c r]; [reflexivity|]. intro H.
  cbn [trimStart]. now rewrite (H c r eq_refl).
Qed.

Lemma trimEnd_split (s : jsstring) :
  exists post, s = trimEnd s ++ post /\ List.forallb is_white_space post = true.
Proof.
  destruct (trimStart_split (rev s)) as (pre & Hs & Hpre).
  exists (rev pre). split.
  - unfold trimEnd. rewrite <- rev_app_distr, <- Hs. now rewrite rev_involutive.
  - rewrite forallb_forall in *. intros x Hx. apply Hpre. now apply in_rev.
Qed.

(** The trimmed string has no white space at its ends. *)
Lemma trim_no_space_at_ends (s : jsstring) : no_space_at_ends (trim s).
Proof.
  unfold trim. split.
  - intros c r H. destruct (trimEnd_split (trimStart s)) as (post & Hs & _).
    rewrite H in Hs. cbn [app] in Hs. now apply trimStart_head in Hs.
  - intros c r H. unfold trimEnd in H. rewrite rev_involutive in H.
    now apply trimStart_head in H.
Qed.

Lemma no_space_at_ends_trim (s : jsstring) : no_space_at_ends s -> trim s = s.
Proof.
  intros [Hhead Hlast]. unfold trim, trimEnd.
  rewrite (trimStart_fixed s Hhead), (trimStart_fixed (rev s) Hlast).
  apply rev_involutive.
Qed.

(** The string is its trimmed form between two runs of white space. *)
Lemma trim_split (s : jsstring) :
  exists pre post,
    s = pre ++ trim s ++ post
    /\ List.forallb is_white_space pre = true
    /\ List.forallb is_white_space post = true.
Proof.
  destruct (trimStart_split s) as (pre & Hs & Hpre).
  destruct (trimEnd_split (trimStart s)) as (post & Ht & Hpost).
  exists pre, post. unfold trim. now rewrite <- Ht.
Qed.

Lemma no_space_at_ends_literal (s : jsstring) :
  match s with [] => true | c :: _ => negb (is_white_space c) end
  && match rev s with [] => true | c :: _ => negb (is_white_space c) end = true ->
  no_space_at_ends s.
Proof.
  intro H. apply andb_true_iff in H as [H1 H2]. split; intros c r E; rewrite E in *;
    now apply negb_true_iff.
Qed.

Lemma digits_fuel_nonempty (fuel : nat) (n : Z) (acc : jsstring) :
  acc <> [] \/ fuel <> O -> digits_fuel fuel n acc <> [].
Proof.
  revert n acc. induction fuel as [|fuel IH]; intros n acc H.
  - cbn. destruct H; congruence.
  - cbn [digits_fuel]. destruct (n / 10 =? 0); [discriminate|].
    apply IH. left. discriminate.
Qed.

(** The decimal form of a number is not the empty string. *)
Lemma Number_toString_nonempty (n : Z) : Number_toString n <> [].
Proof.
  unfold Number_toString. destruct (n <? 0); [discriminate|].
  apply digits_fuel_nonempty. right. discriminate.
Qed.

(** ** The equality tests decide equality *)

Lemma Date_eqb_eq (a b : Date) : Date_eqb a b = true -> a = b.
Proof.
  destruct a, b; cbn; try discriminate; try reflexivity.
  intro H. apply Z.eqb_eq in H. now subst.
Qed.

Lemma jsval_eqb_eq (a : jsval) : forall b, jsval_eqb a b = true -> a = b.
Proof.
  induction a as [| x | x | x | x | elems IH | props IH] using jsval_ind;
    intros [| y | y | y | y | ys | ys] H; cbn in H; try discriminate; try reflexivity.
  - apply Bool.eqb_prop in H. now subst.
  - apply Z.eqb_eq in H. now subst.
  - apply jsstring_eqb_eq in H. now subst.
  - apply Date_eqb_eq in H. now subst.
  - f_equal. revert ys H.
    induction IH as [|x l Hx _ IHl]; intros [|y ys] H; try discriminate; [reflexivity|].
    apply andb_true_iff in H as [H1 H2]. f_equal; [now apply Hx | now apply IHl].
  - f_equal. revert ys H.
    induction IH as [|[k x] l Hx _ IHl]; intros [|[k' y] ys] H; try discriminate;
      [reflexivity|].
    apply andb_true_iff in H as [H1 H2]. apply andb_true_iff in H1 as [Hk H1].
    apply jsstring_eqb_eq in Hk. cbn [snd] in Hx.
    f_equal; [f_equal; [exact Hk | now apply Hx] | now apply IHl].
Qed.

Lemma option_eqb_eq {A : Type} (eqb : A -> A -> bool) (a b : option A) :
  (forall x y, eqb x y = true -> x = y) -> option_eqb eqb a b = true -> a = b.
Proof.
  intro H. destruct a, b; cbn; try discriminate; try reflexivity.
  intro E. f_equal. now apply H.
Qed.

Lemma Message_eqb_eq (a b : Message.t) : Message_eqb a b = true -> a = b.
Proof.
  destruct a as [i ty c d cs td], b as [i' ty' c' d' cs' td'].
  unfold Message_eqb. cbn [Message.id Message.type Message.content Message.timestamp
                           Message.chartSpec Message.tableData].
  intro H. repeat (apply andb_true_iff in H; destruct H as [H ?]).
  apply jsstring_eqb_eq in H.
  repeat match goal with
         | E : jsstring_eqb _ _ = true |- _ => apply jsstring_eqb_eq in E
         | E : Date_eqb _ _ = true |- _ => apply Date_eqb_eq in E
         | E : option_eqb _ _ _ = true |- _ => apply (option_eqb_eq jsval_eqb) in E;
             [|apply jsval_eqb_eq]
         end.
  subst. destruct ty, ty'; try discriminate; reflexivity.
Qed.

Lemma list_eqb_eq {A : Type} (eqb : A -> A -> bool) (l1 l2 : list A) :
  (forall x y, eqb x y = true -> x = y) -> list_eqb eqb l1 l2 = true -> l1 = l2.
Proof.
  intro H. revert l2. induction l1 as [|x l1 IH]; intros [|y l2]; cbn;
    try discriminate; try reflexivity.
  intro E. apply andb_true_iff in E as [E1 E2]. f_equal; [now apply H | now apply IH].
Qed.

(** No dependency changed: the transcript and the active id are the same. *)
Lemma deps_unchanged_eq (prev st : State) :
  deps_changed prev st = false ->
  messages st = messages prev /\ currentSessionId st = currentSessionId prev.
Proof.
  unfold deps_changed. intro H. apply orb_false_iff in H as [H1 H2].
  apply negb_false_iff in H1, H2. split.
  - symmetry. apply (list_eqb_eq Message_eqb); [apply Message_eqb_eq | exact H1].
  - symmetry. now apply jsstring_eqb_eq.
Qed.

(** ** The settled state *)

Lemma in_synced (st : State) (s : ChatSession.t) :
  In s (synced st) ->
  exists s0, In s0 (chatSessions st)
    /\ ChatSession.id s = ChatSession.id s0
    /\ ChatSession.title s = ChatSession.title s0
    /\ (ChatSession.id s0 = currentSessionId st /\ ChatSession.messages s = messages st
        \/ ChatSession.id s0 <> currentSessionId st /\ s = s0).
Proof.
  unfold synced. intro H. apply in_map_iff in H as (s0 & <- & Hin).
  exists s0. split; [exact Hin|].
  destruct (jsstring_eqb (ChatSession.id s0) (currentSessionId st)) eqn:E.
  - apply jsstring_eqb_eq in E. repeat split. now left.
  - apply jsstring_eqb_neq in E. repeat split. now right.
Qed.

Lemma synced_in (st : State) (s0 : ChatSession.t) :
  In s0 (chatSessions st) ->
  exists s, In s (synced st) /\ ChatSession.id s = ChatSession.id s0.
Proof.
  intro H. unfold synced.
  exists (if jsstring_eqb (ChatSession.id s0) (currentSessionId st)
          then with_messages (messages st) s0 else s0).
  split; [now apply (in_map (fun s => if jsstring_eqb (ChatSession.id s) (currentSessionId st)
                                      then with_messages (messages st) s else s))|].
  now destruct (jsstring_eqb (ChatSession.id s0) (currentSessionId st)).
Qed.

(** After the saving effect has run the state is settled. *)
Lemma synced_settled (prev st : State) :
  settled_but_for_render prev st ->
  settled (setChatSessions (synced st) (persist (synced st) st)).
Proof.
  intros [Hids Htitles Hts Ht Hact Hsame Hsync Hpend Hpay Hstored].
  constructor; cbn [chatSessions messages currentSessionId isTyping pendingResponses
                    setChatSessions persist setLocalStorage].
  - intros s Hs. apply in_synced in Hs as (s0 & Hin & Hid & _). rewrite Hid. now apply Hids.
  - intros s Hs. apply in_synced in Hs as (s0 & Hin & _ & Hti & _). rewrite Hti.
    now apply Htitles.
  - intros s Hs. apply in_synced in Hs as (s0 & Hin & _ & _ & [[_ Hm] | [_ ->]]).
    + now rewrite Hm.
    + now apply Hts.
  - exact Ht.
  - destruct Hact as (s0 & Hin & Hid). destruct (synced_in st s0 Hin) as (s & Hs & Hid').
    exists s. split; [exact Hs | congruence].
  - intros s1 s2 H1 H2 Hid.
    apply in_synced in H1 as (a & Ha & Hida & _ & Hca).
    apply in_synced in H2 as (b & Hb & Hidb & _ & Hcb).
    destruct Hca as [[Ea Hma] | [Na ->]], Hcb as [[Eb Hmb] | [Nb ->]]; try congruence.
    apply Hsame; try assumption.
  - intros s Hs Hid. apply in_synced in Hs as (s0 & Hin & Hid0 & _ & [[_ Hm] | [N _]]);
      [exact Hm | congruence].
  - exact Hpend.
  - exact Hpay.
  - intros s m Hs Hm. apply in_synced in Hs as (s0 & Hin & _ & _ & [[_ E] | [_ ->]]).
    + rewrite E in Hm. now apply Hpay.
    + now apply (Hstored s0).
Qed.

Lemma settled_if_synced (prev st : State) :
  settled_but_for_render prev st ->
  (forall s, In s (chatSessions st) -> ChatSession.id s = currentSessionId st ->
     ChatSession.messages s = messages st) ->
  settled st.
Proof.
  intros [Hids Htitles Hts Ht Hact Hsame _ Hpend Hpay Hstored] Hsync.
  constructor; try assumption.
  intros s1 s2 H1 H2 Hid.
  destruct (list_eq_dec N.eq_dec (ChatSession.id s1) (currentSessionId st)) as [E | N].
  - rewrite (Hsync s1 H1 E), (Hsync s2 H2); congruence.
  - now apply Hsame.
Qed.

Lemma pre_truthy (prev st : State) :
  settled_but_for_render prev st ->
  truthy_string (currentSessionId st) && (0 <? length_of (messages st)) = true.
Proof.
  intros H. apply andb_true_iff. split.
  - destruct (pre_active prev st H) as (s & Hin & <-).
    apply truthy_string_true. now apply (pre_ids prev st H).
  - apply Z.ltb_lt. pose proof (pre_transcript prev st H) as Hne.
    unfold length_of. destruct (messages st); [congruence | cbn; lia].
Qed.

Lemma saveEffect_settled (prev st : State) :
  settled_but_for_render prev st -> settled (saveEffect st).
Proof.
  intro H. unfold saveEffect, saveCurrentSession. rewrite (pre_truthy prev st H).
  now apply (synced_settled prev).
Qed.

(** The render after a handler settles the state. *)
Lemma afterRender_settled (prev st : State) :
  settled_but_for_render prev st -> settled (afterRender prev st).
Proof.
  intro H. unfold afterRender. destruct (deps_changed prev st) eqn:E.
  - now apply (saveEffect_settled prev).
  - apply deps_unchanged_eq in E as [Hm Hc].
    apply (settled_if_synced prev); [exact H|]. now apply (pre_sync prev st H).
Qed.

Lemma settled_pre (st : State) : settled st -> settled_but_for_render st st.
Proof.
  intros [Hids Htitles Hts Ht Hact Hsame Hsync Hpend Hpay Hstored].
  constructor; try assumption.
  - intros. now apply Hsame.
  - intros _ _. exact Hsync.
Qed.

(** A handler that leaves the list, the transcript and the active id. *)
Lemma settled_frame (st h : State) :
  settled st ->
  chatSessions h = chatSessions st -> messages h = messages st ->
  currentSessionId h = currentSessionId st ->
  pendingResponses h = (if isTyping h then 1%nat else 0%nat) ->
  settled_but_for_render st h.
Proof.
  intros [Hids Htitles Hts Ht Hact Hsame Hsync Hpend Hpay Hstored] Hs Hm Hc Hp.
  constructor; rewrite ?Hs, ?Hm, ?Hc; try assumption.
  - intros. now apply Hsame.
  - intros _ _. exact Hsync.
Qed.

Lemma find_by_id (l : list ChatSession.t) (session : ChatSession.t) :
  In session l ->
  exists found,
    List.find (fun s => jsstring_eqb (ChatSession.id s) (ChatSession.id session)) l
    = Some found
    /\ In found l /\ ChatSession.id found = ChatSession.id session.
Proof.
  intro Hin.
  destruct (List.find (fun s => jsstring_eqb (ChatSession.id s) (ChatSession.id session)) l)
    as [found|] eqn:Hf.
  - apply find_some in Hf as [Hfin Hid]. apply jsstring_eqb_eq in Hid. now exists found.
  - apply (find_none _ _ Hf) in Hin. cbn in Hin. now rewrite jsstring_eqb_refl in Hin.
Qed.

Lemma own_payloads_plain (i : jsstring) (ty : MessageType) (c : jsstring) (d : Date) :
  own_payloads (Message.mk i ty c d None None).
Proof. left. split; reflexivity. Qed.

Lemma own_payloads_botResponse (responseType t_id t_msg : Z) :
  own_payloads (botResponse responseType t_id t_msg).
Proof.
  unfold botResponse, own_payloads.
  destruct (responseType =? 0); [|destruct (responseType =? 1)]; cbn; tauto.
Qed.

Lemma title_new_chat : js "New BI Chat" <> [] /\ no_space_at_ends (js "New BI Chat").
Proof. split; [discriminate | now apply no_space_at_ends_literal]. Qed.

Lemma title_default :
  js "BI Assistant Chat" <> [] /\ no_space_at_ends (js "BI Assistant Chat").
Proof. split; [discriminate | now apply no_space_at_ends_literal]. Qed.

Lemma handleNewChat_pre (t_msg t_id t_session : Z) (st : State) :
  settled st -> settled_but_for_render st (handleNewChat t_msg t_id t_session st).
Proof.
  intros [Hids Htitles Hts Ht Hact Hsame Hsync Hpend Hpay Hstored].
  unfold handleNewChat.
  constructor; cbn [chatSessions messages currentSessionId isTyping pendingResponses
                    setMessages setCurrentSessionId setChatSessions persist
                    setLocalStorage ChatSession.id ChatSession.title ChatSession.messages].
  - intros s [<- | Hs]; [apply Number_toString_nonempty | now apply Hids].
  - intros s [<- | Hs]; [apply title_new_chat | now apply Htitles].
  - intros s [<- | Hs]; [discriminate | now apply Hts].
  - discriminate.
  - eexists. split; [now left | reflexivity].
  - intros s1 s2 [<- | H1] [<- | H2] Hid Hne; cbn in *; try congruence.
    now apply Hsame.
  - intros Hm Hc s [<- | Hs] Hid; [reflexivity|].
    rewrite Hm. apply Hsync; [exact Hs | congruence].
  - exact Hpend.
  - intros m [<- | []]. apply own_payloads_plain.
  - intros s m [<- | Hs] Hm.
    + destruct Hm as [<- | []]. apply own_payloads_plain.
    + now apply (Hstored s).
Qed.

Lemma handleSelectSession_pre (session : ChatSession.t) (st : State) :
  settled st -> In session (chatSessions st) ->
  settled_but_for_render st (handleSelectSession (ChatSession.id session) st).
Proof.
  intros [Hids Htitles Hts Ht Hact Hsame Hsync Hpend Hpay Hstored] Hin.
  unfold handleSelectSession.
  destruct (find_by_id _ _ Hin) as (found & -> & Hfin & Hfid).
  constructor; cbn [chatSessions messages currentSessionId isTyping pendingResponses
                    setMessages setCurrentSessionId]; try assumption.
  - now apply Hts.
  - now exists found.
  - intros. now apply Hsame.
  - intros Hm Hc s Hs Hid. rewrite Hm. apply Hsync; [exact Hs | congruence].
  - intros m Hm. now apply (Hstored found).
Qed.

Lemma in_without (sessionId : jsstring) (l : list ChatSession.t) (s : ChatSession.t) :
  In s (without sessionId l) <-> In s l /\ ChatSession.id s <> sessionId.
Proof.
  unfold without. rewrite filter_In, negb_true_iff, jsstring_eqb_neq. tauto.
Qed.

Lemma handleDeleteSession_pre (t_id t_session t_msg : Z) (sessionId : jsstring)
    (st : State) :
  settled st ->
  settled_but_for_render st (handleDeleteSession t_id t_session t_msg sessionId st).
Proof.
  intros [Hids Htitles Hts Ht Hact Hsame Hsync Hpend Hpay Hstored].
  unfold handleDeleteSession.
  destruct (without sessionId (chatSessions st)) as [|first rest] eqn:Hw.
  - unfold replacementSession.
    constructor; cbn [chatSessions messages currentSessionId isTyping pendingResponses
                      setMessages setCurrentSessionId setChatSessions persist
                      setLocalStorage ChatSession.id ChatSession.title
                      ChatSession.messages].
    + intros s [<- | []]. apply Number_toString_nonempty.
    + intros s [<- | []]. apply title_default.
    + intros s [<- | []]. discriminate.
    + discriminate.
    + eexists. split; [now left | reflexivity].
    + intros s1 s2 [<- | []] [<- | []]. reflexivity.
    + intros _ _ s [<- | []] _. reflexivity.
    + exact Hpend.
    + intros m [<- | []]. apply own_payloads_plain.
    + intros s m [<- | []] [<- | []]. apply own_payloads_plain.
  - assert (Hsub : forall s, In s (first :: rest) ->
                             In s (chatSessions st) /\ ChatSession.id s <> sessionId)
      by (intros s Hs; rewrite <- Hw in Hs; now apply in_without in Hs).
    destruct (jsstring_eqb (currentSessionId st) sessionId) eqn:Ecur.
    + apply jsstring_eqb_eq in Ecur.
      destruct (Hsub first (or_introl eq_refl)) as [Hfin Hfid].
      constructor; cbn [chatSessions messages currentSessionId isTyping pendingResponses
                        setMessages setCurrentSessionId setChatSessions persist
                        setLocalStorage].
      * intros s Hs. now apply Hids, Hsub.
      * intros s Hs. now apply Htitles, Hsub.
      * intros s Hs. now apply Hts, Hsub.
      * now apply Hts.
      * exists first. split; [now left | reflexivity].
      * intros s1 s2 H1 H2 Hid _. apply Hsame; [now apply Hsub | now apply Hsub | exact Hid].
      * intros _ Hc. congruence.
      * exact Hpend.
      * intros m Hm. now apply (Hstored first).
      * intros s m Hs Hm. apply (Hstored s); [now apply Hsub | exact Hm].
    + apply jsstring_eqb_neq in Ecur.
      constructor; cbn [chatSessions messages currentSessionId isTyping pendingResponses
                        setChatSessions persist setLocalStorage].
      * intros s Hs. now apply Hids, Hsub.
      * intros s Hs. now apply Htitles, Hsub.
      * intros s Hs. now apply Hts, Hsub.
      * exact Ht.
      * destruct Hact as (s & Hs & Hid). exists s. split; [|exact Hid].
        rewrite <- Hw. apply in_without. split; [exact Hs | congruence].
      * intros s1 s2 H1 H2 Hid _. apply Hsame; [now apply Hsub | now apply Hsub | exact Hid].
      * intros _ _ s Hs Hid. apply Hsync; [now apply Hsub | exact Hid].
      * exact Hpend.
      * exact Hpay.
      * intros s m Hs Hm. apply (Hstored s); [now apply Hsub | exact Hm].
Qed.

Lemma handleRenameSession_pre (sessionId newTitle : jsstring) (st : State) :
  newTitle <> [] -> no_space_at_ends newTitle ->
  settled st -> settled_but_for_render st (handleRenameSession sessionId newTitle st).
Proof.
  intros Hne Hclean [Hids Htitles Hts Ht Hact Hsame Hsync Hpend Hpay Hstored].
  unfold handleRenameSession.
  set (f := fun session : ChatSession.t =>
              if jsstring_eqb (ChatSession.id session) sessionId
              then with_title newTitle session else session).
  assert (Hf : forall s, ChatSession.id (f s) = ChatSession.id s
                         /\ ChatSession.messages (f s) = ChatSession.messages s
                         /\ (ChatSession.title (f s) = newTitle
                             \/ ChatSession.title (f s) = ChatSession.title s)).
  { intro s. unfold f. destruct (jsstring_eqb (ChatSession.id s) sessionId); cbn; tauto. }
  constructor; cbn [chatSessions messages currentSessionId isTyping pendingResponses
                    setChatSessions persist setLocalStorage].
  - intros s Hs. apply in_map_iff in Hs as (s0 & <- & H0).
    destruct (Hf s0) as (-> & _). now apply Hids.
  - intros s Hs. apply in_map_iff in Hs as (s0 & <- & H0).
    destruct (Hf s0) as (_ & _ & [-> | ->]); [now split | now apply Htitles].
  - intros s Hs. apply in_map_iff in Hs as (s0 & <- & H0).
    destruct (Hf s0) as (_ & -> & _). now apply Hts.
  - exact Ht.
  - destruct Hact as (s & Hs & Hid). exists (f s). split; [now apply in_map|].
    now destruct (Hf s) as (-> & _).
  - intros s1 s2 H1 H2 Hid _.
    apply in_map_iff in H1 as (a & <- & Ha). apply in_map_iff in H2 as (b & <- & Hb).
    destruct (Hf a) as (Ea & -> & _), (Hf b) as (Eb & -> & _).
    apply Hsame; congruence.
  - intros _ _ s Hs Hid. apply in_map_iff in Hs as (s0 & <- & H0).
    destruct (Hf s0) as (E & -> & _). apply Hsync; congruence.
  - exact Hpend.
  - exact Hpay.
  - intros s m Hs Hm. apply in_map_iff in Hs as (s0 & <- & H0).
    destruct (Hf s0) as (_ & E & _). rewrite E in Hm. now apply (Hstored s0).
Qed.

Lemma handleSaveEdit_pre (sessionId : jsstring) (st : State) :
  settled st -> settled_but_for_render st (handleSaveEdit sessionId st).
Proof.
  intro H. unfold handleSaveEdit.
  destruct (truthy_string (trim (editTitle st))) eqn:E.
  - apply truthy_string_true in E.
    destruct (handleRenameSession_pre sessionId (trim (editTitle st)) st E
                (trim_no_space_at_ends _) H).
    now constructor.
  - apply (settled_frame st); try reflexivity; [exact H | apply H].
Qed.

Lemma app_last_neq {A : Type} (l : list A) (x : A) : l ++ [x] <> l.
Proof.
  intro H. apply (f_equal (@List.length A)) in H. rewrite length_app in H. cbn in H. lia.
Qed.

Lemma handleSendMessage_pre (t_id t_msg : Z) (st : State) :
  isTyping st = false ->
  settled st -> settled_but_for_render st (handleSendMessage t_id t_msg st).
Proof.
  intros Hidle H. unfold handleSendMessage.
  destruct (negb (truthy_string (trim (inputMessage st)))); [now apply settled_pre|].
  destruct H as [Hids Htitles Hts Ht Hact Hsame Hsync Hpend Hpay Hstored].
  rewrite Hidle in Hpend.
  constructor; cbn [chatSessions messages currentSessionId isTyping pendingResponses
                    setMessages setInputMessage setIsTyping setPendingResponses];
    try assumption.
  - intro E. now apply app_eq_nil in E as [_ E].
  - intros. now apply Hsame.
  - intros Hm _. now apply app_last_neq in Hm.
  - now rewrite Hpend.
  - intros m Hm. apply in_app_iff in Hm as [Hm | [<- | []]];
      [now apply Hpay | apply own_payloads_plain].
Qed.

Lemma responseCallback_pre (responseType t_id t_msg : Z) (st : State) :
  pendingResponses st <> O ->
  settled st -> settled_but_for_render st (responseCallback responseType t_id t_msg st).
Proof.
  intros Hp [Hids Htitles Hts Ht Hact Hsame Hsync Hpend Hpay Hstored].
  unfold responseCallback.
  constructor; cbn [chatSessions messages currentSessionId isTyping pendingResponses
                    setMessages setIsTyping setPendingResponses];
    try assumption.
  - intro E. now apply app_eq_nil in E as [_ E].
  - intros. now apply Hsame.
  - intros Hm _. now apply app_last_neq in Hm.
  - rewrite Hpend in *. now destruct (isTyping st).
  - intros m Hm. apply in_app_iff in Hm as [Hm | [<- | []]];
      [now apply Hpay | apply own_payloads_botResponse].
Qed.

(** Every event of the page leads from a settled state to a state that
    the render settles. *)
Lemma handle_pre (ev : event) (st : State) :
  settled st -> settled_but_for_render st (handle ev st).
Proof.
  intro H. pose proof (settled_pre st H) as Hsame.
  assert (Hedit : forall v, settled_but_for_render st (setEditingSessionId v st))
    by (intro v; apply (settled_frame st); try reflexivity; [exact H | apply H]).
  assert (Htitle : forall v, settled_but_for_render st (setEditTitle v st))
    by (intro v; apply (settled_frame st); try reflexivity; [exact H | apply H]).
  destruct ev; cbn [handle].
  - now apply handleNewChat_pre.
  - destruct (List.nth_error (chatSessions st) row) as [s|] eqn:E; [|exact Hsame].
    destruct (not_editing st); [|exact Hsame].
    apply handleSelectSession_pre; [exact H | now apply nth_error_In in E].
  - destruct (List.nth_error (chatSessions st) row) as [s|]; [|exact Hsame].
    destruct (is_editing s st); [exact Hsame|].
    unfold handleStartEdit. apply (settled_frame st); try reflexivity; [exact H | apply H].
  - destruct (List.nth_error (chatSessions st) row) as [s|]; [|exact Hsame].
    destruct (is_editing s st); [exact Hsame | now apply handleDeleteSession_pre].
  - destruct (edited_row_id st); [apply Htitle | exact Hsame].
  - destruct (edited_row_id st) as [sessionId|]; [|exact Hsame].
    assert (H1 : settled_but_for_render st
                   (if jsstring_eqb key (js "Enter")
                    then handleSaveEdit sessionId st else st))
      by (destruct (jsstring_eqb key (js "Enter"));
          [now apply handleSaveEdit_pre | exact Hsame]).
    destruct (jsstring_eqb key (js "Escape")); [|exact H1].
    destruct H1. now constructor.
  - destruct (edited_row_id st); [now apply handleSaveEdit_pre | exact Hsame].
  - destruct (edited_row_id st); [apply Hedit | exact Hsame].
  - unfold textarea_disabled. destruct (isTyping st) eqn:Ht; [exact Hsame|].
    apply (settled_frame st); try reflexivity; [exact H|].
    cbn [pendingResponses isTyping setInputMessage]. apply H.
  - unfold textarea_disabled. destruct (isTyping st) eqn:Ht; [exact Hsame|].
    unfold handleKeyPress.
    destruct (jsstring_eqb key (js "Enter") && negb shiftKey);
      [now apply handleSendMessage_pre | exact Hsame].
  - unfold send_disabled. destruct (isTyping st) eqn:Ht.
    + rewrite orb_true_r. exact Hsame.
    + destruct (negb (truthy_string (trim (inputMessage st))) || false);
        [exact Hsame | now apply handleSendMessage_pre].
  - destruct (pendingResponses st) eqn:Ep; [exact Hsame|].
    apply responseCallback_pre; [congruence | exact H].
Qed.

Lemma step_settled (ev : event) (st : State) : settled st -> settled (step ev st).
Proof. intro H. unfold step. now apply afterRender_settled, handle_pre. Qed.

(** ** What the saving effect finds already done *)

Lemma with_messages_same (s : ChatSession.t) :
  count_ok s -> with_messages (ChatSession.messages s) s = s.
Proof. destruct s as [i ti d n ms]. unfold count_ok. cbn. now intros ->. Qed.

Lemma synced_fixed (st : State) :
  (forall s, In s (chatSessions st) -> ChatSession.id s = currentSessionId st ->
     ChatSession.messages s = messages st) ->
  Forall count_ok (chatSessions st) ->
  synced st = chatSessions st.
Proof.
  intros Hsync Hcount. unfold synced.
  rewrite <- (map_id (chatSessions st)) at 2. apply map_ext_in. intros s Hs.
  destruct (jsstring_eqb (ChatSession.id s) (currentSessionId st)) eqn:E; [|reflexivity].
  apply jsstring_eqb_eq in E. rewrite <- (Hsync s Hs E).
  apply with_messages_same. rewrite Forall_forall in Hcount. now apply Hcount.
Qed.

Lemma state_rewritten (st : State) :
  setChatSessions (chatSessions st) (setLocalStorage (localStorage st) st) = st.
Proof. now destruct st. Qed.

(** In a settled state with the invariant the saving effect changes
    nothing: the list and the slot hold the transcript already. *)
Lemma saveCurrentSession_fixed (st : State) :
  invariant st -> settled st -> saveCurrentSession st = st.
Proof.
  intros Hinv Hset. unfold saveCurrentSession.
  rewrite (pre_truthy st st (settled_pre st Hset)).
  fold (synced st).
  rewrite (synced_fixed st (set_sync st Hset) (inv_count st Hinv)).
  unfold persist.
  rewrite (saveChatSessions_json _ _ (inv_sessions st Hinv)), <- (inv_slot st Hinv).
  apply state_rewritten.
Qed.

Lemma saveEffect_fixed (st : State) : invariant st -> settled st -> saveEffect st = st.
Proof.
  intros Hinv Hset. unfold saveEffect.
  rewrite (pre_truthy st st (settled_pre st Hset)). now apply saveCurrentSession_fixed.
Qed.

Lemma afterRender_fixed (prev st : State) :
  invariant st -> settled st -> afterRender prev st = st.
Proof.
  intros Hinv Hset. unfold afterRender.
  destruct (deps_changed prev st); [now apply saveEffect_fixed | reflexivity].
Qed.

(** ** Mounting, in full *)

Section MountInFull.

Variable legacy_date : jsval -> Date.

Lemma startedState_invariant (t_session t_msg : Z) (slot : Storage) :
  valid_time t_session = true -> valid_time t_msg = true ->
  invariant (startedState t_session t_msg slot).
Proof.
  intros Hs Hm.
  assert (Hmsg : valid_message
                   (Message.mk (js "1") bot initialGreeting (Some t_msg) None None) = true)
    by now apply valid_message_plain.
  assert (Hv : valid_sessions [initialSession t_session t_msg] = true).
  { unfold valid_sessions, valid_session, initialSession.
    cbn [List.forallb ChatSession.timestamp ChatSession.messages valid_Date].
    now rewrite Hs, Hmsg. }
  unfold startedState.
  constructor; cbn [chatSessions messages isTyping inputMessage localStorage persist
                    setLocalStorage setMessages setCurrentSessionId setChatSessions
                    initialState].
  - exact Hv.
  - unfold initialSession. cbn [ChatSession.messages List.forallb]. now rewrite Hmsg.
  - constructor; [reflexivity | constructor].
  - discriminate.
  - now apply saveChatSessions_json.
Qed.

Lemma startedState_settled (t_session t_msg : Z) (slot : Storage) :
  settled (startedState t_session t_msg slot).
Proof.
  unfold startedState, initialSession.
  constructor; cbn [chatSessions messages currentSessionId isTyping pendingResponses
                    persist setLocalStorage setMessages setCurrentSessionId
                    setChatSessions initialState ChatSession.id ChatSession.title
                    ChatSession.messages].
  - intros s [<- | []]. discriminate.
  - intros s [<- | []]. apply title_default.
  - intros s [<- | []]. discriminate.
  - discriminate.
  - eexists. split; [now left | reflexivity].
  - intros s1 s2 [<- | []] [<- | []]. reflexivity.
  - intros s [<- | []] _. reflexivity.
  - reflexivity.
  - intros m [<- | []]. apply own_payloads_plain.
  - intros s m [<- | []] [<- | []]. apply own_payloads_plain.
Qed.

(** When nothing is loaded the page starts with the default session. *)
Lemma mount_nothing_loaded (t_session t_msg : Z) (slot : Storage) :
  loadChatSessions legacy_date slot = Ok [] ->
  mount legacy_date t_session t_msg slot = Some (startedState t_session t_msg slot).
Proof.
  intros Hload. unfold mount, mountEffect.
  cbn [localStorage initialState]. rewrite Hload.
  change (0 <? length_of (@nil jsval)) with false. cbv beta iota.
  fold (initialSession t_session t_msg).
  fold (startedState t_session t_msg slot).
  reflexivity.
Qed.

Lemma loadedState_invariant (first : ChatSession.t) (rest : list ChatSession.t) :
  valid_sessions (first :: rest) = true -> Forall count_ok (first :: rest) ->
  invariant (loadedState first rest
               (Some (JsonOf (VArr (List.map ChatSession_json (first :: rest)))))).
Proof.
  intros Hv Hc. unfold loadedState.
  constructor; cbn [chatSessions messages isTyping inputMessage localStorage
                    setMessages setCurrentSessionId setChatSessions initialState].
  - exact Hv.
  - apply valid_session_messages.
    apply (valid_sessions_in (first :: rest)); [exact Hv | now left].
  - exact Hc.
  - discriminate.
  - reflexivity.
Qed.

(** When the slot holds a list the page starts with that list, its first
    session active. *)
Lemma mount_saved (t_session t_msg : Z) (first : ChatSession.t)
    (rest : list ChatSession.t) :
  valid_sessions (first :: rest) = true -> Forall count_ok (first :: rest) ->
  (forall s, In s (first :: rest) -> ChatSession.id s = ChatSession.id first ->
     ChatSession.messages s = ChatSession.messages first) ->
  mount legacy_date t_session t_msg
    (Some (JsonOf (VArr (List.map ChatSession_json (first :: rest)))))
  = Some
      (afterRender
         (initialState (Some (JsonOf (VArr (List.map ChatSession_json (first :: rest))))))
         (loadedState first rest
            (Some (JsonOf (VArr (List.map ChatSession_json (first :: rest))))))).
Proof.
  intros Hv Hc Hsame. unfold mount, mountEffect. cbn [localStorage initialState].
  rewrite <- (saveChatSessions_json (first :: rest) None Hv).
  rewrite load_saved by exact Hv.
  rewrite asChatSessions_toJS.
  replace (0 <? length_of (List.map ChatSession_toJS (first :: rest))) with true
    by (symmetry; apply Z.ltb_lt; unfold length_of; cbn [List.map List.length]; lia).
  reflexivity.
Qed.

Lemma loadedState_settled (first : ChatSession.t) (rest : list ChatSession.t)
    (slot : Storage) (st : State) :
  settled st -> chatSessions st = first :: rest ->
  settled (loadedState first rest slot).
Proof.
  intros [Hids Htitles Hts Ht Hact Hsame Hsync Hpend Hpay Hstored] E.
  rewrite E in *. unfold loadedState.
  constructor; cbn [chatSessions messages currentSessionId isTyping pendingResponses
                    setMessages setCurrentSessionId setChatSessions initialState];
    try assumption.
  - apply Hts. now left.
  - exists first. split; [now left | reflexivity].
  - intros s Hs Hid. apply Hsame; [exact Hs | now left | exact Hid].
  - reflexivity.
  - intros m Hm. apply (Hstored first); [now left | exact Hm].
Qed.

(** The page after a reload, in full. *)
Lemma mount_reload (t_session t_msg : Z) (st : State) :
  invariant st -> settled st ->
  exists first rest,
    chatSessions st = first :: rest
    /\ mount legacy_date t_session t_msg (localStorage st)
       = Some (loadedState first rest (localStorage st)).
Proof.
  intros Hinv Hset.
  destruct (chatSessions st) as [|first rest] eqn:E.
  - destruct (set_active st Hset) as (s & Hs & _). rewrite E in Hs. destruct Hs.
  - exists first, rest. split; [reflexivity|].
    pose proof (inv_sessions st Hinv) as Hv. pose proof (inv_count st Hinv) as Hc.
    pose proof (inv_slot st Hinv) as Hslot. rewrite E in Hv, Hc, Hslot.
    rewrite Hslot.
    rewrite mount_saved; try assumption.
    + f_equal. apply afterRender_fixed.
      * now apply loadedState_invariant.
      * now apply (loadedState_settled first rest _ st).
    + intros s Hs Hid. rewrite <- E in Hs.
      apply (set_same_id st Hset); [exact Hs | rewrite E; now left | exact Hid].
Qed.

(** Every state of the page is settled. *)
Lemma reachable_settled (st : State) : reachable legacy_date st -> settled st.
Proof.
  induction 1 as [t_session t_msg st Hs Hm Hmount
                 | ev st Hr IH Hev
                 | st Hr IH
                 | t_session t_msg st st' Hr IH Hs Hm Hmount].
  - rewrite mount_nothing_loaded in Hmount by reflexivity.
    injection Hmount as <-. apply startedState_settled.
  - now apply step_settled.
  - rewrite saveEffect_fixed; [exact IH | now apply (reachable_invariant legacy_date) | exact IH].
  - destruct (mount_reload t_session t_msg st (reachable_invariant legacy_date st Hr) IH)
      as (first & rest & E & Hmount').
    rewrite Hmount' in Hmount. injection Hmount as <-.
    now apply (loadedState_settled first rest _ st).
Qed.

End MountInFull.

Lemma without_fresh (sessionId : jsstring) (l : list ChatSession.t) :
  (forall s, In s l -> ChatSession.id s <> sessionId) -> without sessionId l = l.
Proof.
  intro H. unfold without. induction l as [|s l IH]; [reflexivity|].
  cbn [List.filter].
  replace (jsstring_eqb (ChatSession.id s) sessionId) with false
    by (symmetry; apply jsstring_eqb_neq, H; now left).
  cbn [negb]. f_equal. apply IH. intros s' Hs'. apply H. now right.
Qed.

(** A handler whose result has the invariant and is in step already: the
    render adds nothing. *)
Lemma render_adds_nothing (prev st : State) :
  invariant st -> settled_but_for_render prev st ->
  (forall s, In s (chatSessions st) -> ChatSession.id s = currentSessionId st ->
     ChatSession.messages s = messages st) ->
  afterRender prev st = st /\ settled st.
Proof.
  intros Hinv Hpre Hsync.
  pose proof (settled_if_synced prev st Hpre Hsync) as Hset.
  split; [now apply afterRender_fixed | exact Hset].
Qed.

(** Selecting a session of the list, in a state with the invariant that
    is settled. *)
Lemma selectSession_state (st : State) (session : ChatSession.t) :
  invariant st -> settled st -> In session (chatSessions st) ->
  selectSession (ChatSession.id session) st
  = setMessages (ChatSession.messages session)
      (setCurrentSessionId (ChatSession.id session) st)
  /\ settled (selectSession (ChatSession.id session) st)
  /\ invariant (selectSession (ChatSession.id session) st).
Proof.
  intros Hinv Hset Hin.
  unfold selectSession.
  pose proof (handleSelectSession_pre session st Hset Hin) as Hpre.
  pose proof (handleSelectSession_invariant (ChatSession.id session) st Hinv) as Hinv'.
  assert (Hh : handleSelectSession (ChatSession.id session) st
               = setMessages (ChatSession.messages session)
                   (setCurrentSessionId (ChatSession.id session) st)).
  { unfold handleSelectSession.
    destruct (find_by_id _ _ Hin) as (found & -> & Hfin & Hfid).
    now rewrite (set_same_id st Hset found session Hfin Hin Hfid). }
  rewrite Hh in *.
  destruct (render_adds_nothing st _ Hinv' Hpre) as [E Hset'].
  { cbn [chatSessions messages currentSessionId setMessages setCurrentSessionId].
    intros s Hs Hid. now apply (set_same_id st Hset). }
  rewrite E. split; [reflexivity | split; assumption].
Qed.

Section PageProperties.

Variable legacy_date : jsval -> Date.

(** X1.  In every state of the page the active id names a session of the
    list, and that session holds the transcript on the screen, with its
    count. *)
Theorem active_session_holds_transcript (st : State) :
  reachable legacy_date st ->
  exists s,
    In s (chatSessions st)
    /\ ChatSession.id s = currentSessionId st
    /\ ChatSession.messages s = messages st
    /\ ChatSession.messageCount s = Z.of_nat (List.length (messages st)).
Proof.
  intro Hr. pose proof (reachable_settled legacy_date st Hr) as Hset.
  pose proof (reachable_invariant legacy_date st Hr) as Hinv.
  destruct (set_active st Hset) as (s & Hs & Hid).
  exists s. repeat split; try assumption.
  - now apply (set_sync st Hset).
  - pose proof (inv_count st Hinv) as Hc. rewrite Forall_forall in Hc.
    rewrite (Hc s Hs). unfold length_of. now rewrite (set_sync st Hset s Hs Hid).
Qed.

(** X2.  In every state of the page two sessions with the same id hold
    the same transcript: the saving effect writes the transcript into
    every session that carries the active id. *)
Theorem sessions_of_one_id_share_transcript (st : State) (s1 s2 : ChatSession.t) :
  reachable legacy_date st ->
  In s1 (chatSessions st) -> In s2 (chatSessions st) ->
  ChatSession.id s1 = ChatSession.id s2 ->
  ChatSession.messages s1 = ChatSession.messages s2
  /\ ChatSession.messageCount s1 = ChatSession.messageCount s2.
Proof.
  intros Hr H1 H2 Hid.
  pose proof (set_same_id st (reachable_settled legacy_date st Hr) s1 s2 H1 H2 Hid) as Hm.
  split; [exact Hm|].
  pose proof (inv_count st (reachable_invariant legacy_date st Hr)) as Hc.
  rewrite Forall_forall in Hc. rewrite (Hc s1 H1), (Hc s2 H2). now rewrite Hm.
Qed.

(** X3.  In every state of the page the list has a session, the screen
    has a message, and every session has an id and a message. *)
Theorem never_empty (st : State) :
  reachable legacy_date st ->
  chatSessions st <> []
  /\ messages st <> []
  /\ currentSessionId st <> []
  /\ forall s, In s (chatSessions st) ->
       ChatSession.id s <> [] /\ ChatSession.messages s <> []
       /\ 1 <= ChatSession.messageCount s.
Proof.
  intro Hr. pose proof (reachable_settled legacy_date st Hr) as Hset.
  pose proof (reachable_invariant legacy_date st Hr) as Hinv.
  repeat split.
  - destruct (set_active st Hset) as (s & Hs & _). intro E. rewrite E in Hs. destruct Hs.
  - apply Hset.
  - destruct (set_active st Hset) as (s & Hs & <-). now apply (set_ids st Hset).
  - now apply (set_ids st Hset).
  - now apply (set_transcripts st Hset).
  - pose proof (inv_count st Hinv) as Hc. rewrite Forall_forall in Hc.
    rewrite (Hc s H). pose proof (set_transcripts st Hset s H) as Hne.
    unfold length_of. destruct (ChatSession.messages s); [congruence | cbn; lia].
Qed.

(** X4.  In every state of the page every title is its own trimmed form
    and is not empty. *)
Theorem titles_are_trimmed (st : State) (s : ChatSession.t) :
  reachable legacy_date st -> In s (chatSessions st) ->
  ChatSession.title s <> [] /\ trim (ChatSession.title s) = ChatSession.title s.
Proof.
  intros Hr Hs.
  destruct (set_titles st (reachable_settled legacy_date st Hr) s Hs) as [Hne Hclean].
  split; [exact Hne | now apply no_space_at_ends_trim].
Qed.

(** X5.  In every state of the page one response timer is set while a
    response is awaited and none otherwise. *)
Theorem one_response_at_a_time (st : State) :
  reachable legacy_date st ->
  pendingResponses st = (if isTyping st then 1%nat else 0%nat).
Proof. intro Hr. apply (set_pending st (reachable_settled legacy_date st Hr)). Qed.

(** X6.  In every state of the page the saving effect has nothing left
    to do: [saveCurrentSession] returns the state it is given, list and
    slot included. *)
Theorem saving_again_changes_nothing (st prev : State) :
  reachable legacy_date st ->
  saveCurrentSession st = st /\ afterRender prev st = st.
Proof.
  intro Hr. pose proof (reachable_settled legacy_date st Hr) as Hset.
  pose proof (reachable_invariant legacy_date st Hr) as Hinv.
  split; [now apply saveCurrentSession_fixed | now apply afterRender_fixed].
Qed.

(** X7.  Reloading the page in any of its states brings back the list of
    sessions as it was and the slot as it was, makes the first session the
    active one with its messages on the screen, and clears the input, the
    typing flag, the timers and the title being edited. *)
Theorem reload_restores_sessions (t_session t_msg : Z) (st : State) :
  reachable legacy_date st ->
  exists first rest,
    chatSessions st = first :: rest
    /\ mount legacy_date t_session t_msg (localStorage st)
       = Some (mkState (ChatSession.messages first) [] false (ChatSession.id first)
                       (chatSessions st) None [] (localStorage st) 0).
Proof.
  intro Hr.
  destruct (mount_reload legacy_date t_session t_msg st
              (reachable_invariant legacy_date st Hr)
              (reachable_settled legacy_date st Hr)) as (first & rest & E & Hm).
  exists first, rest. split; [exact E|]. rewrite Hm, E. reflexivity.
Qed.

(** X8.  In every state of the page, selecting a session of the list
    changes the active id and the transcript and nothing else: the list
    and the slot stay as they are. *)
Theorem selectSession_is_a_switch (st : State) (session : ChatSession.t) :
  reachable legacy_date st -> In session (chatSessions st) ->
  selectSession (ChatSession.id session) st
  = setMessages (ChatSession.messages session)
      (setCurrentSessionId (ChatSession.id session) st).
Proof.
  intros Hr Hin.
  apply (selectSession_state st session); [ | | exact Hin].
  - now apply (reachable_invariant legacy_date).
  - now apply (reachable_settled legacy_date).
Qed.

End PageProperties.

Section MoreOfThePage.

Variable legacy_date : jsval -> Date.

(** The list after a new chat. *)
Lemma newChat_sessions (t_msg t_id t_session : Z) (st : State) :
  reachable legacy_date st ->
  valid_time t_msg = true -> valid_time t_session = true ->
  chatSessions (newChat t_msg t_id t_session st)
  = ChatSession.mk (Number_toString t_id) (js "New BI Chat") (Some t_session) 1
      [Message.mk (js "1") bot newChatGreeting (Some t_msg) None None]
    :: List.map
         (fun s =>
            if jsstring_eqb (ChatSession.id s) (Number_toString t_id)
            then with_messages
                   [Message.mk (js "1") bot newChatGreeting (Some t_msg) None None] s
            else s)
         (chatSessions st)
  /\ ((forall s, In s (chatSessions st) -> ChatSession.id s <> Number_toString t_id) ->
      List.tl (chatSessions (newChat t_msg t_id t_session st)) = chatSessions st)
  /\ currentSessionId (newChat t_msg t_id t_session st) = Number_toString t_id
  /\ messages (newChat t_msg t_id t_session st)
     = [Message.mk (js "1") bot newChatGreeting (Some t_msg) None None].
Proof.
  intros Hr Hm Hs. pose proof (reachable_settled legacy_date st Hr) as Hset.
  pose proof (reachable_invariant legacy_date st Hr) as Hinv.
  set (im := Message.mk (js "1") bot newChatGreeting (Some t_msg) None None).
  set (f := fun s => if jsstring_eqb (ChatSession.id s) (Number_toString t_id)
                     then with_messages [im] s else s).
  assert (Hlist : chatSessions (newChat t_msg t_id t_session st)
                  = ChatSession.mk (Number_toString t_id) (js "New BI Chat")
                      (Some t_session) 1 [im] :: List.map f (chatSessions st)).
  { unfold newChat.
    destruct (deps_changed st (handleNewChat t_msg t_id t_session st)) eqn:Ed.
    - rewrite (afterRender_effect _ _ Ed);
        [|apply Number_toString_nonempty | discriminate].
      unfold synced, handleNewChat.
      cbn [chatSessions messages currentSessionId setMessages setCurrentSessionId
           setChatSessions persist setLocalStorage List.map ChatSession.id].
      rewrite jsstring_eqb_refl. reflexivity.
    - unfold afterRender. rewrite Ed.
      apply deps_unchanged_eq in Ed as [Em Ec].
      unfold handleNewChat in *.
      cbn [chatSessions messages currentSessionId setMessages setCurrentSessionId
           setChatSessions persist setLocalStorage ChatSession.id] in *.
      f_equal. rewrite <- (map_id (chatSessions st)) at 1. apply map_ext_in.
      intros s Hin. unfold f.
      destruct (jsstring_eqb (ChatSession.id s) (Number_toString t_id)) eqn:Eid;
        [|reflexivity].
      apply jsstring_eqb_eq in Eid.
      fold im in Em. rewrite Em.
      rewrite <- (set_sync st Hset s Hin) by congruence.
      symmetry. apply with_messages_same.
      pose proof (inv_count st Hinv) as Hc. rewrite Forall_forall in Hc. now apply Hc. }
  split; [exact Hlist|]. split.
  - intro Hfresh. rewrite Hlist. cbn [List.tl].
    rewrite <- (map_id (chatSessions st)) at 2. apply map_ext_in. intros s Hin.
    unfold f. replace (jsstring_eqb (ChatSession.id s) (Number_toString t_id)) with false;
      [reflexivity|]. symmetry. now apply jsstring_eqb_neq, Hfresh.
  - unfold newChat.
    destruct (afterRender_frame st (handleNewChat t_msg t_id t_session st))
      as (E1 & E2 & _).
    rewrite E1, E2. split; reflexivity.
Qed.

(** X9.  In every state of the page a new chat puts its session, which
    holds the greeting alone, at the head of the list and makes it active
    with the greeting on the screen.  The former sessions follow in their
    order; they are unchanged when none has the new id, and one that has
    it gets the greeting as its transcript. *)
Theorem newChat_prepends (t_msg t_id t_session : Z) (st : State) :
  reachable legacy_date st ->
  valid_time t_msg = true -> valid_time t_session = true ->
  chatSessions (newChat t_msg t_id t_session st)
  = ChatSession.mk (Number_toString t_id) (js "New BI Chat") (Some t_session) 1
      [Message.mk (js "1") bot newChatGreeting (Some t_msg) None None]
    :: List.map
         (fun s =>
            if jsstring_eqb (ChatSession.id s) (Number_toString t_id)
            then with_messages
                   [Message.mk (js "1") bot newChatGreeting (Some t_msg) None None] s
            else s)
         (chatSessions st)
  /\ ((forall s, In s (chatSessions st) -> ChatSession.id s <> Number_toString t_id) ->
      List.tl (chatSessions (newChat t_msg t_id t_session st)) = chatSessions st)
  /\ currentSessionId (newChat t_msg t_id t_session st) = Number_toString t_id
  /\ messages (newChat t_msg t_id t_session st)
     = [Message.mk (js "1") bot newChatGreeting (Some t_msg) None None].
Proof. intros Hr Hm Hs. now apply newChat_sessions. Qed.

(** X10.  In every state of the page, deleting the id of no session
    leaves the whole state as it is. *)
Theorem deleteSession_unknown_id (t_id t_session t_msg : Z) (sessionId : jsstring)
    (st : State) :
  reachable legacy_date st ->
  (forall s, In s (chatSessions st) -> ChatSession.id s <> sessionId) ->
  deleteSession t_id t_session t_msg sessionId st = st.
Proof.
  intros Hr Hfresh. pose proof (reachable_settled legacy_date st Hr) as Hset.
  pose proof (reachable_invariant legacy_date st Hr) as Hinv.
  assert (Hh : handleDeleteSession t_id t_session t_msg sessionId st = st).
  { unfold handleDeleteSession. rewrite (without_fresh _ _ Hfresh).
    destruct (chatSessions st) as [|first rest] eqn:E.
    - destruct (set_active st Hset) as (s & Hs & _). rewrite E in Hs. destruct Hs.
    - replace (jsstring_eqb (currentSessionId st) sessionId) with false.
      + unfold persist. rewrite <- E.
        rewrite (saveChatSessions_json _ _ (inv_sessions st Hinv)), <- (inv_slot st Hinv).
        apply state_rewritten.
      + symmetry. apply jsstring_eqb_neq.
        destruct (set_active st Hset) as (s & Hs & <-). apply Hfresh.
        rewrite <- E. exact Hs. }
  unfold deleteSession. rewrite Hh. now apply afterRender_fixed.
Qed.

(** X11.  Whatever the state, after a deletion the list is not empty,
    and when sessions remain none of them has the deleted id. *)
Theorem deleteSession_leaves_sessions (t_id t_session t_msg : Z) (sessionId : jsstring)
    (st : State) :
  chatSessions (deleteSession t_id t_session t_msg sessionId st) <> []
  /\ (without sessionId (chatSessions st) <> [] ->
      List.map ChatSession.id (chatSessions (deleteSession t_id t_session t_msg sessionId st))
      = List.map ChatSession.id (without sessionId (chatSessions st))
      /\ forall s, In s (chatSessions (deleteSession t_id t_session t_msg sessionId st)) ->
           ChatSession.id s <> sessionId).
Proof.
  unfold deleteSession.
  set (h := handleDeleteSession t_id t_session t_msg sessionId st).
  assert (Hids : List.map ChatSession.id (chatSessions (afterRender st h))
                 = List.map ChatSession.id (chatSessions h))
    by (destruct (afterRender_sessions st h) as [E | E]; rewrite E;
        [reflexivity | apply synced_ids]).
  assert (Hh : chatSessions h
               = match without sessionId (chatSessions st) with
                 | [] => [replacementSession t_id t_session t_msg]
                 | l => l
                 end).
  { unfold h, handleDeleteSession.
    destruct (without sessionId (chatSessions st)) as [|first rest]; [reflexivity|].
    now destruct (jsstring_eqb (currentSessionId st) sessionId). }
  split.
  - intro E. rewrite E, Hh in Hids.
    destruct (without sessionId (chatSessions st)); discriminate.
  - intro Hne. rewrite Hh in Hids.
    destruct (without sessionId (chatSessions st)) as [|first rest] eqn:Hw; [congruence|].
    split; [exact Hids|].
    intros s Hs Hid. apply (in_map ChatSession.id) in Hs. rewrite Hids in Hs.
    apply in_map_iff in Hs as (s0 & E0 & H0). rewrite <- Hw in H0.
    apply in_without in H0 as [_ H0]. congruence.
Qed.

(** X12.  In every state of the page, a new chat whose id no session has,
    followed by the deletion of that id, gives back the list and the slot
    as they were, with the first session active and its messages on the
    screen. *)
Theorem newChat_then_delete (t_msg t_id t_session t_id' t_session' t_msg' : Z)
    (st : State) :
  reachable legacy_date st ->
  valid_time t_msg = true -> valid_time t_session = true ->
  valid_time t_session' = true -> valid_time t_msg' = true ->
  (forall s, In s (chatSessions st) -> ChatSession.id s <> Number_toString t_id) ->
  exists first rest,
    chatSessions st = first :: rest
    /\ deleteSession t_id' t_session' t_msg' (Number_toString t_id)
         (newChat t_msg t_id t_session st)
       = setMessages (ChatSession.messages first)
           (setCurrentSessionId (ChatSession.id first) st).
Proof.
  intros Hr Hm Hs Hs' Hm' Hfresh.
  pose proof (reachable_settled legacy_date st Hr) as Hset.
  pose proof (reachable_invariant legacy_date st Hr) as Hinv.
  destruct (newChat_sessions t_msg t_id t_session st Hr Hm Hs) as (Hlist & Htl & Hcur & _).
  specialize (Htl Hfresh). rewrite Hlist in Htl. cbn [List.tl] in Htl.
  rewrite Htl in Hlist. clear Htl.
  assert (Hex : exists first rest, chatSessions st = first :: rest).
  { destruct (set_active st Hset) as (s & Hin & _).
    destruct (chatSessions st) as [|first rest]; [destruct Hin | eauto]. }
  destruct Hex as (first & rest & E). exists first, rest. split; [exact E|].
  assert (Hfirst : In first (chatSessions st)) by (rewrite E; now left).
  assert (Hw : without (Number_toString t_id)
                 (chatSessions (newChat t_msg t_id t_session st)) = chatSessions st).
  { rewrite Hlist. unfold without. cbn [List.filter ChatSession.id].
    rewrite jsstring_eqb_refl. cbn [negb]. now apply without_fresh. }
  assert (Hslot : localStorage st
                  = Some (JsonOf (VArr (List.map ChatSession_json (chatSessions st)))))
    by apply Hinv.
  assert (Hh : handleDeleteSession t_id' t_session' t_msg' (Number_toString t_id)
                 (newChat t_msg t_id t_session st)
               = setMessages (ChatSession.messages first)
                   (setCurrentSessionId (ChatSession.id first) st)).
  { unfold handleDeleteSession. rewrite Hw, E, Hcur, jsstring_eqb_refl.
    unfold persist. rewrite <- E.
    rewrite (saveChatSessions_json _ _ (inv_sessions st Hinv)), <- Hslot.
    destruct (afterRender_frame st (handleNewChat t_msg t_id t_session st))
      as (_ & _ & Ei & Et & Ep).
    unfold newChat.
    destruct (afterRender st (handleNewChat t_msg t_id t_session st))
      as [m i ty c l e et ls p] eqn:Est.
    cbn [inputMessage isTyping pendingResponses] in Ei, Et, Ep.
    assert (Ee : e = editingSessionId st /\ et = editTitle st).
    { pose proof (f_equal editingSessionId Est) as H1.
      pose proof (f_equal editTitle Est) as H2.
      cbn [editingSessionId editTitle] in H1, H2.
      unfold afterRender, saveEffect, saveCurrentSession in H1, H2.
      destruct (deps_changed st (handleNewChat t_msg t_id t_session st));
        [destruct (truthy_string _ && _)|]; cbn in H1, H2; now subst. }
    destruct Ee as [-> ->]. subst i ty p.
    unfold handleNewChat. now destruct st. }
  unfold deleteSession. rewrite Hh.
  apply afterRender_fixed.
  - apply invariant_setMessages; [now apply invariant_setCurrentSessionId|].
    apply valid_session_messages.
    now apply (valid_sessions_in (chatSessions st)); [apply Hinv|].
  - pose proof (handleSelectSession_pre first st Hset Hfirst) as Hpre.
    assert (Hsel : handleSelectSession (ChatSession.id first) st
                   = setMessages (ChatSession.messages first)
                       (setCurrentSessionId (ChatSession.id first) st)).
    { unfold handleSelectSession.
      destruct (find_by_id _ _ Hfirst) as (found & -> & Hfin & Hfid).
      now rewrite (set_same_id st Hset found first Hfin Hfirst Hfid). }
    rewrite Hsel in Hpre.
    apply (settled_if_synced st _ Hpre).
    cbn [chatSessions messages currentSessionId setMessages setCurrentSessionId].
    intros s Hs0 Hid. now apply (set_same_id st Hset).
Qed.

End MoreOfThePage.

(** X13.  With an input that is empty or white space only, the send
    button, the Enter key and [handleSendMessage] itself leave the whole
    state as it is: no message, no timer, the input kept. *)
Theorem blank_input_is_not_sent (t_id t_msg : Z) (key : jsstring) (shiftKey : bool)
    (st : State) :
  List.forallb is_white_space (inputMessage st) = true ->
  handleSendMessage t_id t_msg st = st
  /\ sendMessage t_id t_msg st = st
  /\ step (SendClick t_id t_msg) st = st
  /\ step (InputKeyDown key shiftKey t_id t_msg) st = st.
Proof.
  intro Hblank. apply trim_empty in Hblank.
  assert (Hh : handleSendMessage t_id t_msg st = st)
    by (unfold handleSendMessage; now rewrite Hblank).
  assert (Hidle : afterRender st st = st) by now apply afterRender_unchanged.
  repeat split.
  - exact Hh.
  - unfold sendMessage. now rewrite Hh.
  - unfold step, handle, send_disabled. rewrite Hblank. exact Hidle.
  - unfold step, handle, handleKeyPress. rewrite Hh.
    destruct (textarea_disabled st); [exact Hidle|].
    destruct (jsstring_eqb key (js "Enter") && negb shiftKey); exact Hidle.
Qed.

Lemma blank_input_is_not_sent_witness :
  handleSendMessage 5 6 Sample.visited = Sample.visited
  /\ sendMessage 5 6 Sample.visited = Sample.visited
  /\ step (SendClick 5 6) Sample.visited = Sample.visited
  /\ step (InputKeyDown (js "Enter") false 5 6) Sample.visited = Sample.visited.
Proof.
  apply (blank_input_is_not_sent 5 6 (js "Enter") false Sample.visited).
  vm_compute. reflexivity.
Defined.

(** X14.  The user message that a send appends carries the input without
    the white space around it: its content is not empty, has no white
    space at either end, and the input is that content between two runs
    of white space.  The send leaves the input field empty. *)
Theorem sent_content_is_trimmed (t_id t_msg : Z) (st : State) :
  trim (inputMessage st) <> [] ->
  exists m pre post,
    messages (sendMessage t_id t_msg st) = messages st ++ [m]
    /\ Message.type m = user
    /\ Message.content m <> []
    /\ trim (Message.content m) = Message.content m
    /\ inputMessage st = pre ++ Message.content m ++ post
    /\ List.forallb is_white_space pre = true
    /\ List.forallb is_white_space post = true
    /\ inputMessage (sendMessage t_id t_msg st) = [].
Proof.
  intro Hne.
  destruct (trim_split (inputMessage st)) as (pre & post & Hsplit & Hpre & Hpost).
  exists (Message.mk (Number_toString t_id) user (trim (inputMessage st)) (Some t_msg)
                     None None), pre, post.
  unfold sendMessage.
  destruct (afterRender_frame st (handleSendMessage t_id t_msg st))
    as (Em & _ & Ei & _).
  rewrite Em, Ei. unfold handleSendMessage.
  apply truthy_string_true in Hne. rewrite Hne.
  cbn [negb messages inputMessage setPendingResponses setIsTyping setInputMessage
       setMessages Message.type Message.content].
  repeat split; try assumption.
  - now apply truthy_string_true.
  - apply no_space_at_ends_trim, trim_no_space_at_ends.
Qed.

Lemma sent_content_is_trimmed_witness :
  exists m pre post,
    messages (sendMessage 5 6 Sample.typed) = messages Sample.typed ++ [m]
    /\ Message.type m = user
    /\ Message.content m <> []
    /\ trim (Message.content m) = Message.content m
    /\ inputMessage Sample.typed = pre ++ Message.content m ++ post
    /\ List.forallb is_white_space pre = true
    /\ List.forallb is_white_space post = true
    /\ inputMessage (sendMessage 5 6 Sample.typed) = [].
Proof.
  apply (sent_content_is_trimmed 5 6 Sample.typed). vm_compute. discriminate.
Defined.

(** X15.  Whatever the state and the title, a rename changes titles only:
    the ids, the transcripts, the counts and the timestamps of the
    sessions stay in their order, and so do the active id and the
    transcript on the screen; when no session has the id, the list stays
    as it is. *)
Theorem renameSession_changes_titles_only (sessionId newTitle : jsstring) (st : State) :
  List.map ChatSession.id (chatSessions (renameSession sessionId newTitle st))
  = List.map ChatSession.id (chatSessions st)
  /\ List.map ChatSession.messages (chatSessions (renameSession sessionId newTitle st))
     = List.map ChatSession.messages (chatSessions st)
  /\ List.map ChatSession.messageCount (chatSessions (renameSession sessionId newTitle st))
     = List.map ChatSession.messageCount (chatSessions st)
  /\ List.map ChatSession.timestamp (chatSessions (renameSession sessionId newTitle st))
     = List.map ChatSession.timestamp (chatSessions st)
  /\ currentSessionId (renameSession sessionId newTitle st) = currentSessionId st
  /\ messages (renameSession sessionId newTitle st) = messages st
  /\ ((forall s, In s (chatSessions st) -> ChatSession.id s <> sessionId) ->
      chatSessions (renameSession sessionId newTitle st) = chatSessions st).
Proof.
  unfold renameSession, handleSaveEdit. cbn [editTitle setEditTitle].
  destruct (truthy_string (trim newTitle)).
  - unfold handleRenameSession.
    cbn [chatSessions currentSessionId messages setEditingSessionId setChatSessions
         persist setLocalStorage setEditTitle].
    rewrite !map_map.
    repeat split; try (apply map_ext; intro s;
                       now destruct (jsstring_eqb (ChatSession.id s) sessionId)).
    intro Hfresh. rewrite <- (map_id (chatSessions st)) at 2.
    apply map_ext_in. intros s Hs.
    replace (jsstring_eqb (ChatSession.id s) sessionId) with false; [reflexivity|].
    symmetry. now apply jsstring_eqb_neq, Hfresh.
  - repeat split.
Qed.

Section LoadedShape.

Variable legacy_date : jsval -> Date.

(** X16.  Whatever the slot holds, every object that [loadChatSessions]
    returns has a Date as its [timestamp] and an array as its [messages],
    and every element of that array is an object with a Date as its
    [timestamp]. *)
Theorem loaded_sessions_have_dates (slot : Storage) (l : list jsval) :
  loadChatSessions legacy_date slot = Ok l ->
  Forall (fun session =>
            exists props d ms,
              session = VObj props
              /\ lookup (js "timestamp") props = Some (VDate d)
              /\ lookup (js "messages") props = Some (VArr ms)
              /\ Forall (fun msg =>
                           exists props' d',
                             msg = VObj props'
                             /\ lookup (js "timestamp") props' = Some (VDate d')) ms)
         l.
Proof.
  unfold loadChatSessions, loadChatSessions_try. intro H.
  destruct slot as [saved|]; [|injection H as <-; constructor].
  destruct (truthy_text saved); [|injection H as <-; constructor].
  destruct (JSON_parse saved) as [parsed|e]; [|injection H as <-; constructor].
  cbn [bind try_catch] in H.
  destruct (call_map (revive_session legacy_date) parsed) as [r|e] eqn:Er;
    cbn [bind try_catch] in H; [|injection H as <-; constructor].
  injection H as <-.
  destruct parsed; try discriminate. cbn [call_map] in Er.
  revert r Er. apply mapM_forall. intros session y Hy.
  unfold revive_session in Hy.
  destruct (get_named "timestamp" session) as [ts|e]; [|discriminate]. cbn [bind] in Hy.
  destruct (Date_new legacy_date ts) as [d|e]; [|discriminate]. cbn [bind] in Hy.
  destruct (get_named "messages" session) as [ms|e]; [|discriminate]. cbn [bind] in Hy.
  assert (Hms : exists l',
             match ms with
             | None | Some VNull => Ok (VArr [])
             | Some m => l0 <- call_map (revive_message legacy_date) m ;; Ok (VArr l0)
             end = Ok (VArr l')
             /\ Forall (fun msg => exists props' d',
                          msg = VObj props'
                          /\ lookup (js "timestamp") props' = Some (VDate d')) l'
             \/ exists e,
                 match ms with
                 | None | Some VNull => Ok (VArr [])
                 | Some m => l0 <- call_map (revive_message legacy_date) m ;; Ok (VArr l0)
                 end = Throw e).
  { assert (Hmsg : forall m l0,
               call_map (revive_message legacy_date) m = Ok l0 ->
               Forall (fun msg => exists props' d',
                         msg = VObj props'
                         /\ lookup (js "timestamp") props' = Some (VDate d')) l0).
    { intros m l0 Hl0. destruct m; try discriminate. cbn [call_map] in Hl0.
      revert l0 Hl0. apply mapM_forall. intros msg y0 Hy0.
      unfold revive_message in Hy0.
      destruct (get_named "timestamp" msg) as [t0|e0]; [|discriminate].
      cbn [bind] in Hy0.
      destruct (Date_new legacy_date t0) as [d0|e0]; [|discriminate].
      cbn [bind] in Hy0. injection Hy0 as <-.
      eexists _, _. split; [reflexivity | apply lookup_set_prop]. }
    destruct ms as [m|]; [|exists []; left; split; [reflexivity | constructor]].
    destruct (call_map (revive_message legacy_date) m) as [l0|e0] eqn:El0.
    - destruct m; try (exists l0; left; split; [reflexivity | now apply (Hmsg _ _ El0)]).
      exists []. left. split; [reflexivity | constructor].
    - destruct m; try (exists []; right; exists e0; reflexivity).
      exists []. left. split; [reflexivity | constructor]. }
  destruct Hms as (l' & [[E Hl'] | [e E]]); rewrite E in Hy; [|discriminate].
  cbn [bind] in Hy. injection Hy as <-.
  eexists _, _, l'. split; [reflexivity|]. split; [|split; [apply lookup_set_prop | exact Hl']].
  rewrite lookup_set_prop_other by discriminate. apply lookup_set_prop.
Qed.

(** X17.  When the slot is absent, holds text that is not the JSON text
    of an array, or holds the empty array, the page starts with one
    session, the default one with its greeting, active and on the screen,
    and the slot is overwritten with the JSON text of that list. *)
Theorem mount_without_stored_sessions (t_session t_msg : Z) (slot : Storage) :
  holds_array slot = false \/ slot = Some (JsonOf (VArr [])) ->
  exists st,
    mount legacy_date t_session t_msg slot = Some st
    /\ chatSessions st = [initialSession t_session t_msg]
    /\ currentSessionId st = js "1"
    /\ messages st = ChatSession.messages (initialSession t_session t_msg)
    /\ localStorage st
       = Some (JsonOf (VArr [ChatSession_json (initialSession t_session t_msg)])).
Proof.
  intros Hslot.
  assert (Hload : loadChatSessions legacy_date slot = Ok []).
  { destruct Hslot as [H | ->]; [|reflexivity].
    unfold loadChatSessions, loadChatSessions_try.
    destruct slot as [[s | v] |]; try reflexivity.
    - now destruct (truthy_text (NotJson s)).
    - destruct v; try reflexivity. discriminate. }
  exists (startedState t_session t_msg slot).
  split; [now apply mount_nothing_loaded|].
  repeat split.
Qed.

End LoadedShape.

Lemma mount_without_stored_sessions_witness :
  exists st,
    mount Sample.legacy_date 7 8 (Some (NotJson (js "{oops"))) = Some st
    /\ chatSessions st = [initialSession 7 8]
    /\ currentSessionId st = js "1"
    /\ messages st = ChatSession.messages (initialSession 7 8)
    /\ localStorage st = Some (JsonOf (VArr [ChatSession_json (initialSession 7 8)])).
Proof.
  apply (mount_without_stored_sessions Sample.legacy_date 7 8
           (Some (NotJson (js "{oops")))).
  left. reflexivity.
Defined.

(** ** Rendering *)

Lemma renderTable_response :
  renderTable tableResponseData = Ok (TableNode tableResponseHeaders tableResponseRows).
Proof. reflexivity. Qed.

Lemma render_own_payloads (m : Message.t) :
  own_payloads m ->
  renderMessageContent m = Ok [TextNode (Message.content m)]
  \/ (Message.type m = bot
      /\ renderMessageContent m
         = Ok [TextNode (Message.content m); ChartNode chartResponseSpec])
  \/ (Message.type m = bot
      /\ renderMessageContent m
         = Ok [TextNode (Message.content m);
               TableNode tableResponseHeaders tableResponseRows]).
Proof.
  unfold renderMessageContent.
  intros [[-> ->] | [(Hb & -> & ->) | (Hb & -> & ->)]].
  - now left.
  - right. left. split; [exact Hb | reflexivity].
  - right. right. split; [exact Hb|].
    change (truthy_value tableResponseData) with true. cbv beta iota.
    rewrite renderTable_response. reflexivity.
Qed.

Section Rendering.

Variable legacy_date : jsval -> Date.

(** X18.  In every state of the page, rendering a message of the screen
    or of a stored session does not throw, and gives the text alone, the
    text and the chart, or the text and the table of four columns and
    five rows; what the user sent is rendered as its text alone. *)
Theorem rendering_never_throws (st : State) (m : Message.t) :
  reachable legacy_date st ->
  In m (messages st)
  \/ (exists s, In s (chatSessions st) /\ In m (ChatSession.messages s)) ->
  (renderMessageContent m = Ok [TextNode (Message.content m)]
   \/ renderMessageContent m
      = Ok [TextNode (Message.content m); ChartNode chartResponseSpec]
   \/ renderMessageContent m
      = Ok [TextNode (Message.content m);
            TableNode tableResponseHeaders tableResponseRows])
  /\ (Message.type m = user ->
      renderMessageContent m = Ok [TextNode (Message.content m)]).
Proof.
  intros Hr Hin. pose proof (reachable_settled legacy_date st Hr) as Hset.
  assert (Hown : own_payloads m).
  { destruct Hin as [Hin | (s & Hs & Hin)];
      [now apply (set_payloads st Hset) | now apply (set_stored_payloads st Hset s)]. }
  destruct (render_own_payloads m Hown) as [H | [[Hb H] | [Hb H]]].
  - split; [now left | now intros _].
  - split; [right; now left | intro Hu; congruence].
  - split; [right; now right | intro Hu; congruence].
Qed.

End Rendering.

(** ** The data source *)

Section DatasourceProperties.

Import Datasources.

Variable datasources : list Datasource.

Lemma find_first_datasource (v : jsstring) (d : Datasource) :
  In d datasources -> id d = v ->
  exists ds,
    List.find (fun ds => jsstring_eqb (id ds) v) datasources = Some ds
    /\ In ds datasources /\ id ds = v.
Proof.
  intros Hin Hid.
  destruct (List.find (fun ds => jsstring_eqb (id ds) v) datasources) as [ds|] eqn:Hf.
  - apply find_some in Hf as [Hfin Hfid]. apply jsstring_eqb_eq in Hfid. now exists ds.
  - apply (find_none _ _ Hf) in Hin. cbn in Hin.
    rewrite Hid, jsstring_eqb_refl in Hin. discriminate.
Qed.

(** X19.  For every selection the page goes through, the data source on
    display is a data source of the configuration that has the selected
    id; and whatever the selection, when no data source has that id the
    first one of the configuration is on display. *)
Theorem currentDatasource_is_configured (v : jsstring) :
  (selection datasources v ->
   exists ds,
     currentDatasource datasources v = Some ds /\ In ds datasources /\ id ds = v)
  /\ (forall first rest,
        datasources = first :: rest ->
        (forall d, In d datasources -> id d <> v) ->
        currentDatasource datasources v = Some first).
Proof.
  split.
  - intro Hsel.
    assert (Hex : exists d, In d datasources /\ id d = v).
    { destruct Hsel as [v Hinit | v ds _ Hin]; [|now exists ds].
      unfold initialSelection in Hinit.
      destruct datasources as [|first rest]; [discriminate|].
      injection Hinit as <-. exists first. split; [now left | reflexivity]. }
    destruct Hex as (d & Hin & Hid).
    destruct (find_first_datasource v d Hin Hid) as (ds & Hf & Hfin & Hfid).
    exists ds. unfold currentDatasource. rewrite Hf. now repeat split.
  - intros first rest E Hnone. unfold currentDatasource.
    destruct (List.find (fun ds => jsstring_eqb (id ds) v) datasources) as [ds|] eqn:Hf.
    + apply find_some in Hf as [Hfin Hfid]. apply jsstring_eqb_eq in Hfid.
      now apply Hnone in Hfin.
    + now rewrite E.
Qed.

End DatasourceProperties.

(** ** The header *)

Section HeaderProperties.

Import Header.

Lemma activeDropdown_has_items (st : HeaderState) :
  reachable st ->
  activeDropdown st = None
  \/ activeDropdown st = Some (js "RAG System")
  \/ activeDropdown st = Some (js "Company").
Proof.
  induction 1 as [| menu st _ IH Hin Hitems | st _ IH].
  - now left.
  - unfold toggleDropdown. cbn [activeDropdown].
    destruct (is_active (name menu) st); [now left|].
    right. cbn in Hin. destruct Hin as [<- | [<- | [<- | [<- | []]]]];
      cbn in Hitems |- *; try congruence; tauto.
  - exact IH.
Qed.

(** X20.  In every state of the header at most one dropdown panel is
    shown: none when no dropdown is active, and otherwise the panel of
    the one active menu, a menu that has entries. *)
Theorem one_dropdown_at_most (st : HeaderState) :
  reachable st ->
  (activeDropdown st = None /\ panels st = [])
  \/ (exists menu,
        In menu menuItems /\ items menu <> None
        /\ activeDropdown st = Some (name menu) /\ panels st = [menu]).
Proof.
  intro Hr. destruct st as [open active].
  destruct (activeDropdown_has_items _ Hr) as [H | [H | H]]; cbn [activeDropdown] in H;
    subst active.
  - left. split; reflexivity.
  - right. eexists. split; [left; reflexivity|].
    split; [discriminate | split; reflexivity].
  - right. eexists. split; [right; right; right; left; reflexivity|].
    split; [discriminate | split; reflexivity].
Qed.

End HeaderProperties.

Section Exchanges.

Variable legacy_date : jsval -> Date.

(** X21.  In every idle state of the page with text to send, a click on
    the send button followed by the response timer leaves the question
    and the answer at the end of the transcript, in the session of the
    active id with its count, and in the slot: loading the slot gives
    the list of the page. *)
Theorem exchange_is_persisted (t_id t_msg responseType t_id' t_msg' : Z) (st : State) :
  reachable legacy_date st ->
  isTyping st = false -> trim (inputMessage st) <> [] ->
  valid_time t_id = true -> valid_time t_msg = true ->
  0 <= responseType < 3 -> valid_time t_id' = true -> valid_time t_msg' = true ->
  exists s loaded,
    messages (step (ResponseTimer responseType t_id' t_msg')
                (step (SendClick t_id t_msg) st))
    = messages st
      ++ [Message.mk (Number_toString t_id) user (trim (inputMessage st)) (Some t_msg)
                     None None;
          botResponse responseType t_id' t_msg']
    /\ In s (chatSessions (step (ResponseTimer responseType t_id' t_msg')
                             (step (SendClick t_id t_msg) st)))
    /\ ChatSession.id s = currentSessionId st
    /\ ChatSession.messages s
       = messages st
         ++ [Message.mk (Number_toString t_id) user (trim (inputMessage st)) (Some t_msg)
                        None None;
             botResponse responseType t_id' t_msg']
    /\ ChatSession.messageCount s = Z.of_nat (List.length (messages st)) + 2
    /\ loadChatSessions legacy_date
         (localStorage (step (ResponseTimer responseType t_id' t_msg')
                          (step (SendClick t_id t_msg) st)))
       = Ok loaded
    /\ asChatSessions loaded
       = Some (chatSessions (step (ResponseTimer responseType t_id' t_msg')
                               (step (SendClick t_id t_msg) st))).
Proof.
  intros Hr Hidle Hne Hid Hm Hrt Hid' Hm'.
  set (um := Message.mk (Number_toString t_id) user (trim (inputMessage st)) (Some t_msg)
                        None None).
  set (st1 := step (SendClick t_id t_msg) st).
  assert (Hr1 : reachable legacy_date st1)
    by (apply reach_step; [exact Hr | now split]).
  assert (Hh1 : handle (SendClick t_id t_msg) st
                = setPendingResponses (S (pendingResponses st))
                    (setIsTyping true
                       (setInputMessage [] (setMessages (messages st ++ [um]) st)))).
  { cbn [handle]. unfold send_disabled, handleSendMessage.
    apply truthy_string_true in Hne. now rewrite Hne, Hidle. }
  destruct (afterRender_frame st (handle (SendClick t_id t_msg) st))
    as (Em1 & Ec1 & _ & Et1 & _).
  fold (step (SendClick t_id t_msg) st) in Em1, Ec1, Et1. fold st1 in Em1, Ec1, Et1.
  rewrite Hh1 in Em1, Ec1, Et1.
  cbn [messages currentSessionId isTyping setPendingResponses setIsTyping
       setInputMessage setMessages] in Em1, Ec1, Et1.
  pose proof (set_pending st1 (reachable_settled legacy_date st1 Hr1)) as Hp1.
  rewrite Et1 in Hp1.
  set (st2 := step (ResponseTimer responseType t_id' t_msg') st1).
  assert (Hr2 : reachable legacy_date st2)
    by (apply reach_step; [exact Hr1 | now repeat split]).
  destruct (afterRender_frame st1 (handle (ResponseTimer responseType t_id' t_msg') st1))
    as (Em2 & Ec2 & _).
  fold (step (ResponseTimer responseType t_id' t_msg') st1) in Em2, Ec2.
  fold st2 in Em2, Ec2.
  cbn [handle] in Em2, Ec2. rewrite Hp1 in Em2, Ec2.
  unfold responseCallback in Em2, Ec2.
  cbn [messages currentSessionId setPendingResponses setIsTyping setMessages] in Em2, Ec2.
  rewrite Em1 in Em2. rewrite <- app_assoc in Em2. cbn [app] in Em2.
  rewrite Ec1 in Ec2.
  pose proof (reachable_settled legacy_date st2 Hr2) as Hset2.
  pose proof (reachable_invariant legacy_date st2 Hr2) as Hinv2.
  destruct (set_active st2 Hset2) as (s & Hs & Hsid).
  exists s, (List.map ChatSession_toJS (chatSessions st2)).
  pose proof (set_sync st2 Hset2 s Hs Hsid) as Hsm.
  split; [exact Em2|]. split; [exact Hs|]. split; [congruence|].
  split; [congruence|]. split.
  - pose proof (inv_count st2 Hinv2) as Hc. rewrite Forall_forall in Hc.
    rewrite (Hc s Hs). unfold length_of. rewrite Hsm, Em2, length_app.
    cbn [List.length]. lia.
  - split; [|apply asChatSessions_toJS].
    rewrite (inv_slot st2 Hinv2),
      <- (saveChatSessions_json _ None (inv_sessions st2 Hinv2)).
    apply load_saved. apply Hinv2.
Qed.

(** X22.  In every state of the page, when a session of the list is
    selected and the response timer then goes off, as it does when the
    user leaves the session a question was put in, the response is
    appended to the transcript of the selected session, on the screen and
    in the list; the sessions of other ids stay as they are. *)
Theorem response_goes_to_the_selected_session (responseType t_id t_msg : Z) (st : State)
    (session : ChatSession.t) :
  reachable legacy_date st ->
  In session (chatSessions st) ->
  messages (receiveResponse responseType t_id t_msg
              (selectSession (ChatSession.id session) st))
  = ChatSession.messages session ++ [botResponse responseType t_id t_msg]
  /\ currentSessionId (receiveResponse responseType t_id t_msg
                         (selectSession (ChatSession.id session) st))
     = ChatSession.id session
  /\ chatSessions (receiveResponse responseType t_id t_msg
                     (selectSession (ChatSession.id session) st))
     = List.map
         (fun s =>
            if jsstring_eqb (ChatSession.id s) (ChatSession.id session)
            then with_messages
                   (ChatSession.messages session ++ [botResponse responseType t_id t_msg])
                   s
            else s)
         (chatSessions st).
Proof.
  intros Hr Hin.
  pose proof (reachable_settled legacy_date st Hr) as Hset.
  pose proof (reachable_invariant legacy_date st Hr) as Hinv.
  destruct (selectSession_state st session Hinv Hset Hin) as (E & _ & _).
  rewrite E. unfold receiveResponse.
  set (st1 := setMessages (ChatSession.messages session)
                (setCurrentSessionId (ChatSession.id session) st)).
  set (h := responseCallback responseType t_id t_msg st1).
  destruct (afterRender_frame st1 h) as (Em & Ec & _).
  rewrite Em, Ec. split; [reflexivity|]. split; [reflexivity|].
  rewrite (afterRender_effect st1 h).
  - reflexivity.
  - apply (deps_changed_append st1 h (botResponse responseType t_id t_msg)). reflexivity.
  - cbn. apply (set_ids st Hset). exact Hin.
  - cbn. intro H. now apply app_eq_nil in H as [_ H].
Qed.

End Exchanges.

(** ** The further properties on the sample run *)

Lemma asked_reachable : reachable Sample.legacy_date SampleMore.asked.
Proof.
  assert (E : step (SendClick 1730500004100 1730500004101)
                (step (InputChange (js "and the margins?")) Sample.two_sessions)
              = SampleMore.asked) by (vm_compute; reflexivity).
  rewrite <- E. apply reach_step.
  - apply reach_step; [apply two_sessions_reachable | exact I].
  - split; vm_compute; reflexivity.
Qed.

Lemma active_session_holds_transcript_witness :
  exists s,
    In s (chatSessions Sample.two_sessions)
    /\ ChatSession.id s = currentSessionId Sample.two_sessions
    /\ ChatSession.messages s = messages Sample.two_sessions
    /\ ChatSession.messageCount s
       = Z.of_nat (List.length (messages Sample.two_sessions)).
Proof.
  apply (active_session_holds_transcript Sample.legacy_date Sample.two_sessions).
  apply two_sessions_reachable.
Defined.

Lemma twins_reachable : reachable Sample.legacy_date SampleMore.twins.
Proof.
  assert (E : step (SendClick 1730500005100 1730500005101)
                (step (InputChange (js "sales by region"))
                   (step (NewChatClick 1730500005000 1730500005000 1730500005001)
                      (step (NewChatClick 1730500005000 1730500005000 1730500005000)
                         Sample.answered)))
              = SampleMore.twins) by (vm_compute; reflexivity).
  rewrite <- E. apply reach_step; [apply reach_step; [|exact I]|].
  - apply reach_step; [apply reach_step; [apply answered_reachable|]|];
      repeat split; vm_compute; reflexivity.
  - split; vm_compute; reflexivity.
Qed.

Lemma sessions_of_one_id_share_transcript_witness :
  SampleMore.twin_new <> SampleMore.twin_old
  /\ ChatSession.id SampleMore.twin_new = ChatSession.id SampleMore.twin_old
  /\ List.length (ChatSession.messages SampleMore.twin_new) = 2%nat
  /\ ChatSession.messages SampleMore.twin_new = ChatSession.messages SampleMore.twin_old
  /\ ChatSession.messageCount SampleMore.twin_new
     = ChatSession.messageCount SampleMore.twin_old.
Proof.
  split; [vm_compute; discriminate|]. split; [reflexivity|]. split; [reflexivity|].
  apply (sessions_of_one_id_share_transcript Sample.legacy_date SampleMore.twins
           SampleMore.twin_new SampleMore.twin_old).
  - apply twins_reachable.
  - vm_compute. left. reflexivity.
  - vm_compute. right. left. reflexivity.
  - vm_compute. reflexivity.
Defined.

Lemma never_empty_witness :
  chatSessions Sample.two_sessions <> []
  /\ messages Sample.two_sessions <> []
  /\ currentSessionId Sample.two_sessions <> []
  /\ forall s, In s (chatSessions Sample.two_sessions) ->
       ChatSession.id s <> [] /\ ChatSession.messages s <> []
       /\ 1 <= ChatSession.messageCount s.
Proof.
  apply (never_empty Sample.legacy_date Sample.two_sessions).
  apply two_sessions_reachable.
Defined.

Lemma titles_are_trimmed_witness :
  ChatSession.title SampleMore.newest <> []
  /\ trim (ChatSession.title SampleMore.newest) = ChatSession.title SampleMore.newest.
Proof.
  apply (titles_are_trimmed Sample.legacy_date Sample.two_sessions SampleMore.newest).
  - apply two_sessions_reachable.
  - vm_compute. left. reflexivity.
Defined.

Lemma one_response_at_a_time_witness :
  pendingResponses Sample.sent = (if isTyping Sample.sent then 1%nat else 0%nat).
Proof.
  apply (one_response_at_a_time Sample.legacy_date Sample.sent). apply sent_reachable.
Defined.

Lemma saving_again_changes_nothing_witness :
  saveCurrentSession Sample.two_sessions = Sample.two_sessions
  /\ afterRender Sample.answered Sample.two_sessions = Sample.two_sessions.
Proof.
  apply (saving_again_changes_nothing Sample.legacy_date Sample.two_sessions
           Sample.answered).
  apply two_sessions_reachable.
Defined.

Lemma reload_restores_sessions_witness :
  exists first rest,
    chatSessions Sample.two_sessions = first :: rest
    /\ mount Sample.legacy_date 7 8 (localStorage Sample.two_sessions)
       = Some (mkState (ChatSession.messages first) [] false (ChatSession.id first)
                       (chatSessions Sample.two_sessions) None []
                       (localStorage Sample.two_sessions) 0).
Proof.
  apply (reload_restores_sessions Sample.legacy_date 7 8 Sample.two_sessions).
  apply two_sessions_reachable.
Defined.

Lemma selectSession_is_a_switch_witness :
  selectSession (ChatSession.id SampleMore.oldest) Sample.two_sessions
  = setMessages (ChatSession.messages SampleMore.oldest)
      (setCurrentSessionId (ChatSession.id SampleMore.oldest) Sample.two_sessions).
Proof.
  apply (selectSession_is_a_switch Sample.legacy_date Sample.two_sessions
           SampleMore.oldest).
  - apply two_sessions_reachable.
  - vm_compute. right. left. reflexivity.
Defined.

Lemma newChat_prepends_witness :
  List.tl (chatSessions (newChat 1730500003000 1730500003001 1730500003002
                           Sample.answered))
  = chatSessions Sample.answered.
Proof.
  apply (newChat_prepends Sample.legacy_date 1730500003000 1730500003001 1730500003002
           Sample.answered).
  - apply answered_reachable.
  - vm_compute. reflexivity.
  - vm_compute. reflexivity.
  - intros s Hs. vm_compute in Hs. destruct Hs as [<- | []]. vm_compute. discriminate.
Defined.

Lemma deleteSession_unknown_id_witness :
  deleteSession 7 8 9 (js "2") Sample.two_sessions = Sample.two_sessions.
Proof.
  apply (deleteSession_unknown_id Sample.legacy_date 7 8 9 (js "2") Sample.two_sessions).
  - apply two_sessions_reachable.
  - intros s Hs. vm_compute in Hs.
    destruct Hs as [<- | [<- | []]]; vm_compute; discriminate.
Defined.

Lemma deleteSession_leaves_sessions_witness :
  List.map ChatSession.id (chatSessions (deleteSession 7 8 9 (js "1") Sample.two_sessions))
  = List.map ChatSession.id (without (js "1") (chatSessions Sample.two_sessions))
  /\ forall s, In s (chatSessions (deleteSession 7 8 9 (js "1") Sample.two_sessions)) ->
       ChatSession.id s <> js "1".
Proof.
  apply (proj2 (deleteSession_leaves_sessions 7 8 9 (js "1") Sample.two_sessions)).
  vm_compute. discriminate.
Defined.

Lemma newChat_then_delete_witness :
  exists first rest,
    chatSessions Sample.answered = first :: rest
    /\ deleteSession 7 8 9 (Number_toString 1730500003001)
         (newChat 1730500003000 1730500003001 1730500003002 Sample.answered)
       = setMessages (ChatSession.messages first)
           (setCurrentSessionId (ChatSession.id first) Sample.answered).
Proof.
  apply (newChat_then_delete Sample.legacy_date 1730500003000 1730500003001
           1730500003002 7 8 9 Sample.answered).
  - apply answered_reachable.
  - vm_compute. reflexivity.
  - vm_compute. reflexivity.
  - vm_compute. reflexivity.
  - vm_compute. reflexivity.
  - intros s Hs. vm_compute in Hs. destruct Hs as [<- | []]. vm_compute. discriminate.
Defined.

Lemma renameSession_changes_titles_only_witness :
  chatSessions (renameSession (js "2") (js "Margins") Sample.two_sessions)
  = chatSessions Sample.two_sessions.
Proof.
  destruct (renameSession_changes_titles_only (js "2") (js "Margins") Sample.two_sessions)
    as (_ & _ & _ & _ & _ & _ & H).
  apply H. intros s Hs. vm_compute in Hs.
  destruct Hs as [<- | [<- | []]]; vm_compute; discriminate.
Defined.

Lemma loaded_sessions_have_dates_witness :
  Forall (fun session =>
            exists props d ms,
              session = VObj props
              /\ lookup (js "timestamp") props = Some (VDate d)
              /\ lookup (js "messages") props = Some (VArr ms)
              /\ Forall (fun msg =>
                           exists props' d',
                             msg = VObj props'
                             /\ lookup (js "timestamp") props' = Some (VDate d')) ms)
         SampleMore.loaded.
Proof.
  apply (loaded_sessions_have_dates Sample.legacy_date (localStorage Sample.two_sessions)
           SampleMore.loaded).
  vm_compute. reflexivity.
Defined.

Lemma rendering_never_throws_witness :
  (renderMessageContent SampleMore.answer
   = Ok [TextNode (Message.content SampleMore.answer)]
   \/ renderMessageContent SampleMore.answer
      = Ok [TextNode (Message.content SampleMore.answer); ChartNode chartResponseSpec]
   \/ renderMessageContent SampleMore.answer
      = Ok [TextNode (Message.content SampleMore.answer);
            TableNode tableResponseHeaders tableResponseRows])
  /\ (Message.type SampleMore.answer = user ->
      renderMessageContent SampleMore.answer
      = Ok [TextNode (Message.content SampleMore.answer)]).
Proof.
  apply (rendering_never_throws Sample.legacy_date Sample.answered SampleMore.answer).
  - apply answered_reachable.
  - left. vm_compute. right. right. left. reflexivity.
Defined.

Lemma currentDatasource_is_configured_witness :
  exists ds,
    Datasources.currentDatasource SampleMore.datasources (js "hr") = Some ds
    /\ In ds SampleMore.datasources /\ Datasources.id ds = js "hr".
Proof.
  apply (proj1 (currentDatasource_is_configured SampleMore.datasources (js "hr"))).
  apply (Datasources.selection_change SampleMore.datasources (js "sales")
           (Datasources.mkDatasource (js "hr") (js "People") (js "Headcount by team")
              (js "luid-2") [])).
  - apply Datasources.selection_initial. reflexivity.
  - right. left. reflexivity.
Defined.

Lemma one_dropdown_at_most_witness :
  (Header.activeDropdown
     (Header.toggleDropdown (Header.name SampleMore.company) Header.initialHeader) = None
   /\ Header.panels
        (Header.toggleDropdown (Header.name SampleMore.company) Header.initialHeader) = [])
  \/ (exists menu,
        In menu Header.menuItems /\ Header.items menu <> None
        /\ Header.activeDropdown
             (Header.toggleDropdown (Header.name SampleMore.company) Header.initialHeader)
           = Some (Header.name menu)
        /\ Header.panels
             (Header.toggleDropdown (Header.name SampleMore.company) Header.initialHeader)
           = [menu]).
Proof.
  apply (one_dropdown_at_most
           (Header.toggleDropdown (Header.name SampleMore.company) Header.initialHeader)).
  apply Header.reach_dropdown.
  - apply Header.reach_initial.
  - vm_compute. right. right. right. left. reflexivity.
  - vm_compute. discriminate.
Defined.

Lemma exchange_is_persisted_witness :
  exists s loaded,
    messages (step (ResponseTimer 2 1730500002100 1730500002101)
                (step (SendClick 1730500000100 1730500000101) Sample.typed))
    = messages Sample.typed
      ++ [Message.mk (Number_toString 1730500000100) user (trim (inputMessage Sample.typed))
                     (Some 1730500000101) None None;
          botResponse 2 1730500002100 1730500002101]
    /\ In s (chatSessions (step (ResponseTimer 2 1730500002100 1730500002101)
                             (step (SendClick 1730500000100 1730500000101) Sample.typed)))
    /\ ChatSession.id s = currentSessionId Sample.typed
    /\ ChatSession.messages s
       = messages Sample.typed
         ++ [Message.mk (Number_toString 1730500000100) user
                        (trim (inputMessage Sample.typed)) (Some 1730500000101) None None;
             botResponse 2 1730500002100 1730500002101]
    /\ ChatSession.messageCount s = Z.of_nat (List.length (messages Sample.typed)) + 2
    /\ loadChatSessions Sample.legacy_date
         (localStorage (step (ResponseTimer 2 1730500002100 1730500002101)
                          (step (SendClick 1730500000100 1730500000101) Sample.typed)))
       = Ok loaded
    /\ asChatSessions loaded
       = Some (chatSessions (step (ResponseTimer 2 1730500002100 1730500002101)
                               (step (SendClick 1730500000100 1730500000101)
                                  Sample.typed))).
Proof.
  apply (exchange_is_persisted Sample.legacy_date 1730500000100 1730500000101 2
           1730500002100 1730500002101 Sample.typed).
  - apply typed_reachable.
  - vm_compute. reflexivity.
  - vm_compute. discriminate.
  - vm_compute. reflexivity.
  - vm_compute. reflexivity.
  - lia.
  - vm_compute. reflexivity.
  - vm_compute. reflexivity.
Defined.

Lemma response_goes_to_the_selected_session_witness :
  messages (receiveResponse 0 1730500006100 1730500006101
              (selectSession (ChatSession.id SampleMore.oldest) SampleMore.asked))
  = ChatSession.messages SampleMore.oldest ++ [botResponse 0 1730500006100 1730500006101]
  /\ currentSessionId (receiveResponse 0 1730500006100 1730500006101
                         (selectSession (ChatSession.id SampleMore.oldest) SampleMore.asked))
     = ChatSession.id SampleMore.oldest
  /\ chatSessions (receiveResponse 0 1730500006100 1730500006101
                     (selectSession (ChatSession.id SampleMore.oldest) SampleMore.asked))
     = List.map
         (fun s =>
            if jsstring_eqb (ChatSession.id s) (ChatSession.id SampleMore.oldest)
            then with_messages
                   (ChatSession.messages SampleMore.oldest
                    ++ [botResponse 0 1730500006100 1730500006101])
                   s
            else s)
         (chatSessions SampleMore.asked).
Proof.
  apply (response_goes_to_the_selected_session Sample.legacy_date 0 1730500006100
           1730500006101 SampleMore.asked SampleMore.oldest).
  - apply asked_reachable.
  - vm_compute. right. left. reflexivity.
Defined.
